(** * Configuration-bit bookkeeping of the compact Verilog generator

    A shallow embedding of
    - [device_port.cpp]: the classes [BasicPort] and [ConfPorts];
    - [verilog_compact_netlist.c]: the pass that stamps configuration-bit
      ranges on the grid, and the top-level instantiation of grids, switch
      blocks and connection blocks.

    C [size_t] values are integers in [0, 2^64) with the wrap-around of
    unsigned arithmetic written out ([wrap]).  C [int] values are integers
    whose additions and multiplications are checked against the range of a
    32-bit [int]: a signed overflow has no defined behaviour in C and is an
    outcome of its own ([Undefined]). *)

From stdpp Require Import gmap strings list fin_maps pretty.
From Stdlib Require Import ZArith Lia.

Local Open Scope Z_scope.

(* ===================================================================== *)
(** * Part I: the model                                                    *)
(* ===================================================================== *)

(** ** Unsigned machine integers ([size_t], LP64) *)

Definition SIZE_BITS : Z := 64.
Definition SIZE_MOD : Z := 2 ^ SIZE_BITS.
(** [std::numeric_limits<size_t>::max()] and [::min()] *)
Definition SIZE_MAX : Z := SIZE_MOD - 1.
Definition SIZE_MIN : Z := 0.

Definition wrap (z : Z) : Z := z mod SIZE_MOD.

Definition is_size_t (z : Z) : Prop := 0 <= z <= SIZE_MAX.

(** ** [class BasicPort] (device_port.cpp) *)

Module BasicPort.

Record t : Type := mk { msb_ : Z; lsb_ : Z }.

(** The two data members hold [size_t] values. *)
Definition wf (p : t) : Prop := is_size_t (lsb_ p) /\ is_size_t (msb_ p).

(** [BasicPort::make_invalid] *)
Definition make_invalid (p : t) : t := {| msb_ := 0; lsb_ := 1 |}.

(** [BasicPort::BasicPort()]: the two assignments of the constructor. *)
Definition default : t := {| msb_ := 0; lsb_ := 1 |}.

(** [BasicPort::is_valid] *)
Definition is_valid (p : t) : bool :=
  if msb_ p <? lsb_ p then false else true.

(** [BasicPort::get_width] *)
Definition get_width (p : t) : Z :=
  if is_valid p then wrap (msb_ p - lsb_ p + 1) else 0.

Definition get_msb (p : t) : Z := msb_ p.
Definition get_lsb (p : t) : Z := lsb_ p.

Definition set_lsb (lsb : Z) (p : t) : t := {| msb_ := msb_ p; lsb_ := lsb |}.
Definition set_msb (msb : Z) (p : t) : t := {| msb_ := msb; lsb_ := lsb_ p |}.

(** [BasicPort::set(const BasicPort&)] and the copy constructor *)
Definition set (basic_port : t) (p : t) : t :=
  {| msb_ := get_msb basic_port; lsb_ := get_lsb basic_port |}.

(** [BasicPort::set_width(size_t width)] *)
Definition set_width (width : Z) (p : t) : t :=
  if 0 =? width then make_invalid p
  else {| msb_ := wrap (width - 1); lsb_ := 0 |}.

(** [BasicPort::set_width(size_t lsb, size_t msb)] *)
Definition set_width_range (lsb msb : Z) (p : t) : t :=
  if msb <? lsb then make_invalid p
  else set_msb msb (set_lsb lsb p).

(** [BasicPort::expand] *)
Definition expand (width : Z) (p : t) : t :=
  if 0 =? width then p
  else if 0 =? get_width p then {| msb_ := width; lsb_ := 0 |}
  else {| msb_ := wrap (msb_ p + width); lsb_ := lsb_ p |}.

(** [BasicPort::revert] *)
Definition revert (p : t) : t := {| msb_ := lsb_ p; lsb_ := msb_ p |}.

(** [BasicPort::rotate]: the returned flag and the port afterwards. *)
Definition rotate (offset : Z) (p : t) : bool * t :=
  if (0 =? offset) || (0 =? get_width p) then (true, p)
  else if wrap (SIZE_MAX - msb_ p) <? offset then (false, p)
  else (true, {| msb_ := wrap (msb_ p + offset);
                 lsb_ := wrap (lsb_ p + offset) |}).

(** [BasicPort::counter_rotate] *)
Definition counter_rotate (offset : Z) (p : t) : bool * t :=
  if (0 =? offset) || (0 =? get_width p) then (true, p)
  else if wrap (SIZE_MIN + lsb_ p) <? offset then (false, p)
  else (true, {| msb_ := wrap (msb_ p - offset);
                 lsb_ := wrap (lsb_ p - offset) |}).

(** [BasicPort::reset] *)
Definition reset (p : t) : t := make_invalid p.

(** [BasicPort::combine]; [None] when the assertion on the argument fails. *)
Definition combine (port : t) (p : t) : option t :=
  if 0 <? get_width port then
    Some (if 0 =? get_width p then p
          else {| msb_ := wrap (msb_ p + get_width port); lsb_ := lsb_ p |})
  else None.

(** The port on which nothing is rotated although it is valid: it spans
    every [size_t] index, and its width does not fit in a [size_t]. *)
Definition full_range : t := {| msb_ := SIZE_MAX; lsb_ := 0 |}.

End BasicPort.

(** ** [class ConfPorts] (device_port.cpp) *)

Module ConfPorts.

Record t : Type := mk { reserved_ : BasicPort.t; regular_ : BasicPort.t }.

(** [ConfPorts::ConfPorts()]: both members are default-constructed and
    then reset. *)
Definition default : t :=
  {| reserved_ := BasicPort.reset BasicPort.default;
     regular_ := BasicPort.reset BasicPort.default |}.

Definition get_reserved_port_width (c : t) : Z := BasicPort.get_width (reserved_ c).
Definition get_reserved_port_lsb (c : t) : Z := BasicPort.get_lsb (reserved_ c).
Definition get_reserved_port_msb (c : t) : Z := BasicPort.get_msb (reserved_ c).
Definition get_regular_port_width (c : t) : Z := BasicPort.get_width (regular_ c).
Definition get_regular_port_lsb (c : t) : Z := BasicPort.get_lsb (regular_ c).
Definition get_regular_port_msb (c : t) : Z := BasicPort.get_msb (regular_ c).

Definition set_reserved_port (width : Z) (c : t) : t :=
  {| reserved_ := BasicPort.set_width width (reserved_ c); regular_ := regular_ c |}.

Definition set_regular_port (width : Z) (c : t) : t :=
  {| reserved_ := reserved_ c; regular_ := BasicPort.set_width width (regular_ c) |}.

Definition set_regular_port_range (lsb msb : Z) (c : t) : t :=
  {| reserved_ := reserved_ c;
     regular_ := BasicPort.set_width_range lsb msb (regular_ c) |}.

(** [ConfPorts::set]: of the reserved port only the width is copied. *)
Definition set (conf_ports : t) (c : t) : t :=
  set_regular_port_range (get_regular_port_lsb conf_ports)
                         (get_regular_port_msb conf_ports)
    (set_reserved_port (get_reserved_port_width conf_ports) c).

Definition expand_reserved_port (width : Z) (c : t) : t :=
  {| reserved_ := BasicPort.expand width (reserved_ c); regular_ := regular_ c |}.

Definition expand_regular_port (width : Z) (c : t) : t :=
  {| reserved_ := reserved_ c; regular_ := BasicPort.expand width (regular_ c) |}.

Definition expand (width : Z) (c : t) : t :=
  expand_regular_port width (expand_reserved_port width c).

Definition rotate_regular_port (offset : Z) (c : t) : bool * t :=
  let '(b, r) := BasicPort.rotate offset (regular_ c) in
  (b, {| reserved_ := reserved_ c; regular_ := r |}).

Definition counter_rotate_regular_port (offset : Z) (c : t) : bool * t :=
  let '(b, r) := BasicPort.counter_rotate offset (regular_ c) in
  (b, {| reserved_ := reserved_ c; regular_ := r |}).

Definition reset (c : t) : t :=
  {| reserved_ := BasicPort.reset (reserved_ c);
     regular_ := BasicPort.reset (regular_ c) |}.

End ConfPorts.

(** Both members of a [ConfPorts] hold [size_t] values. *)
Definition ConfPorts_wf (c : ConfPorts.t) : Prop :=
  BasicPort.wf (ConfPorts.reserved_ c) /\ BasicPort.wf (ConfPorts.regular_ c).

(** ** Outcomes of a C call

    A call either returns, or the process stops: on a failed [assert], on
    [exit(1)], or on a signed overflow (no defined behaviour). *)

Inductive outcome (A : Type) : Type :=
| Ok (a : A)
| AssertFail
| Exit1
| Undefined.

Arguments Ok {A} a.
Arguments AssertFail {A}.
Arguments Exit1 {A}.
Arguments Undefined {A}.

Global Instance outcome_ret : MRet outcome := fun A a => Ok a.

Global Instance outcome_bind : MBind outcome := fun A B f m =>
  match m with
  | Ok a => f a
  | AssertFail => AssertFail
  | Exit1 => Exit1
  | Undefined => Undefined
  end.

(** [assert(b)] *)
Definition c_assert (b : bool) : outcome unit :=
  if b then Ok tt else AssertFail.

(** A [for] loop whose body neither writes its index nor its bounds:
    the body is run on each index of the list in turn, and the first
    stop ends the loop. *)
Fixpoint foldM {S I : Type} (body : I -> S -> outcome S) (l : list I) (s : S)
  : outcome S :=
  match l with
  | [] => Ok s
  | i :: l' => s' ← body i s; foldM body l' s'
  end.

(** [for (i = lo; i < hi; i++) body] *)
Definition for_range {S : Type} (lo hi : Z) (body : Z -> S -> outcome S) (s : S)
  : outcome S :=
  foldM body (seqZ lo (hi - lo)) s.

(** ** Signed machine integers ([int], 32 bits) *)

Definition INT_MIN : Z := - 2 ^ 31.
Definition INT_MAX : Z := 2 ^ 31 - 1.

Definition is_int (z : Z) : Prop := INT_MIN <= z <= INT_MAX.

Definition int_checked (z : Z) : outcome Z :=
  if (INT_MIN <=? z) && (z <=? INT_MAX) then Ok z else Undefined.

Definition int_add (a b : Z) : outcome Z := int_checked (a + b).
Definition int_sub (a b : Z) : outcome Z := int_checked (a - b).
Definition int_mul (a b : Z) : outcome Z := int_checked (a * b).

(** ** Architecture and device data (physical_types.h, globals.h)

    Only the members read by the modelled functions are kept. *)

(** A [t_type_ptr] points into the global array [type_descriptors]; the
    globals [EMPTY_TYPE], [IO_TYPE] and [FILL_TYPE] point to three of its
    entries, and two pointers are compared by address. *)
Inductive t_type_ptr : Type :=
| EMPTY_TYPE
| IO_TYPE
| FILL_TYPE
| HETERO_TYPE (index : nat).

Global Instance t_type_ptr_eq_dec : EqDecision t_type_ptr.
Proof. solve_decision. Defined.

Record t_pb_type : Type := {
  physical_mode_num_conf_bits : Z;
  physical_mode_num_reserved_conf_bits : Z;
  physical_mode_num_iopads : Z
}.

Record t_type_descriptor : Type := {
  name : string;
  capacity : Z;
  pb_type : t_pb_type
}.

Record t_grid_tile : Type := {
  type : t_type_ptr;
  offset : Z
}.

(** The globals read by the pass: the extents [nx], [ny], the array
    [grid[0..nx+1][0..ny+1]] and the pointees of the type pointers. *)
Record t_device : Type := {
  nx : Z;
  ny : Z;
  grid : Z -> Z -> t_grid_tile;
  type_descriptors : t_type_ptr -> t_type_descriptor
}.

(** ** SPICE models (spice_types.h) *)

Inductive e_spice_model_type : Type :=
| SPICE_MODEL_CHAN_WIRE
| SPICE_MODEL_WIRE
| SPICE_MODEL_MUX
| SPICE_MODEL_LUT
| SPICE_MODEL_FF
| SPICE_MODEL_SRAM
| SPICE_MODEL_HARDLOGIC
| SPICE_MODEL_SCFF
| SPICE_MODEL_IOPAD
| SPICE_MODEL_INVBUF
| SPICE_MODEL_PASSGATE
| SPICE_MODEL_GATE.

Record t_spice_model : Type := {
  spice_model_type : e_spice_model_type;
  cnt : Z;
  grid_index_low : gmap (Z * Z) Z;
  grid_index_high : gmap (Z * Z) Z
}.

(** ** [t_sram_orgz_info] *)

Record t_sram_orgz_info : Type := {
  num_mem_bit : Z;
  num_bl : Z;
  num_wl : Z;
  grid_reserved_conf_bits : gmap (Z * Z) Z;
  grid_conf_bits_lsb : gmap (Z * Z) Z;
  grid_conf_bits_msb : gmap (Z * Z) Z
}.

(** Modelled from the spec: the accessors [get_sram_orgz_info_num_mem_bit],
    [update_sram_orgz_info_num_mem_bit], [get_sram_orgz_info_num_blwl] and
    [update_sram_orgz_info_num_blwl] (fpga_x2p_utils.c) are missing.  The
    specification speaks of one global bit-range counter; they read and
    write that counter and the two line counters kept beside it. *)
Definition get_sram_orgz_info_num_mem_bit (cur : t_sram_orgz_info) : Z :=
  num_mem_bit cur.

Definition update_sram_orgz_info_num_mem_bit (cur : t_sram_orgz_info) (n : Z)
  : t_sram_orgz_info :=
  {| num_mem_bit := n;
     num_bl := num_bl cur;
     num_wl := num_wl cur;
     grid_reserved_conf_bits := grid_reserved_conf_bits cur;
     grid_conf_bits_lsb := grid_conf_bits_lsb cur;
     grid_conf_bits_msb := grid_conf_bits_msb cur |}.

Definition get_sram_orgz_info_num_blwl (cur : t_sram_orgz_info) : Z * Z :=
  (num_bl cur, num_wl cur).

Definition update_sram_orgz_info_num_blwl (cur : t_sram_orgz_info) (bl wl : Z)
  : t_sram_orgz_info :=
  {| num_mem_bit := num_mem_bit cur;
     num_bl := bl;
     num_wl := wl;
     grid_reserved_conf_bits := grid_reserved_conf_bits cur;
     grid_conf_bits_lsb := grid_conf_bits_lsb cur;
     grid_conf_bits_msb := grid_conf_bits_msb cur |}.

(** ** Messages of [vpr_printf] *)

Inductive e_message_type : Type :=
| TIO_MESSAGE_INFO
| TIO_MESSAGE_ERROR.

(** A message: its level, its format string and the integers printed
    through it (the file name and line number that some formats also take
    are left out). *)
Record t_message : Type := {
  message_type : e_message_type;
  message_text : string;
  message_args : list Z
}.

(** What the pass reads and writes: the structure behind
    [cur_sram_orgz_info], the array [spice_model], and the messages
    printed so far (oldest first). *)
Record t_state : Type := {
  sram_orgz_info : t_sram_orgz_info;
  spice_models : list t_spice_model;
  messages : list t_message
}.

Definition vpr_printf (ty : e_message_type) (text : string) (args : list Z)
  (st : t_state) : t_state :=
  {| sram_orgz_info := sram_orgz_info st;
     spice_models := spice_models st;
     messages := messages st ++
       [{| message_type := ty; message_text := text; message_args := args |}] |}.

(** ** The grid pass of verilog_compact_netlist.c *)

(** Loop body of [compact_verilog_update_one_spice_model_grid_index] on
    one entry of the array.  The [default:] branch of the [switch] (an
    integer outside the enumeration) has no counterpart here. *)
Definition update_one_spice_model (phy_block_type : t_type_descriptor)
  (grid_x grid_y : Z) (m : t_spice_model) : outcome t_spice_model :=
  match spice_model_type m with
  | SPICE_MODEL_INVBUF | SPICE_MODEL_PASSGATE | SPICE_MODEL_LUT
  | SPICE_MODEL_MUX | SPICE_MODEL_WIRE | SPICE_MODEL_CHAN_WIRE
  | SPICE_MODEL_FF | SPICE_MODEL_HARDLOGIC | SPICE_MODEL_GATE => Ok m
  | SPICE_MODEL_SCFF | SPICE_MODEL_SRAM =>
      let stamped_cnt := cnt m in
      w ← int_mul (capacity phy_block_type)
                  (physical_mode_num_conf_bits (pb_type phy_block_type));
      high ← int_add stamped_cnt w;
      Ok {| spice_model_type := spice_model_type m;
            cnt := high;
            grid_index_low := <[(grid_x, grid_y) := stamped_cnt]> (grid_index_low m);
            grid_index_high := <[(grid_x, grid_y) := high]> (grid_index_high m) |}
  | SPICE_MODEL_IOPAD =>
      let stamped_cnt := cnt m in
      w ← int_mul (capacity phy_block_type)
                  (physical_mode_num_iopads (pb_type phy_block_type));
      high ← int_add stamped_cnt w;
      Ok {| spice_model_type := spice_model_type m;
            cnt := high;
            grid_index_low := <[(grid_x, grid_y) := stamped_cnt]> (grid_index_low m);
            grid_index_high := <[(grid_x, grid_y) := high]> (grid_index_high m) |}
  end.

(** [compact_verilog_update_one_spice_model_grid_index]; the list is the
    array [spice_model[0 .. num_spice_models-1]]. *)
Definition compact_verilog_update_one_spice_model_grid_index
  (phy_block_type : t_type_descriptor) (grid_x grid_y : Z)
  (spice_model : list t_spice_model) : outcome (list t_spice_model) :=
  mapM (update_one_spice_model phy_block_type grid_x grid_y) spice_model.

(** [compact_verilog_update_sram_orgz_info_grid_index] *)
Definition compact_verilog_update_sram_orgz_info_grid_index
  (cur_sram_orgz_info : t_sram_orgz_info) (phy_block_type : t_type_descriptor)
  (grid_x grid_y : Z) : outcome t_sram_orgz_info :=
  let cur_num_conf_bits := get_sram_orgz_info_num_mem_bit cur_sram_orgz_info in
  let '(cur_num_bl, cur_num_wl) := get_sram_orgz_info_num_blwl cur_sram_orgz_info in
  let reserved :=
    <[(grid_x, grid_y) :=
        physical_mode_num_reserved_conf_bits (pb_type phy_block_type)]>
      (grid_reserved_conf_bits cur_sram_orgz_info) in
  let lsb :=
    <[(grid_x, grid_y) := cur_num_conf_bits]>
      (grid_conf_bits_lsb cur_sram_orgz_info) in
  w ← int_mul (capacity phy_block_type)
              (physical_mode_num_conf_bits (pb_type phy_block_type));
  msb_value ← int_add cur_num_conf_bits w;
  let msb :=
    <[(grid_x, grid_y) := msb_value]> (grid_conf_bits_msb cur_sram_orgz_info) in
  let stamped :=
    {| num_mem_bit := num_mem_bit cur_sram_orgz_info;
       num_bl := num_bl cur_sram_orgz_info;
       num_wl := num_wl cur_sram_orgz_info;
       grid_reserved_conf_bits := reserved;
       grid_conf_bits_lsb := lsb;
       grid_conf_bits_msb := msb |} in
  let cur_num_conf_bits := msb_value in
  let cur_num_bl := msb_value in
  let cur_num_wl := msb_value in
  Ok (update_sram_orgz_info_num_blwl
        (update_sram_orgz_info_num_mem_bit stamped cur_num_conf_bits)
        cur_num_bl cur_num_wl).

(** The two calls made on every visited tile [grid[ix][iy]]. *)
Definition update_grid_index (dev : t_device) (ix iy : Z) (st : t_state)
  : outcome t_state :=
  let phy_block_type := type_descriptors dev (type (grid dev ix iy)) in
  models ← compact_verilog_update_one_spice_model_grid_index
             phy_block_type ix iy (spice_models st);
  info ← compact_verilog_update_sram_orgz_info_grid_index
           (sram_orgz_info st) phy_block_type ix iy;
  Ok {| sram_orgz_info := info; spice_models := models; messages := messages st |}.

(** Body of the two nested loops over the core grids. *)
Definition core_grid_body (dev : t_device) (ix iy : Z) (st : t_state)
  : outcome t_state :=
  _ ← c_assert (bool_decide (IO_TYPE <> type (grid dev ix iy)));
  if bool_decide (EMPTY_TYPE = type (grid dev ix iy)) then Ok st
  else if 0 <? offset (grid dev ix iy) then Ok st
  else update_grid_index dev ix iy st.

(** Body of each of the four loops over the I/O grids. *)
Definition io_grid_body (dev : t_device) (ix iy : Z) (st : t_state)
  : outcome t_state :=
  _ ← c_assert (bool_decide (IO_TYPE = type (grid dev ix iy)));
  update_grid_index dev ix iy st.

(** [compact_verilog_update_grid_spice_model_and_sram_orgz_info].  The
    array [grid] is there ([assert(NULL != grid)] holds); the loop indices
    and bounds [nx + 1], [ny + 1] stay far inside the range of [int]. *)
Definition compact_verilog_update_grid_spice_model_and_sram_orgz_info
  (dev : t_device) (st : t_state) : outcome t_state :=
  if (0 =? nx dev) || (0 =? ny dev) then
    Ok (vpr_printf TIO_MESSAGE_ERROR
          "(File:%s,[LINE%d])Invalid grid size (nx=%d, ny=%d)!\n"
          [nx dev; ny dev] st)
  else
    let st := vpr_printf TIO_MESSAGE_INFO "Grid size of FPGA: nx=%d ny=%d\n"
                [nx dev + 1; ny dev + 1] st in
    let st := vpr_printf TIO_MESSAGE_INFO "Generating core grids...\n" [] st in
    st ← for_range 1 (nx dev + 1)
           (fun ix => for_range 1 (ny dev + 1) (fun iy => core_grid_body dev ix iy))
           st;
    let st := vpr_printf TIO_MESSAGE_INFO "Generating IO grids...\n" [] st in
    (* Top side *)
    st ← (let iy := ny dev + 1 in
          for_range 1 (nx dev + 1) (fun ix => io_grid_body dev ix iy) st);
    (* Right side *)
    st ← (let ix := nx dev + 1 in
          for_range 1 (ny dev + 1) (fun iy => io_grid_body dev ix iy) st);
    (* Bottom side *)
    st ← (let iy := 0 in
          for_range 1 (nx dev + 1) (fun ix => io_grid_body dev ix iy) st);
    (* Left side *)
    (let ix := 0 in
     for_range 1 (ny dev + 1) (fun iy => io_grid_body dev ix iy) st).

(** *** The traversal, as the specification words it

    Interior tiles with [x] outermost and [y] innermost, leaving out the
    EMPTY tiles and the tiles that a block reaching over several tiles
    covers above its origin (the two tests of the loop body: an offset that
    is positive is skipped), then the I/O ring: top, right, bottom, left. *)

Definition interior_coordinates (dev : t_device) : list (Z * Z) :=
  ix ← seqZ 1 (nx dev); iy ← seqZ 1 (ny dev); [(ix, iy)].

Definition is_visited_interior (dev : t_device) (c : Z * Z) : bool :=
  bool_decide (type (grid dev c.1 c.2) <> EMPTY_TYPE)
  && negb (0 <? offset (grid dev c.1 c.2)).

Definition top_border (dev : t_device) : list (Z * Z) :=
  (fun ix => (ix, ny dev + 1)) <$> seqZ 1 (nx dev).
Definition right_border (dev : t_device) : list (Z * Z) :=
  (fun iy => (nx dev + 1, iy)) <$> seqZ 1 (ny dev).
Definition bottom_border (dev : t_device) : list (Z * Z) :=
  (fun ix => (ix, 0)) <$> seqZ 1 (nx dev).
Definition left_border (dev : t_device) : list (Z * Z) :=
  (fun iy => (0, iy)) <$> seqZ 1 (ny dev).

Definition io_ring (dev : t_device) : list (Z * Z) :=
  top_border dev ++ right_border dev ++ bottom_border dev ++ left_border dev.

Definition device_tiles_in_bitstream_order (dev : t_device) : list (Z * Z) :=
  filter (fun c => is_visited_interior dev c = true) (interior_coordinates dev)
  ++ io_ring dev.

(** Number of regular configuration bits of the tile at a coordinate. *)
Definition tile_conf_bits (dev : t_device) (c : Z * Z) : Z :=
  let phy_block_type := type_descriptors dev (type (grid dev c.1 c.2)) in
  capacity phy_block_type * physical_mode_num_conf_bits (pb_type phy_block_type).

Definition tile_reserved_conf_bits (dev : t_device) (c : Z * Z) : Z :=
  physical_mode_num_reserved_conf_bits
    (pb_type (type_descriptors dev (type (grid dev c.1 c.2)))).

(** Sum of the regular configuration bits of a list of tiles. *)
Definition total_conf_bits (dev : t_device) (l : list (Z * Z)) : Z :=
  foldr (fun c acc => tile_conf_bits dev c + acc) 0 l.

(** What the assertions of the pass expect of the grid: no I/O tile inside
    the array, I/O tiles all along the ring. *)
Definition grid_well_formed (dev : t_device) : bool :=
  forallb (fun c => bool_decide (type (grid dev c.1 c.2) <> IO_TYPE))
          (interior_coordinates dev)
  && forallb (fun c => bool_decide (type (grid dev c.1 c.2) = IO_TYPE))
             (io_ring dev).

(** The offset of a tile inside a block is counted from the origin of the
    block, upwards. *)
Definition offsets_nonnegative (dev : t_device) : Prop :=
  forall ix iy, 0 <= offset (grid dev ix iy).


(** ** Grid modules (verilog_compact_netlist.c) *)

Section GridModules.
(** The global [grid_verilog_file_name_prefix] and the function
    [convert_side_index_to_string] are declared in headers that are not
    part of the sources at hand. *)
Variable grid_verilog_file_name_prefix : string.
Variable convert_side_index_to_string : Z -> string.

(** [generate_compact_verilog_grid_module_name_prefix] *)
Definition generate_compact_verilog_grid_module_name_prefix
  (phy_block_type : t_type_ptr) (border_side : Z) : outcome string :=
  let subckt_name := grid_verilog_file_name_prefix in
  _ ← (if bool_decide (IO_TYPE = phy_block_type)
       then c_assert ((-1 <? border_side) && (border_side <? 4))
       else Ok tt);
  Ok (if bool_decide (IO_TYPE = phy_block_type)
      then subckt_name +:+ convert_side_index_to_string border_side +:+ "_"
      else subckt_name).

(** [generate_compact_verilog_grid_module_name] *)
Definition generate_compact_verilog_grid_module_name
  (dev : t_device) (phy_block_type : t_type_ptr) (border_side : Z)
  : outcome string :=
  subckt_name ← generate_compact_verilog_grid_module_name_prefix
                  phy_block_type border_side;
  Ok (subckt_name +:+ name (type_descriptors dev phy_block_type)).

(** The ports whose index range is passed to a printer: the I/O pads
    ([dump_verilog_grid_common_port]), the reserved configuration ports
    ([dump_verilog_reserved_sram_ports]) and the regular ones
    ([dump_verilog_sram_ports], [dump_verilog_sram_local_ports]). *)
Inductive t_port : Type :=
| IOPAD_PORT (lsb msb : Z)
| RESERVED_SRAM_PORT (lsb msb : Z)
| SRAM_PORT (lsb msb : Z).

Record t_block_module : Type := {
  block_module_name : string;
  block_module_ports : list t_port;
  (** port connections of the sub-blocks [iz = 0 .. capacity-1] *)
  block_sub_blocks : list (list t_port)
}.

(** Local variables of the loop that quotes the sub-blocks. *)
Record t_quote_state : Type := {
  temp_conf_bits_lsb : Z;
  temp_conf_bits_msb : Z;
  temp_iopad_lsb : Z;
  quoted : list (list t_port)
}.

(** Body of the loop "Quote all the sub blocks". *)
Definition quote_sub_block (phy : t_type_descriptor) (iz : Z) (q : t_quote_state)
  : outcome t_quote_state :=
  let temp_reserved_conf_bits_msb :=
    physical_mode_num_reserved_conf_bits (pb_type phy) in
  conf_msb ← int_add (temp_conf_bits_lsb q)
                     (physical_mode_num_conf_bits (pb_type phy));
  iopad_msb ← int_add (temp_iopad_lsb q) (physical_mode_num_iopads (pb_type phy));
  iopad_hi ← int_sub iopad_msb 1;
  reserved_ports ←
    (if 0 <? temp_reserved_conf_bits_msb
     then hi ← int_sub temp_reserved_conf_bits_msb 1;
          Ok [RESERVED_SRAM_PORT 0 hi]
     else Ok []);
  width ← int_sub conf_msb (temp_conf_bits_lsb q);
  regular_ports ←
    (if 0 <? width
     then hi ← int_sub conf_msb 1;
          Ok [SRAM_PORT (temp_conf_bits_lsb q) hi]
     else Ok []);
  Ok {| temp_conf_bits_lsb := conf_msb;
        temp_conf_bits_msb := conf_msb;
        temp_iopad_lsb := iopad_msb;
        quoted := quoted q ++
          [IOPAD_PORT (temp_iopad_lsb q) iopad_hi :: reserved_ports ++ regular_ports] |}.

(** [dump_compact_verilog_one_physical_block], as far as the module name
    and the index ranges of the pad and configuration ports go.  What
    the printers of the sub-module definitions and of the pins write,
    and the ports under the formal-verification flag (which repeat the
    regular ones), are left out.  [fopen_ok] tells whether [fopen]
    returned a stream. *)
Definition dump_compact_verilog_one_physical_block
  (dev : t_device) (fopen_ok : bool) (phy_block_type : t_type_ptr)
  (border_side : Z) : outcome t_block_module :=
  let phy := type_descriptors dev phy_block_type in
  _ ← (if bool_decide (IO_TYPE = phy_block_type)
       then c_assert ((-1 <? border_side) && (border_side <? 4))
       else Ok tt);
  _ ← (if fopen_ok then Ok tt else Exit1);
  subckt_name_prefix ← generate_compact_verilog_grid_module_name_prefix
                         phy_block_type border_side;
  subckt_name ← generate_compact_verilog_grid_module_name
                  dev phy_block_type border_side;
  num_iopads ← int_mul (capacity phy) (physical_mode_num_iopads (pb_type phy));
  iopad_hi ← int_sub num_iopads 1;
  let temp_reserved_conf_bits_msb :=
    physical_mode_num_reserved_conf_bits (pb_type phy) in
  reserved_ports ←
    (if 0 <? temp_reserved_conf_bits_msb
     then hi ← int_sub temp_reserved_conf_bits_msb 1;
          Ok [RESERVED_SRAM_PORT 0 hi]
     else Ok []);
  conf_msb ← int_mul (capacity phy) (physical_mode_num_conf_bits (pb_type phy));
  regular_ports ←
    (if 0 <? conf_msb
     then hi ← int_sub conf_msb 1; Ok [SRAM_PORT 0 hi]
     else Ok []);
  q ← for_range 0 (capacity phy) (quote_sub_block phy)
        {| temp_conf_bits_lsb := 0;
           temp_conf_bits_msb := conf_msb;
           temp_iopad_lsb := 0;
           quoted := [] |};
  expected ← int_mul (capacity phy) (physical_mode_num_conf_bits (pb_type phy));
  _ ← c_assert (temp_conf_bits_msb q =? expected);
  Ok {| block_module_name := subckt_name;
        block_module_ports := IOPAD_PORT 0 iopad_hi :: reserved_ports ++ regular_ports;
        block_sub_blocks := quoted q |}.

End GridModules.

(** *** The grid modules in closed form, and the loop over the types *)

(** The ports of sub-block [iz] of a grid module: its pads, the reserved
    configuration ports and its share of the regular ones. *)
Definition sub_block_ports (phy : t_type_descriptor) (iz : Z) : list t_port :=
  let conf := physical_mode_num_conf_bits (pb_type phy) in
  let reserved := physical_mode_num_reserved_conf_bits (pb_type phy) in
  let iopads := physical_mode_num_iopads (pb_type phy) in
  IOPAD_PORT (iz * iopads) (iz * iopads + iopads - 1)
  :: (if 0 <? reserved then [RESERVED_SRAM_PORT 0 (reserved - 1)] else [])
  ++ (if 0 <? conf then [SRAM_PORT (iz * conf) (iz * conf + conf - 1)] else []).

(** The ports of the grid module itself. *)
Definition grid_module_ports (phy : t_type_descriptor) : list t_port :=
  let conf := physical_mode_num_conf_bits (pb_type phy) in
  let reserved := physical_mode_num_reserved_conf_bits (pb_type phy) in
  let iopads := physical_mode_num_iopads (pb_type phy) in
  IOPAD_PORT 0 (capacity phy * iopads - 1)
  :: (if 0 <? reserved then [RESERVED_SRAM_PORT 0 (reserved - 1)] else [])
  ++ (if 0 <? capacity phy * conf then [SRAM_PORT 0 (capacity phy * conf - 1)] else []).

(** A block type whose numbers are not negative and whose totals fit in
    an [int]. *)
Definition block_type_in_range (phy : t_type_descriptor) : bool :=
  (0 <=? capacity phy)
  && (0 <=? physical_mode_num_conf_bits (pb_type phy))
  && (0 <=? physical_mode_num_iopads (pb_type phy))
  && (0 <=? physical_mode_num_reserved_conf_bits (pb_type phy))
  && (physical_mode_num_reserved_conf_bits (pb_type phy) <=? INT_MAX)
  && (capacity phy * physical_mode_num_conf_bits (pb_type phy) <=? INT_MAX)
  && (capacity phy * physical_mode_num_iopads (pb_type phy) <=? INT_MAX).

Section LogicBlocks.
Variable grid_verilog_file_name_prefix : string.
Variable convert_side_index_to_string : Z -> string.

(** Body of the loop of [dump_compact_verilog_logic_blocks] over the
    entries of [type_descriptors]: the modules written for one type are
    appended to those written so far.  [fopen_ok] tells, for a type and a
    border side, whether the file of that module can be opened. *)
Definition dump_logic_blocks_of_type (dev : t_device)
  (fopen_ok : t_type_ptr -> Z -> bool) (ty : t_type_ptr)
  (written : list t_block_module) : outcome (list t_block_module) :=
  if bool_decide (EMPTY_TYPE = ty) then Ok written
  else if bool_decide (IO_TYPE = ty) then
    let num_sides := 4 in
    for_range 0 num_sides
      (fun iside written =>
         m ← dump_compact_verilog_one_physical_block
               grid_verilog_file_name_prefix convert_side_index_to_string
               dev (fopen_ok ty iside) ty iside;
         Ok (written ++ [m]))
      written
  else if bool_decide (FILL_TYPE = ty) then
    m ← dump_compact_verilog_one_physical_block
          grid_verilog_file_name_prefix convert_side_index_to_string
          dev (fopen_ok ty (-1)) ty (-1);
    Ok (written ++ [m])
  else
    m ← dump_compact_verilog_one_physical_block
          grid_verilog_file_name_prefix convert_side_index_to_string
          dev (fopen_ok ty (-1)) ty (-1);
    Ok (written ++ [m]).

(** [dump_compact_verilog_logic_blocks], as far as the grid modules it
    writes go; [types] is the array [type_descriptors[0 .. num_types-1]],
    as pointers.  The helpers that snapshot the counters before the loop
    and restore them after it, and the writer of the header file, are not
    part of the sources at hand; the grid pass that ends the function is
    [compact_verilog_update_grid_spice_model_and_sram_orgz_info]
    above. *)
Definition dump_compact_verilog_logic_blocks (dev : t_device)
  (fopen_ok : t_type_ptr -> Z -> bool) (types : list t_type_ptr)
  : outcome (list t_block_module) :=
  foldM (dump_logic_blocks_of_type dev fopen_ok) types [].

(** The grid module of a type on a side, in closed form. *)
Definition grid_module (dev : t_device) (ty : t_type_ptr) (side : Z)
  : t_block_module :=
  let phy := type_descriptors dev ty in
  {| block_module_name :=
       (if bool_decide (IO_TYPE = ty)
        then grid_verilog_file_name_prefix
             +:+ convert_side_index_to_string side +:+ "_"
        else grid_verilog_file_name_prefix) +:+ name phy;
     block_module_ports := grid_module_ports phy;
     block_sub_blocks := sub_block_ports phy <$> seqZ 0 (capacity phy) |}.

(** The modules of one type: none for the EMPTY type, one per border
    side for the I/O type, one for any other type. *)
Definition grid_modules_of_type (dev : t_device) (ty : t_type_ptr)
  : list t_block_module :=
  if bool_decide (EMPTY_TYPE = ty) then []
  else if bool_decide (IO_TYPE = ty) then grid_module dev ty <$> [0; 1; 2; 3]
  else [grid_module dev ty (-1)].

End LogicBlocks.

(** ** Switch blocks and connection blocks in the top-level netlist *)

Inductive t_rr_type : Type :=
| SOURCE | SINK | IPIN | OPIN | CHANX | CHANY | INTRA_CLUSTER_EDGE.

Record DeviceCoordinator : Type := { get_x : Z; get_y : Z }.

(** The classes [RRGSB] and [DeviceRRGSB] (rr_blocks.h), the global
    [device_rr_gsb] and the routing utility [is_cb_exist] are not part of
    the sources at hand: the members called by the netlist writer are an
    interface. *)
Class DeviceRRGSB : Type := {
  RRGSB : Type;
  (* DeviceRRGSB *)
  get_gsb_range : DeviceCoordinator;
  get_gsb : Z -> Z -> RRGSB;
  get_sb_unique_module : DeviceCoordinator -> RRGSB;
  get_cb_unique_module : t_rr_type -> DeviceCoordinator -> RRGSB;
  (* RRGSB *)
  get_sb_coordinator : RRGSB -> DeviceCoordinator;
  get_cb_coordinator : RRGSB -> t_rr_type -> DeviceCoordinator;
  rr_gsb_is_cb_exist : RRGSB -> t_rr_type -> bool;
  gen_sb_verilog_module_name : RRGSB -> string;
  gen_sb_verilog_instance_name : RRGSB -> string;
  gen_cb_verilog_module_name : RRGSB -> t_rr_type -> string;
  gen_cb_verilog_instance_name : RRGSB -> t_rr_type -> string;
  (* the device-level test [is_cb_exist(cb_type, x, y)] *)
  is_cb_exist : t_rr_type -> Z -> Z -> bool
}.

(** One module instantiation of the top-level netlist: the two names
    printed in front of the port list.  The port connections are written by
    printers that are not part of the sources at hand. *)
Record t_instantiation : Type := {
  inst_module_name : string;
  inst_instance_name : string
}.

(** A [FILE*]: [None] is the null pointer, [Some out] a stream holding the
    instantiations [out] (oldest first). *)
Definition t_file : Type := option (list t_instantiation).

Section TopNetlist.
Context `{D : DeviceRRGSB}.

(** [dump_compact_verilog_defined_one_switch_box] *)
Definition dump_compact_verilog_defined_one_switch_box
  (fp : t_file) (rr_sb : RRGSB) : outcome (list t_instantiation) :=
  match fp with
  | None => Exit1
  | Some out =>
      let coordinator := get_sb_coordinator rr_sb in
      let unique_mirror := get_sb_unique_module coordinator in
      Ok (out ++ [{| inst_module_name := gen_sb_verilog_module_name unique_mirror;
                     inst_instance_name := gen_sb_verilog_instance_name rr_sb |}])
  end.

(** [dump_compact_verilog_defined_switch_boxes] *)
Definition dump_compact_verilog_defined_switch_boxes (fp : t_file)
  : outcome (list t_instantiation) :=
  let sb_range := get_gsb_range in
  match fp with
  | None => Exit1
  | Some out =>
      for_range 0 (get_x sb_range)
        (fun ix => for_range 0 (get_y sb_range)
           (fun iy out =>
              let rr_sb := get_gsb ix iy in
              dump_compact_verilog_defined_one_switch_box (Some out) rr_sb))
        out
  end.

(** [dump_compact_verilog_defined_one_connection_box] *)
Definition dump_compact_verilog_defined_one_connection_box
  (fp : t_file) (rr_gsb : RRGSB) (cb_type : t_rr_type)
  : outcome (list t_instantiation) :=
  match fp with
  | None => Exit1
  | Some out =>
      let coordinator := get_sb_coordinator rr_gsb in
      let unique_mirror := get_cb_unique_module cb_type coordinator in
      Ok (out ++ [{| inst_module_name := gen_cb_verilog_module_name unique_mirror cb_type;
                     inst_instance_name := gen_cb_verilog_instance_name rr_gsb cb_type |}])
  end.

(** Body of the walk through the GSBs. *)
Definition connection_boxes_body (ix iy : Z) (out : list t_instantiation)
  : outcome (list t_instantiation) :=
  let rr_gsb := get_gsb ix iy in
  let cbx_coordinator := get_cb_coordinator rr_gsb CHANX in
  out ← (if is_cb_exist CHANX (get_x cbx_coordinator) (get_y cbx_coordinator)
            && rr_gsb_is_cb_exist rr_gsb CHANX
         then dump_compact_verilog_defined_one_connection_box (Some out) rr_gsb CHANX
         else Ok out);
  let cby_coordinator := get_cb_coordinator rr_gsb CHANY in
  if is_cb_exist CHANY (get_x cby_coordinator) (get_y cby_coordinator)
     && rr_gsb_is_cb_exist rr_gsb CHANY
  then dump_compact_verilog_defined_one_connection_box (Some out) rr_gsb CHANY
  else Ok out.

(** [dump_compact_verilog_defined_connection_boxes] *)
Definition dump_compact_verilog_defined_connection_boxes (fp : t_file)
  : outcome (list t_instantiation) :=
  let sb_range := get_gsb_range in
  match fp with
  | None => Exit1
  | Some out =>
      for_range 0 (get_x sb_range)
        (fun ix => for_range 0 (get_y sb_range) (connection_boxes_body ix))
        out
  end.

(** *** The instantiations, as the specification words them *)

(** The GSB coordinates, each one once. *)
Definition gsb_coordinates : list (Z * Z) :=
  ix ← seqZ 0 (get_x get_gsb_range); iy ← seqZ 0 (get_y get_gsb_range); [(ix, iy)].

(** The switch block at a coordinate instantiates its representative
    under its own instance name. *)
Definition sb_instantiation (c : Z * Z) : t_instantiation :=
  let rr_sb := get_gsb c.1 c.2 in
  {| inst_module_name :=
       gen_sb_verilog_module_name (get_sb_unique_module (get_sb_coordinator rr_sb));
     inst_instance_name := gen_sb_verilog_instance_name rr_sb |}.

Definition cb_instantiation (cb_type : t_rr_type) (c : Z * Z) : t_instantiation :=
  let rr_gsb := get_gsb c.1 c.2 in
  {| inst_module_name :=
       gen_cb_verilog_module_name
         (get_cb_unique_module cb_type (get_sb_coordinator rr_gsb)) cb_type;
     inst_instance_name := gen_cb_verilog_instance_name rr_gsb cb_type |}.

(** Both existence tests for a connection block of a GSB. *)
Definition cb_exists (cb_type : t_rr_type) (c : Z * Z) : bool :=
  let rr_gsb := get_gsb c.1 c.2 in
  let cb_coordinator := get_cb_coordinator rr_gsb cb_type in
  is_cb_exist cb_type (get_x cb_coordinator) (get_y cb_coordinator)
  && rr_gsb_is_cb_exist rr_gsb cb_type.

Definition cb_instantiations_at (c : Z * Z) : list t_instantiation :=
  (if cb_exists CHANX c then [cb_instantiation CHANX c] else [])
  ++ (if cb_exists CHANY c then [cb_instantiation CHANY c] else []).

End TopNetlist.

(** *** Derived views of the pass *)

(** The visit of the tile at a coordinate, on the whole state and on the
    configuration-bit bookkeeping alone. *)
Definition grid_visit (dev : t_device) (c : Z * Z) (st : t_state) : outcome t_state :=
  update_grid_index dev c.1 c.2 st.

Definition sram_visit (dev : t_device) (c : Z * Z) (info : t_sram_orgz_info)
  : outcome t_sram_orgz_info :=
  compact_verilog_update_sram_orgz_info_grid_index
    info (type_descriptors dev (type (grid dev c.1 c.2))) c.1 c.2.

(** The three progress messages of a pass over a device that has tiles. *)
Definition progress_messages (dev : t_device) (st : t_state) : t_state :=
  vpr_printf TIO_MESSAGE_INFO "Generating IO grids...\n" []
    (vpr_printf TIO_MESSAGE_INFO "Generating core grids...\n" []
       (vpr_printf TIO_MESSAGE_INFO "Grid size of FPGA: nx=%d ny=%d\n"
          [nx dev + 1; ny dev + 1] st)).

(** *** The SPICE models along the pass *)

(** Number of I/O pads of the tile at a coordinate. *)
Definition tile_iopads (dev : t_device) (c : Z * Z) : Z :=
  let phy_block_type := type_descriptors dev (type (grid dev c.1 c.2)) in
  capacity phy_block_type * physical_mode_num_iopads (pb_type phy_block_type).

(** The models whose counter the pass moves: the two kinds of
    configuration memory and the I/O pads. *)
Definition is_stamped (ty : e_spice_model_type) : bool :=
  match ty with
  | SPICE_MODEL_SCFF | SPICE_MODEL_SRAM | SPICE_MODEL_IOPAD => true
  | _ => false
  end.

(** What the visit of a tile adds to the counter of a model of a type. *)
Definition model_tile_size (dev : t_device) (ty : e_spice_model_type) (c : Z * Z)
  : Z :=
  match ty with
  | SPICE_MODEL_SCFF | SPICE_MODEL_SRAM => tile_conf_bits dev c
  | SPICE_MODEL_IOPAD => tile_iopads dev c
  | _ => 0
  end.

Definition total_model_size (dev : t_device) (ty : e_spice_model_type)
  (l : list (Z * Z)) : Z :=
  foldr (fun c acc => model_tile_size dev ty c + acc) 0 l.

(** The visit of a tile, on one SPICE model. *)
Definition model_visit (dev : t_device) (c : Z * Z) (m : t_spice_model)
  : outcome t_spice_model :=
  update_one_spice_model (type_descriptors dev (type (grid dev c.1 c.2))) c.1 c.2 m.

(** Counters that start at or above 0 and, with the sizes of all the tiles
    of the sequence added, still fit in an [int]; sizes that are not
    negative. *)
Definition counters_fit (dev : t_device) (st : t_state) (l : list (Z * Z)) : bool :=
  (0 <=? num_mem_bit (sram_orgz_info st))
  && (num_mem_bit (sram_orgz_info st) + total_conf_bits dev l <=? INT_MAX)
  && forallb (fun m => (0 <=? cnt m)
                       && (cnt m + total_model_size dev (spice_model_type m) l
                           <=? INT_MAX))
             (spice_models st)
  && forallb (fun c => (0 <=? tile_conf_bits dev c) && (0 <=? tile_iopads dev c)) l.

(** [counters_fit], as a proposition. *)
Definition fits (dev : t_device) (st : t_state) (l : list (Z * Z)) : Prop :=
  0 <= num_mem_bit (sram_orgz_info st) /\
  num_mem_bit (sram_orgz_info st) + total_conf_bits dev l <= INT_MAX /\
  Forall (fun m => 0 <= cnt m /\
                   cnt m + total_model_size dev (spice_model_type m) l <= INT_MAX)
         (spice_models st) /\
  Forall (fun c => 0 <= tile_conf_bits dev c /\ 0 <= tile_iopads dev c) l.

(** ** The grids in the top-level netlist (verilog_compact_netlist.c) *)

(** One grid instantiation: the two names in front of the port list and
    the index ranges handed to the printers of the pad ports
    ([dump_verilog_grid_common_port]), of the reserved configuration ports
    ([dump_verilog_reserved_sram_ports], called for every grid), of the
    regular ones ([dump_verilog_sram_local_ports]) and of the ports under
    the formal-verification flag
    ([dump_verilog_formal_verification_sram_ports]); [None] when the
    printer is not called. *)
Record t_grid_instance : Type := {
  grid_inst_module_name : string;
  grid_inst_instance_name : string;
  grid_inst_iopad_ports : Z * Z;
  grid_inst_reserved_ports : Z * Z;
  grid_inst_regular_ports : option (Z * Z);
  grid_inst_formal_ports : option (Z * Z)
}.

(** Reading [a[ix][iy]].  The arrays are allocated outside the sources at
    hand; what an entry holds before it is first written is not known, and
    reading such an entry has no defined outcome here. *)
Definition read_entry (a : gmap (Z * Z) Z) (ix iy : Z) : outcome Z :=
  match a !! (ix, iy) with
  | Some v => Ok v
  | None => Undefined
  end.

Section DefinedGrids.
Variable grid_verilog_file_name_prefix : string.
Variable convert_side_index_to_string : Z -> string.
(** [gen_verilog_one_grid_instance_name] is declared in a header that is
    not part of the sources at hand. *)
Variable gen_verilog_one_grid_instance_name : Z -> Z -> string.

(** [dump_compact_verilog_defined_one_grid]; [iopad_verilog_model] is
    the global pointer to the SPICE model of the I/O pads.  Every tile of
    the grid has a type (the test [NULL == grid[ix][iy].type] fails).  The
    pins and the global ports are written by printers that are not part of
    the sources at hand. *)
Definition dump_compact_verilog_defined_one_grid (dev : t_device)
  (cur_sram_orgz_info : t_sram_orgz_info) (iopad_verilog_model : t_spice_model)
  (fp : option (list t_grid_instance)) (ix iy border_side : Z)
  : outcome (list t_grid_instance) :=
  match fp with
  | None => Exit1
  | Some out =>
      if bool_decide (EMPTY_TYPE = type (grid dev ix iy))
         || negb (0 =? offset (grid dev ix iy))
      then Ok out
      else
        subckt_name ← generate_compact_verilog_grid_module_name
                        grid_verilog_file_name_prefix
                        convert_side_index_to_string
                        dev (type (grid dev ix iy)) border_side;
        iopad_low ← read_entry (grid_index_low iopad_verilog_model) ix iy;
        iopad_high ← read_entry (grid_index_high iopad_verilog_model) ix iy;
        iopad_hi ← int_sub iopad_high 1;
        reserved ← read_entry (grid_reserved_conf_bits cur_sram_orgz_info) ix iy;
        reserved_hi ← int_sub reserved 1;
        msb ← read_entry (grid_conf_bits_msb cur_sram_orgz_info) ix iy;
        lsb ← read_entry (grid_conf_bits_lsb cur_sram_orgz_info) ix iy;
        width ← int_sub msb lsb;
        regular ← (if 0 <? width
                   then hi ← int_sub msb 1; Ok (Some (lsb, hi))
                   else Ok None);
        msb_1 ← int_sub msb 1;
        width_1 ← int_sub msb_1 lsb;
        let formal := if 0 <? width_1 then Some (lsb, msb_1) else None in
        Ok (out ++
              [{| grid_inst_module_name := subckt_name;
                  grid_inst_instance_name :=
                    gen_verilog_one_grid_instance_name ix iy;
                  grid_inst_iopad_ports := (iopad_low, iopad_hi);
                  grid_inst_reserved_ports := (0, reserved_hi);
                  grid_inst_regular_ports := regular;
                  grid_inst_formal_ports := formal |}])
  end.

(** Body of the loops over the core grids. *)
Definition defined_core_grid_body (dev : t_device)
  (cur_sram_orgz_info : t_sram_orgz_info) (iopad_verilog_model : t_spice_model)
  (ix iy : Z) (out : list t_grid_instance) : outcome (list t_grid_instance) :=
  if bool_decide (EMPTY_TYPE = type (grid dev ix iy)) then Ok out
  else
    _ ← c_assert (bool_decide (IO_TYPE <> type (grid dev ix iy)));
    dump_compact_verilog_defined_one_grid dev cur_sram_orgz_info
      iopad_verilog_model (Some out) ix iy (-1).

(** Body of the loop over the I/O grids of one border. *)
Definition defined_io_grid_body (dev : t_device)
  (cur_sram_orgz_info : t_sram_orgz_info) (iopad_verilog_model : t_spice_model)
  (border_side : Z) (ix iy : Z) (out : list t_grid_instance)
  : outcome (list t_grid_instance) :=
  if bool_decide (EMPTY_TYPE = type (grid dev ix iy)) then Ok out
  else
    _ ← c_assert (bool_decide (IO_TYPE = type (grid dev ix iy)));
    dump_compact_verilog_defined_one_grid dev cur_sram_orgz_info
      iopad_verilog_model (Some out) ix iy border_side.

(** [dump_compact_verilog_defined_grids] *)
Definition dump_compact_verilog_defined_grids (dev : t_device)
  (cur_sram_orgz_info : t_sram_orgz_info) (iopad_verilog_model : t_spice_model)
  (fp : option (list t_grid_instance)) : outcome (list t_grid_instance) :=
  match fp with
  | None => Exit1
  | Some out =>
      (* Normal Grids *)
      out ← for_range 1 (nx dev + 1)
              (fun ix => for_range 1 (ny dev + 1)
                 (fun iy => defined_core_grid_body dev cur_sram_orgz_info
                              iopad_verilog_model ix iy))
              out;
      (* TOP side *)
      out ← (let iy := ny dev + 1 in
             for_range 1 (nx dev + 1)
               (fun ix => defined_io_grid_body dev cur_sram_orgz_info
                            iopad_verilog_model 0 ix iy) out);
      (* RIGHT side *)
      out ← (let ix := nx dev + 1 in
             for_range 1 (ny dev + 1)
               (fun iy => defined_io_grid_body dev cur_sram_orgz_info
                            iopad_verilog_model 1 ix iy) out);
      (* BOTTOM side *)
      out ← (let iy := 0 in
             for_range 1 (nx dev + 1)
               (fun ix => defined_io_grid_body dev cur_sram_orgz_info
                            iopad_verilog_model 2 ix iy) out);
      (* LEFT side *)
      (let ix := 0 in
       for_range 1 (ny dev + 1)
         (fun iy => defined_io_grid_body dev cur_sram_orgz_info
                      iopad_verilog_model 3 ix iy) out)
  end.

(** The grid instantiation of a stamped tile, in closed form: [lsb] and
    [size] are the first regular bit and the number of regular bits of the
    tile, [pad] and [pads] its first pad and its number of pads. *)
Definition grid_instance (dev : t_device) (c : Z * Z) (border_side : Z)
  (lsb pad : Z) : t_grid_instance :=
  let ty := type (grid dev c.1 c.2) in
  let size := tile_conf_bits dev c in
  {| grid_inst_module_name :=
       (if bool_decide (IO_TYPE = ty)
        then grid_verilog_file_name_prefix
             +:+ convert_side_index_to_string border_side +:+ "_"
        else grid_verilog_file_name_prefix) +:+ name (type_descriptors dev ty);
     grid_inst_instance_name := gen_verilog_one_grid_instance_name c.1 c.2;
     grid_inst_iopad_ports := (pad, pad + tile_iopads dev c - 1);
     grid_inst_reserved_ports := (0, tile_reserved_conf_bits dev c - 1);
     grid_inst_regular_ports :=
       if 0 <? size then Some (lsb, lsb + size - 1) else None;
     grid_inst_formal_ports :=
       if 1 <? size then Some (lsb, lsb + size - 1) else None |}.

End DefinedGrids.

(** The bitstream order, each coordinate with the border side given to
    its grid: -1 inside the array, then 0, 1, 2, 3 for the top, right,
    bottom and left borders. *)
Definition bitstream_order_with_sides (dev : t_device) : list ((Z * Z) * Z) :=
  ((fun c => (c, -1)) <$>
     filter (fun c => is_visited_interior dev c = true) (interior_coordinates dev))
  ++ ((fun c => (c, 0)) <$> top_border dev)
  ++ ((fun c => (c, 1)) <$> right_border dev)
  ++ ((fun c => (c, 2)) <$> bottom_border dev)
  ++ ((fun c => (c, 3)) <$> left_border dev).

(** The types of all the tiles of a sequence are in range. *)
Definition tiles_in_range (dev : t_device) (l : list (Z * Z)) : bool :=
  forallb (fun c => block_type_in_range
                      (type_descriptors dev (type (grid dev c.1 c.2)))) l.

(** The I/O tiles of the ring are one tile high: their offset is 0. *)
Definition ring_offsets_zero (dev : t_device) : bool :=
  forallb (fun c => offset (grid dev c.1 c.2) =? 0) (io_ring dev).

(** ** Channels in the top-level netlist (verilog_compact_netlist.c) *)

Inductive e_direction : Type := INC_DIRECTION | DEC_DIRECTION | BI_DIRECTION.

Inductive e_port_type : Type := IN_PORT | OUT_PORT | INOUT_PORT | ERR_PORT.

(** The class [RRChan], the global [device_rr_chan] (rr_blocks.h), the
    routing node [t_rr_node] and the generators of the names of channels
    and of their pins are not part of the sources at hand: the members
    called by the netlist writer are an interface. *)
Class DeviceRRChan : Type := {
  RRChan : Type;
  t_rr_node : Type;
  (* t_rr_node *)
  direction : t_rr_node -> e_direction;
  (* RRChan *)
  get_type : RRChan -> t_rr_type;
  get_chan_width : RRChan -> Z;
  get_node : RRChan -> Z -> t_rr_node;
  (* DeviceRRChan *)
  get_module_with_coordinator : t_rr_type -> Z -> Z -> RRChan;
  get_module_id : t_rr_type -> Z -> Z -> Z;
  (* names *)
  convert_chan_type_to_string : t_rr_type -> string;
  gen_verilog_one_routing_channel_module_name : t_rr_type -> Z -> Z -> string;
  gen_verilog_one_routing_channel_instance_name : t_rr_type -> Z -> Z -> string;
  gen_verilog_routing_channel_one_pin_name
    : t_rr_node -> Z -> Z -> Z -> e_port_type -> string
}.

(** The formal port of a channel module that a connection names, when
    the mapping is explicit: [.in<itrack>], [.out<itrack>] or
    [.mid_out<itrack>]. *)
Inductive t_chan_formal : Type :=
| FORMAL_IN (itrack : Z)
| FORMAL_OUT (itrack : Z)
| FORMAL_MID_OUT (itrack : Z).

Record t_chan_connection : Type := {
  conn_formal : option t_chan_formal;
  conn_actual : string
}.

(** One channel instantiation: the two names printed in front of the
    port list and the three groups of connections, one per loop over the
    tracks.  Comments, separators and the global ports are left out. *)
Record t_chan_instance : Type := {
  chan_inst_module_name : string;
  chan_inst_instance_name : string;
  chan_inst_left_ports : list t_chan_connection;
  chan_inst_right_ports : list t_chan_connection;
  chan_inst_mid_outputs : list t_chan_connection
}.

Section DefinedChannels.
Context `{C : DeviceRRChan}.
Variable is_explicit_mapping : bool.
Variable dev : t_device.

(** Body of the loop over the LEFT/BOTTOM side ports. *)
Definition chan_left_port (rr_chan : RRChan) (x y : Z) (itrack : Z)
  (ports : list t_chan_connection) : outcome (list t_chan_connection) :=
  match direction (get_node rr_chan itrack) with
  | INC_DIRECTION =>
      Ok (ports ++
            [{| conn_formal :=
                  if is_explicit_mapping then Some (FORMAL_IN itrack) else None;
                conn_actual :=
                  gen_verilog_routing_channel_one_pin_name
                    (get_node rr_chan itrack) x y itrack OUT_PORT |}])
  | DEC_DIRECTION =>
      Ok (ports ++
            [{| conn_formal :=
                  if is_explicit_mapping then Some (FORMAL_OUT itrack) else None;
                conn_actual :=
                  gen_verilog_routing_channel_one_pin_name
                    (get_node rr_chan itrack) x y itrack IN_PORT |}])
  | _ => Exit1
  end.

(** Body of the loop over the RIGHT/TOP side ports. *)
Definition chan_right_port (rr_chan : RRChan) (x y : Z) (itrack : Z)
  (ports : list t_chan_connection) : outcome (list t_chan_connection) :=
  match direction (get_node rr_chan itrack) with
  | INC_DIRECTION =>
      Ok (ports ++
            [{| conn_formal :=
                  if is_explicit_mapping then Some (FORMAL_OUT itrack) else None;
                conn_actual :=
                  gen_verilog_routing_channel_one_pin_name
                    (get_node rr_chan itrack) x y itrack IN_PORT |}])
  | DEC_DIRECTION =>
      Ok (ports ++
            [{| conn_formal :=
                  if is_explicit_mapping then Some (FORMAL_IN itrack) else None;
                conn_actual :=
                  gen_verilog_routing_channel_one_pin_name
                    (get_node rr_chan itrack) x y itrack OUT_PORT |}])
  | _ => Exit1
  end.

(** Body of the loop over the outputs at the middle point. *)
Definition chan_mid_output (rr_chan : RRChan) (x y : Z) (itrack : Z)
  (ports : list t_chan_connection) : outcome (list t_chan_connection) :=
  Ok (ports ++
        [{| conn_formal :=
              if is_explicit_mapping then Some (FORMAL_MID_OUT itrack) else None;
            conn_actual :=
              convert_chan_type_to_string (get_type rr_chan)
              +:+ "_" +:+ pretty x +:+ "__" +:+ pretty y
              +:+ "__midout_" +:+ pretty itrack +:+ "_ " |}]).

(** [dump_compact_verilog_defined_one_channel] *)
Definition dump_compact_verilog_defined_one_channel
  (fp : option (list t_chan_instance)) (x y : Z) (rr_chan : RRChan)
  (subckt_id : Z) : outcome (list t_chan_instance) :=
  match fp with
  | None => Exit1
  | Some out =>
      (* check x *)
      _ ← c_assert (negb (0 >? x) && (x <? nx dev + 1));
      (* check y *)
      _ ← c_assert (negb (0 >? y) && (y <? ny dev + 1));
      _ ← match get_type rr_chan with
          | CHANX => Ok tt
          | CHANY => Ok tt
          | _ => Exit1
          end;
      left_ports ← for_range 0 (get_chan_width rr_chan)
                     (chan_left_port rr_chan x y) [];
      right_ports ← for_range 0 (get_chan_width rr_chan)
                      (chan_right_port rr_chan x y) [];
      mid_outputs ← for_range 0 (get_chan_width rr_chan)
                      (chan_mid_output rr_chan x y) [];
      Ok (out ++
            [{| chan_inst_module_name :=
                  gen_verilog_one_routing_channel_module_name
                    (get_type rr_chan) subckt_id (-1);
                chan_inst_instance_name :=
                  gen_verilog_one_routing_channel_instance_name
                    (get_type rr_chan) x y;
                chan_inst_left_ports := left_ports;
                chan_inst_right_ports := right_ports;
                chan_inst_mid_outputs := mid_outputs |}])
  end.

(** [dump_compact_verilog_defined_channels] *)
Definition dump_compact_verilog_defined_channels
  (fp : option (list t_chan_instance)) : outcome (list t_chan_instance) :=
  match fp with
  | None => Exit1
  | Some out =>
      (* Channel X *)
      out ← for_range 0 (ny dev + 1)
              (fun iy => for_range 1 (nx dev + 1)
                 (fun ix out =>
                    dump_compact_verilog_defined_one_channel (Some out) ix iy
                      (get_module_with_coordinator CHANX ix iy)
                      (get_module_id CHANX ix iy)))
              out;
      (* Channel Y *)
      for_range 0 (nx dev + 1)
        (fun ix => for_range 1 (ny dev + 1)
           (fun iy out =>
              dump_compact_verilog_defined_one_channel (Some out) ix iy
                (get_module_with_coordinator CHANY ix iy)
                (get_module_id CHANY ix iy)))
        out
  end.

(** *** The channel instantiations in closed form *)

(** A channel module that the writer accepts: a channel type, and no
    track without a direction. *)
Definition chan_is_valid (rr_chan : RRChan) : bool :=
  match get_type rr_chan with CHANX | CHANY => true | _ => false end
  && forallb (fun itrack =>
                match direction (get_node rr_chan itrack) with
                | INC_DIRECTION | DEC_DIRECTION => true
                | _ => false
                end)
             (seqZ 0 (get_chan_width rr_chan)).

(** The connection of a track on one side: the formal [in] with the pin
    that is an output of the neighbouring block, or the formal [out] with
    its input. *)
Definition chan_connection (rr_chan : RRChan) (x y : Z) (formal_is_in : bool)
  (itrack : Z) : t_chan_connection :=
  {| conn_formal :=
       if is_explicit_mapping
       then Some (if formal_is_in then FORMAL_IN itrack else FORMAL_OUT itrack)
       else None;
     conn_actual :=
       gen_verilog_routing_channel_one_pin_name (get_node rr_chan itrack)
         x y itrack (if formal_is_in then OUT_PORT else IN_PORT) |}.

Definition is_inc (rr_chan : RRChan) (itrack : Z) : bool :=
  match direction (get_node rr_chan itrack) with
  | INC_DIRECTION => true
  | _ => false
  end.

Definition chan_mid_connection (rr_chan : RRChan) (x y : Z) (itrack : Z)
  : t_chan_connection :=
  {| conn_formal :=
       if is_explicit_mapping then Some (FORMAL_MID_OUT itrack) else None;
     conn_actual :=
       convert_chan_type_to_string (get_type rr_chan)
       +:+ "_" +:+ pretty x +:+ "__" +:+ pretty y
       +:+ "__midout_" +:+ pretty itrack +:+ "_ " |}.

Definition chan_instance (x y : Z) (rr_chan : RRChan) (subckt_id : Z)
  : t_chan_instance :=
  let tracks := seqZ 0 (get_chan_width rr_chan) in
  {| chan_inst_module_name :=
       gen_verilog_one_routing_channel_module_name
         (get_type rr_chan) subckt_id (-1);
     chan_inst_instance_name :=
       gen_verilog_one_routing_channel_instance_name (get_type rr_chan) x y;
     chan_inst_left_ports :=
       (fun itrack => chan_connection rr_chan x y (is_inc rr_chan itrack) itrack)
         <$> tracks;
     chan_inst_right_ports :=
       (fun itrack =>
          chan_connection rr_chan x y (negb (is_inc rr_chan itrack)) itrack)
         <$> tracks;
     chan_inst_mid_outputs := chan_mid_connection rr_chan x y <$> tracks |}.

(** The coordinates of the X channels and of the Y channels, in the order
    of the loops. *)
Definition chanx_coordinates : list (Z * Z) :=
  iy ← seqZ 0 (ny dev + 1); ix ← seqZ 1 (nx dev); [(ix, iy)].

Definition chany_coordinates : list (Z * Z) :=
  ix ← seqZ 0 (nx dev + 1); iy ← seqZ 1 (ny dev); [(ix, iy)].

Definition chan_at (chan_type : t_rr_type) (c : Z * Z) : RRChan :=
  get_module_with_coordinator chan_type c.1 c.2.

Definition chan_instance_at (chan_type : t_rr_type) (c : Z * Z)
  : t_chan_instance :=
  chan_instance c.1 c.2 (chan_at chan_type c) (get_module_id chan_type c.1 c.2).

End DefinedChannels.

(** ** A small device

    Two columns and two rows: a column of logic blocks, a multiplier two
    tiles high, and the I/O ring. *)

Definition example_type_descriptors (t : t_type_ptr) : t_type_descriptor :=
  match t with
  | EMPTY_TYPE =>
      {| name := "<EMPTY>"; capacity := 0;
         pb_type := {| physical_mode_num_conf_bits := 0;
                       physical_mode_num_reserved_conf_bits := 0;
                       physical_mode_num_iopads := 0 |} |}
  | IO_TYPE =>
      {| name := "io"; capacity := 4;
         pb_type := {| physical_mode_num_conf_bits := 2;
                       physical_mode_num_reserved_conf_bits := 0;
                       physical_mode_num_iopads := 1 |} |}
  | FILL_TYPE =>
      {| name := "clb"; capacity := 1;
         pb_type := {| physical_mode_num_conf_bits := 100;
                       physical_mode_num_reserved_conf_bits := 3;
                       physical_mode_num_iopads := 0 |} |}
  | HETERO_TYPE _ =>
      {| name := "mult"; capacity := 1;
         pb_type := {| physical_mode_num_conf_bits := 20;
                       physical_mode_num_reserved_conf_bits := 0;
                       physical_mode_num_iopads := 0 |} |}
  end.

Definition example_grid (ix iy : Z) : t_grid_tile :=
  if bool_decide (1 <= ix <= 2 /\ 1 <= iy <= 2) then
    if ix =? 1 then {| type := FILL_TYPE; offset := 0 |}
    else {| type := HETERO_TYPE 0; offset := iy - 1 |}
  else if bool_decide ((1 <= ix <= 2 /\ (iy = 0 \/ iy = 3))
                       \/ (1 <= iy <= 2 /\ (ix = 0 \/ ix = 3)))
  then {| type := IO_TYPE; offset := 0 |}
  else {| type := EMPTY_TYPE; offset := 0 |}.

Definition example_device : t_device :=
  {| nx := 2; ny := 2; grid := example_grid;
     type_descriptors := example_type_descriptors |}.


(** A device without columns. *)
Definition example_device_no_column : t_device :=
  {| nx := 0; ny := 2; grid := example_grid;
     type_descriptors := example_type_descriptors |}.

Definition empty_sram_orgz_info : t_sram_orgz_info :=
  {| num_mem_bit := 0; num_bl := 0; num_wl := 0;
     grid_reserved_conf_bits := ∅;
     grid_conf_bits_lsb := ∅;
     grid_conf_bits_msb := ∅ |}.

Definition example_state : t_state :=
  {| sram_orgz_info := empty_sram_orgz_info;
     spice_models :=
       [ {| spice_model_type := SPICE_MODEL_SRAM; cnt := 0;
            grid_index_low := ∅; grid_index_high := ∅ |};
         {| spice_model_type := SPICE_MODEL_MUX; cnt := 0;
            grid_index_low := ∅; grid_index_high := ∅ |};
         {| spice_model_type := SPICE_MODEL_IOPAD; cnt := 0;
            grid_index_low := ∅; grid_index_high := ∅ |} ];
     messages := [] |}.

(** The state in which the pass leaves [example_state] on
    [example_device]. *)
Definition example_final_state : t_state :=
  Eval vm_compute in
    match compact_verilog_update_grid_spice_model_and_sram_orgz_info
            example_device example_state with
    | Ok st => st
    | _ => example_state
    end.

(** Channels of two tracks, the first going up and the second down;
    every channel is its own module. *)
#[local] Instance example_device_rr_chan : DeviceRRChan := {|
  RRChan := t_rr_type * (Z * Z);
  t_rr_node := e_direction;
  direction := fun d => d;
  get_type := fun c => c.1;
  get_chan_width := fun _ => 2;
  get_node := fun _ itrack => if itrack =? 0 then INC_DIRECTION else DEC_DIRECTION;
  get_module_with_coordinator := fun t x y => (t, (x, y));
  get_module_id := fun _ x y => x + 3 * y;
  convert_chan_type_to_string := fun t =>
    match t with CHANX => "chanx" | _ => "chany" end;
  gen_verilog_one_routing_channel_module_name := fun t id _ =>
    match t with CHANX => "chanx_" | _ => "chany_" end +:+ pretty id;
  gen_verilog_one_routing_channel_instance_name := fun t x y =>
    match t with CHANX => "chanx_" | _ => "chany_" end
    +:+ pretty x +:+ "__" +:+ pretty y;
  gen_verilog_routing_channel_one_pin_name := fun _ x y itrack port =>
    pretty x +:+ "_" +:+ pretty y +:+ "_"
    +:+ match port with OUT_PORT => "out_" | _ => "in_" end +:+ pretty itrack
|}.

(** A state whose counter already stands at 5, as after the routing
    resources took the first five bits. *)
Definition example_sram_orgz_info_at_5 : t_sram_orgz_info :=
  {| num_mem_bit := 5; num_bl := 5; num_wl := 5;
     grid_reserved_conf_bits := ∅;
     grid_conf_bits_lsb := ∅;
     grid_conf_bits_msb := ∅ |}.

(** A device of two by three GSBs whose connection blocks exist on the
    X channels of the first column only; every GSB of the first row is
    represented by the GSB at its origin. *)
Definition example_names (prefix : string) (c : DeviceCoordinator) : string :=
  prefix +:+ pretty (get_x c) +:+ "__" +:+ pretty (get_y c) +:+ "_".

#[local] Instance example_device_rr_gsb : DeviceRRGSB := {|
  RRGSB := DeviceCoordinator;
  get_gsb_range := {| get_x := 2; get_y := 3 |};
  get_gsb := fun ix iy => {| get_x := ix; get_y := iy |};
  get_sb_unique_module := fun c => {| get_x := 0; get_y := get_y c |};
  get_cb_unique_module := fun _ c => {| get_x := 0; get_y := 0 |};
  get_sb_coordinator := fun g => g;
  get_cb_coordinator := fun g _ => g;
  rr_gsb_is_cb_exist := fun g t =>
    match t with CHANX => bool_decide (get_x g = 0) | _ => false end;
  gen_sb_verilog_module_name := example_names "sb_";
  gen_sb_verilog_instance_name := example_names "sb_inst_";
  gen_cb_verilog_module_name := fun g t =>
    example_names (match t with CHANX => "cbx_" | _ => "cby_" end) g;
  gen_cb_verilog_instance_name := fun g t =>
    example_names (match t with CHANX => "cbx_inst_" | _ => "cby_inst_" end) g;
  is_cb_exist := fun t x y => bool_decide (0 <= x /\ 0 <= y)
|}.

(* ===================================================================== *)
(** * Part II: properties                                                  *)
(* ===================================================================== *)

(** ** Arithmetic of [size_t] *)

Lemma SIZE_MOD_eq : SIZE_MOD = 18446744073709551616.
Proof. reflexivity. Qed.

Lemma SIZE_MAX_eq : SIZE_MAX = 18446744073709551615.
Proof. reflexivity. Qed.

Lemma wrap_small z : 0 <= z <= SIZE_MAX -> wrap z = z.
Proof.
  intros Hz. unfold wrap. apply Z.mod_small.
  rewrite SIZE_MAX_eq in Hz. rewrite SIZE_MOD_eq. lia.
Qed.

Lemma wrap_SIZE_MOD : wrap SIZE_MOD = 0.
Proof. reflexivity. Qed.

Ltac size_t_norm :=
  unfold is_size_t, SIZE_MIN in *;
  rewrite ?SIZE_MAX_eq in *.

(** ** [BasicPort] *)

Section BasicPortFacts.
Import BasicPort.

Lemma is_valid_spec p : is_valid p = true <-> lsb_ p <= msb_ p.
Proof.
  unfold is_valid. destruct (Z.ltb_spec (msb_ p) (lsb_ p)); split; intros; try lia; congruence.
Qed.

Lemma is_valid_false p : is_valid p = false <-> msb_ p < lsb_ p.
Proof.
  unfold is_valid. destruct (Z.ltb_spec (msb_ p) (lsb_ p)); split; intros; try lia; congruence.
Qed.

Lemma get_width_valid p :
  wf p -> lsb_ p <= msb_ p -> get_width p = wrap (msb_ p - lsb_ p + 1).
Proof.
  intros _ Hle. unfold get_width.
  apply is_valid_spec in Hle. now rewrite Hle.
Qed.

Lemma get_width_exact p :
  wf p -> lsb_ p <= msb_ p -> ~ (lsb_ p = 0 /\ msb_ p = SIZE_MAX) ->
  get_width p = msb_ p - lsb_ p + 1.
Proof.
  intros [Hl Hm] Hle Hfull. rewrite get_width_valid by (try split; assumption).
  apply wrap_small. size_t_norm. lia.
Qed.

Lemma get_width_invalid p : msb_ p < lsb_ p -> get_width p = 0.
Proof.
  intros Hlt. unfold get_width. apply is_valid_false in Hlt. now rewrite Hlt.
Qed.

Lemma get_width_full_range : get_width full_range = 0.
Proof. reflexivity. Qed.

(** A port has a nonzero width exactly when it is valid and does not span
    the whole of [size_t]. *)
Lemma get_width_nonzero p :
  wf p ->
  get_width p <> 0 <-> (lsb_ p <= msb_ p /\ ~ (lsb_ p = 0 /\ msb_ p = SIZE_MAX)).
Proof.
  intros Hwf. split.
  - intros Hw. destruct (Z.le_gt_cases (lsb_ p) (msb_ p)) as [Hle|Hgt].
    + split; [assumption|]. intros [H0 HM]. apply Hw.
      rewrite get_width_valid by assumption. rewrite H0, HM.
      replace (SIZE_MAX - 0 + 1) with SIZE_MOD by (unfold SIZE_MAX; lia).
      apply wrap_SIZE_MOD.
    + exfalso. apply Hw. apply get_width_invalid. lia.
  - intros [Hle Hfull]. rewrite get_width_exact by assumption. lia.
Qed.

Lemma get_width_range p : wf p -> 0 <= get_width p <= SIZE_MAX.
Proof.
  intros Hwf. unfold get_width. destruct (is_valid p).
  - unfold wrap. pose proof (Z.mod_pos_bound (msb_ p - lsb_ p + 1) SIZE_MOD) as H.
    rewrite SIZE_MOD_eq in *. rewrite SIZE_MAX_eq. lia.
  - rewrite SIZE_MAX_eq. lia.
Qed.

End BasicPortFacts.

(** ** Claims on [BasicPort] *)

Section BasicPortClaims.
Import BasicPort.

Lemma rotate_nop offset p :
  offset = 0 \/ get_width p = 0 -> rotate offset p = (true, p).
Proof.
  intros H. unfold rotate.
  destruct H as [-> | ->]; [reflexivity|].
  now rewrite orb_true_r.
Qed.

Lemma counter_rotate_nop offset p :
  offset = 0 \/ get_width p = 0 -> counter_rotate offset p = (true, p).
Proof.
  intros H. unfold counter_rotate.
  destruct H as [-> | ->]; [reflexivity|].
  now rewrite orb_true_r.
Qed.

Lemma rotate_guard_false offset p :
  offset <> 0 -> get_width p <> 0 ->
  (0 =? offset) || (0 =? get_width p) = false.
Proof.
  intros Ho Hw. apply orb_false_iff. split; apply Z.eqb_neq; lia.
Qed.

(** What [rotate] does on a port of nonzero width. *)
Lemma rotate_nonzero offset p :
  wf p -> is_size_t offset -> offset <> 0 -> get_width p <> 0 ->
  rotate offset p =
    if SIZE_MAX - msb_ p <? offset then (false, p)
    else (true, {| msb_ := msb_ p + offset; lsb_ := lsb_ p + offset |}).
Proof.
  intros Hwf Ho Hne Hw. unfold rotate.
  rewrite rotate_guard_false by assumption.
  apply get_width_nonzero in Hw; [|assumption]. destruct Hw as [Hle _].
  destruct Hwf as [Hl Hm].
  rewrite (wrap_small (SIZE_MAX - msb_ p)) by (size_t_norm; lia).
  destruct (Z.ltb_spec (SIZE_MAX - msb_ p) offset); [reflexivity|].
  rewrite !wrap_small by (size_t_norm; lia). reflexivity.
Qed.

(** What [counter_rotate] does on a port of nonzero width. *)
Lemma counter_rotate_nonzero offset p :
  wf p -> is_size_t offset -> offset <> 0 -> get_width p <> 0 ->
  counter_rotate offset p =
    if lsb_ p <? offset then (false, p)
    else (true, {| msb_ := msb_ p - offset; lsb_ := lsb_ p - offset |}).
Proof.
  intros Hwf Ho Hne Hw. unfold counter_rotate.
  rewrite rotate_guard_false by assumption.
  apply get_width_nonzero in Hw; [|assumption]. destruct Hw as [Hle _].
  destruct Hwf as [Hl Hm].
  rewrite (wrap_small (SIZE_MIN + lsb_ p)) by (size_t_norm; lia).
  replace (SIZE_MIN + lsb_ p) with (lsb_ p) by (unfold SIZE_MIN; lia).
  destruct (Z.ltb_spec (lsb_ p) offset); [reflexivity|].
  rewrite !wrap_small by (size_t_norm; lia). reflexivity.
Qed.

(** The width is a function of [msb - lsb] alone, so shifting both ends
    by the same amount preserves it. *)
Lemma get_width_shift p d :
  lsb_ p <= msb_ p ->
  get_width {| msb_ := msb_ p + d; lsb_ := lsb_ p + d |} = get_width p.
Proof.
  intros Hle. unfold get_width.
  assert (H1 : is_valid p = true) by (apply is_valid_spec; assumption).
  assert (H2 : is_valid {| msb_ := msb_ p + d; lsb_ := lsb_ p + d |} = true)
    by (apply is_valid_spec; simpl; lia).
  rewrite H1, H2. simpl. f_equal. lia.
Qed.




(** C9.  For every port with [lsb <= msb] and every offset, if
    [rotate(offset)] returns true then [counter_rotate(offset)] on the
    rotated port returns true and gives back the original port; and with
    offset 0, or on an invalid (zero-width) port, both return true and
    leave the port as it is. *)
Theorem rotate_counter_rotate_inverse (p : t) (offset : Z) :
  wf p -> is_size_t offset ->
  (lsb_ p <= msb_ p ->
   fst (rotate offset p) = true ->
   counter_rotate offset (snd (rotate offset p)) = (true, p)) /\
  (offset = 0 \/ msb_ p < lsb_ p \/ get_width p = 0 ->
   rotate offset p = (true, p) /\ counter_rotate offset p = (true, p)).
Proof.
  intros Hwf Ho. split.
  - intros Hle Hret.
    destruct (Z.eq_dec offset 0) as [H0|H0];
      [rewrite rotate_nop by auto; simpl; apply counter_rotate_nop; auto|].
    destruct (Z.eq_dec (get_width p) 0) as [Hw|Hw];
      [rewrite rotate_nop by auto; simpl; apply counter_rotate_nop; auto|].
    rewrite rotate_nonzero in Hret |- * by assumption.
    destruct (Z.ltb_spec (SIZE_MAX - msb_ p) offset) as [Hlt|Hge];
      [simpl in Hret; discriminate|]. simpl.
    destruct Hwf as [Hl Hm].
    rewrite counter_rotate_nonzero.
    + simpl. destruct (Z.ltb_spec (lsb_ p + offset) offset) as [Hlt|_];
        [size_t_norm; lia|].
      destruct p as [m l]; simpl. f_equal. f_equal; lia.
    + split; simpl; size_t_norm; lia.
    + assumption.
    + assumption.
    + rewrite get_width_shift by assumption. assumption.
  - intros H.
    assert (H' : offset = 0 \/ get_width p = 0).
    { destruct H as [H|[H|H]]; auto. right. now apply get_width_invalid. }
    split; [apply rotate_nop | apply counter_rotate_nop]; assumption.
Qed.

Lemma rotate_counter_rotate_inverse_witness :
  wf {| msb_ := 7; lsb_ := 4 |} /\ is_size_t 3 /\
  rotate 3 {| msb_ := 7; lsb_ := 4 |} = (true, {| msb_ := 10; lsb_ := 7 |}) /\
  counter_rotate 3 (snd (rotate 3 {| msb_ := 7; lsb_ := 4 |}))
  = (true, {| msb_ := 7; lsb_ := 4 |}).
Proof.
  assert (Hwf : wf {| msb_ := 7; lsb_ := 4 |}).
  { unfold wf, is_size_t; simpl; rewrite SIZE_MAX_eq; lia. }
  assert (Ho : is_size_t 3) by (unfold is_size_t; rewrite SIZE_MAX_eq; lia).
  split; [exact Hwf|]. split; [exact Ho|]. split; [reflexivity|].
  apply (rotate_counter_rotate_inverse {| msb_ := 7; lsb_ := 4 |} 3 Hwf Ho).
  - simpl; lia.
  - reflexivity.
Defined.




End BasicPortClaims.

(** ** Outcomes and loops *)

Section OutcomeFacts.
Context {S I : Type}.

Lemma bind_Ok_inv {A B : Type} (m : outcome A) (f : A -> outcome B) (b : B) :
  m ≫= f = Ok b -> exists a, m = Ok a /\ f a = Ok b.
Proof. destruct m; simpl; intros H; try discriminate. eauto. Qed.

Lemma bind_assoc {A B C : Type} (m : outcome A) (f : A -> outcome B)
  (g : B -> outcome C) :
  (m ≫= f) ≫= g = m ≫= (fun a => f a ≫= g).
Proof. destruct m; reflexivity. Qed.

Lemma bind_Ok_r {A : Type} (m : outcome A) : m ≫= Ok = m.
Proof. destruct m; reflexivity. Qed.

Lemma bind_ext {A B : Type} (m : outcome A) (f g : A -> outcome B) :
  (forall a, f a = g a) -> m ≫= f = m ≫= g.
Proof. intros H. destruct m; simpl; auto. Qed.

Lemma foldM_app (body : I -> S -> outcome S) (l1 l2 : list I) (s : S) :
  foldM body (l1 ++ l2) s = foldM body l1 s ≫= foldM body l2.
Proof.
  revert s. induction l1 as [|i l1 IH]; intros s; simpl; [reflexivity|].
  rewrite bind_assoc. apply bind_ext. intros a. apply IH.
Qed.

Lemma foldM_ext (body body' : I -> S -> outcome S) (l : list I) (s : S) :
  (forall i s, i ∈ l -> body i s = body' i s) ->
  foldM body l s = foldM body' l s.
Proof.
  revert s. induction l as [|i l IH]; intros s H; simpl; [reflexivity|].
  rewrite (H i s) by (left). apply bind_ext. intros a. apply IH.
  intros j t Hj. apply H. now right.
Qed.

Lemma foldM_fmap {J : Type} (f : J -> I) (body : I -> S -> outcome S)
  (l : list J) (s : S) :
  foldM body (f <$> l) s = foldM (fun j => body (f j)) l s.
Proof.
  revert s. induction l as [|j l IH]; intros s; simpl; [reflexivity|].
  apply bind_ext. intros a. apply IH.
Qed.

(** A loop whose body first asserts [P], then skips or visits. *)
Lemma foldM_guarded (P : I -> bool) (visited : I -> bool)
  (visit : I -> S -> outcome S) (l : list I) (s : S) :
  (forall i, i ∈ l -> P i = true) ->
  foldM (fun i s => _ ← c_assert (P i); if visited i then visit i s else Ok s) l s
  = foldM visit (filter (fun i => visited i = true) l) s.
Proof.
  revert s. induction l as [|i l IH]; intros s HP; [reflexivity|].
  simpl. rewrite (HP i) by left. simpl.
  destruct (visited i) eqn:Hv.
  - rewrite filter_cons_True by assumption. simpl.
    apply bind_ext. intros a. apply IH. intros j Hj. apply HP. now right.
  - rewrite filter_cons_False by congruence. simpl.
    apply IH. intros j Hj. apply HP. now right.
Qed.

(** A loop that returns has passed the assertion at every index. *)
Lemma foldM_assert_inv (P : I -> bool) (k : I -> S -> outcome S)
  (l : list I) (s s' : S) :
  foldM (fun i s => _ ← c_assert (P i); k i s) l s = Ok s' ->
  forall i, i ∈ l -> P i = true.
Proof.
  revert s. induction l as [|i l IH]; intros s H j Hj;
    [now apply elem_of_nil in Hj|].
  simpl in H. apply bind_Ok_inv in H. destruct H as (s1 & H1 & H2).
  apply bind_Ok_inv in H1. destruct H1 as ([] & Ha & _).
  apply elem_of_cons in Hj. destruct Hj as [-> | Hj].
  - unfold c_assert in Ha. destruct (P i); [reflexivity | discriminate].
  - eapply IH; eassumption.
Qed.

End OutcomeFacts.

(** Two nested loops run their body on the pairs of indices, the outer
    index varying slowest. *)
Lemma foldM_nested {S I J : Type} (body : I -> J -> S -> outcome S)
  (l : list I) (k : list J) (s : S) :
  foldM (fun i => foldM (body i) k) l s
  = foldM (fun c : I * J => body c.1 c.2) (i ← l; j ← k; [(i, j)]) s.
Proof.
  revert s. induction l as [|i l IH]; intros s; [reflexivity|].
  change ((i :: l) ≫= (fun i => k ≫= (fun j => [(i, j)])))
    with ((k ≫= (fun j => [(i, j)])) ++ (l ≫= (fun i => k ≫= (fun j => [(i, j)])))).
  rewrite foldM_app. simpl.
  assert (Hin : forall s, foldM (body i) k s
             = foldM (fun c : I * J => body c.1 c.2) (k ≫= (fun j => [(i, j)])) s).
  { clear. induction k as [|j k IHk]; intros s; [reflexivity|].
    simpl. apply bind_ext. intros a. apply IHk. }
  rewrite Hin. apply bind_ext. intros a. apply IH.
Qed.

Lemma foldM_asserted {S I : Type} (P : I -> bool) (k : I -> S -> outcome S)
  (l : list I) (s : S) :
  (forall i, i ∈ l -> P i = true) ->
  foldM (fun i s => _ ← c_assert (P i); k i s) l s = foldM k l s.
Proof.
  intros HP. apply foldM_ext. intros i t Hi. now rewrite (HP i Hi).
Qed.

(** ** Checked [int] arithmetic *)

Lemma int_checked_Ok z v : int_checked z = Ok v -> v = z /\ is_int z.
Proof.
  unfold int_checked, is_int.
  destruct (Z.leb_spec INT_MIN z), (Z.leb_spec z INT_MAX); simpl;
    intros Heq; inversion Heq; subst; split; try reflexivity; lia.
Qed.

Lemma int_checked_is_int z : is_int z -> int_checked z = Ok z.
Proof.
  unfold int_checked, is_int. intros [H1 H2].
  destruct (Z.leb_spec INT_MIN z), (Z.leb_spec z INT_MAX); simpl;
    try reflexivity; lia.
Qed.

(** ** One visit *)

Section VisitFacts.

(** What a returning call of
    [compact_verilog_update_sram_orgz_info_grid_index] has written. *)
Lemma update_sram_orgz_info_Ok info phy x y info' :
  compact_verilog_update_sram_orgz_info_grid_index info phy x y = Ok info' ->
  let w := capacity phy * physical_mode_num_conf_bits (pb_type phy) in
  is_int w /\ is_int (num_mem_bit info + w) /\
  num_mem_bit info' = num_mem_bit info + w /\
  grid_conf_bits_lsb info'
    = <[(x, y) := num_mem_bit info]> (grid_conf_bits_lsb info) /\
  grid_conf_bits_msb info'
    = <[(x, y) := num_mem_bit info + w]> (grid_conf_bits_msb info) /\
  grid_reserved_conf_bits info'
    = <[(x, y) := physical_mode_num_reserved_conf_bits (pb_type phy)]>
        (grid_reserved_conf_bits info).
Proof.
  unfold compact_verilog_update_sram_orgz_info_grid_index,
    get_sram_orgz_info_num_blwl, get_sram_orgz_info_num_mem_bit.
  intros H. apply bind_Ok_inv in H. destruct H as (w & Hw & H).
  apply bind_Ok_inv in H. destruct H as (m & Hm & H).
  apply int_checked_Ok in Hw. destruct Hw as [-> Hw].
  apply int_checked_Ok in Hm. destruct Hm as [-> Hm].
  inversion H; subst; clear H. simpl. repeat split; apply Hw || apply Hm.
Qed.

Lemma update_sram_orgz_info_total info phy x y :
  is_int (capacity phy * physical_mode_num_conf_bits (pb_type phy)) ->
  is_int (num_mem_bit info
          + capacity phy * physical_mode_num_conf_bits (pb_type phy)) ->
  exists info',
    compact_verilog_update_sram_orgz_info_grid_index info phy x y = Ok info'.
Proof.
  intros Hw Hm.
  unfold compact_verilog_update_sram_orgz_info_grid_index,
    get_sram_orgz_info_num_blwl, get_sram_orgz_info_num_mem_bit, int_mul, int_add.
  rewrite (int_checked_is_int _ Hw). simpl.
  rewrite (int_checked_is_int _ Hm). simpl. eauto.
Qed.

Lemma grid_visit_Ok dev c st st' :
  grid_visit dev c st = Ok st' ->
  sram_visit dev c (sram_orgz_info st) = Ok (sram_orgz_info st') /\
  messages st' = messages st.
Proof.
  unfold grid_visit, update_grid_index, sram_visit. intros H.
  apply bind_Ok_inv in H. destruct H as (ms & _ & H).
  apply bind_Ok_inv in H. destruct H as (info & Hinfo & H).
  inversion H; subst; clear H. simpl. auto.
Qed.

(** A visit neither reads nor writes the messages. *)
Lemma grid_visit_vpr_printf dev c ty text args st :
  grid_visit dev c (vpr_printf ty text args st)
  = grid_visit dev c st ≫= (fun s => Ok (vpr_printf ty text args s)).
Proof.
  unfold grid_visit, update_grid_index. simpl.
  destruct (compact_verilog_update_one_spice_model_grid_index _ _ _ _);
    simpl; try reflexivity.
  destruct (compact_verilog_update_sram_orgz_info_grid_index _ _ _ _);
    reflexivity.
Qed.

Lemma foldM_grid_visit_vpr_printf dev l ty text args st :
  foldM (grid_visit dev) l (vpr_printf ty text args st)
  = foldM (grid_visit dev) l st ≫= (fun s => Ok (vpr_printf ty text args s)).
Proof.
  revert st. induction l as [|c l IH]; intros st; simpl; [reflexivity|].
  rewrite grid_visit_vpr_printf, !bind_assoc.
  apply bind_ext. intros s. simpl. apply IH.
Qed.

Lemma foldM_grid_visit_Ok dev l st st' :
  foldM (grid_visit dev) l st = Ok st' ->
  foldM (sram_visit dev) l (sram_orgz_info st) = Ok (sram_orgz_info st') /\
  messages st' = messages st.
Proof.
  revert st. induction l as [|c l IH]; intros st H; simpl in *.
  - inversion H; subst; auto.
  - apply bind_Ok_inv in H. destruct H as (s1 & H1 & H2).
    apply grid_visit_Ok in H1. destruct H1 as [H1 Hm1].
    apply IH in H2. destruct H2 as [H2 Hm2].
    rewrite H1. simpl. split; [assumption | congruence].
Qed.

End VisitFacts.

(** ** The bookkeeping along a sequence of visits *)

Section SramFold.
Variable dev : t_device.

Lemma total_conf_bits_app l1 l2 :
  total_conf_bits dev (l1 ++ l2) = total_conf_bits dev l1 + total_conf_bits dev l2.
Proof.
  induction l1 as [|c l1 IH]; simpl; [lia|].
  unfold total_conf_bits in *. simpl. rewrite IH. lia.
Qed.

Lemma total_conf_bits_cons c l :
  total_conf_bits dev (c :: l) = tile_conf_bits dev c + total_conf_bits dev l.
Proof. reflexivity. Qed.

Lemma total_conf_bits_nonneg l :
  Forall (fun c => 0 <= tile_conf_bits dev c) l -> 0 <= total_conf_bits dev l.
Proof.
  induction 1 as [|c l Hc _ IH]; [unfold total_conf_bits; simpl; lia|].
  rewrite total_conf_bits_cons. lia.
Qed.

Lemma sram_visit_Ok c info info' :
  sram_visit dev c info = Ok info' ->
  is_int (tile_conf_bits dev c) /\
  is_int (num_mem_bit info + tile_conf_bits dev c) /\
  num_mem_bit info' = num_mem_bit info + tile_conf_bits dev c /\
  grid_conf_bits_lsb info' = <[c := num_mem_bit info]> (grid_conf_bits_lsb info) /\
  grid_conf_bits_msb info'
    = <[c := num_mem_bit info + tile_conf_bits dev c]> (grid_conf_bits_msb info) /\
  grid_reserved_conf_bits info'
    = <[c := tile_reserved_conf_bits dev c]> (grid_reserved_conf_bits info).
Proof.
  unfold sram_visit. intros H. apply update_sram_orgz_info_Ok in H.
  destruct c as [x y]. exact H.
Qed.

(** The counter after a sequence of visits. *)
Lemma sram_fold_counter l info info' :
  foldM (sram_visit dev) l info = Ok info' ->
  num_mem_bit info' = num_mem_bit info + total_conf_bits dev l.
Proof.
  revert info. induction l as [|c l IH]; intros info H; simpl in H.
  - inversion H; subst. unfold total_conf_bits; simpl; lia.
  - apply bind_Ok_inv in H. destruct H as (i1 & H1 & H2).
    apply sram_visit_Ok in H1. destruct H1 as (_ & _ & Hc & _).
    apply IH in H2. rewrite total_conf_bits_cons. lia.
Qed.

(** The entries of the tiles that are not visited stay as they are. *)
Lemma sram_fold_untouched l info info' c :
  foldM (sram_visit dev) l info = Ok info' -> c ∉ l ->
  grid_conf_bits_lsb info' !! c = grid_conf_bits_lsb info !! c /\
  grid_conf_bits_msb info' !! c = grid_conf_bits_msb info !! c /\
  grid_reserved_conf_bits info' !! c = grid_reserved_conf_bits info !! c.
Proof.
  revert info. induction l as [|d l IH]; intros info H Hc; simpl in H.
  - inversion H; subst; auto.
  - apply bind_Ok_inv in H. destruct H as (i1 & H1 & H2).
    apply sram_visit_Ok in H1. destruct H1 as (_ & _ & _ & Hl & Hm & Hr).
    apply not_elem_of_cons in Hc. destruct Hc as [Hne Hc].
    destruct (IH _ H2 Hc) as (El & Em & Er).
    rewrite El, Em, Er, Hl, Hm, Hr.
    rewrite !lookup_insert_ne by congruence. auto.
Qed.

(** The entries of a tile that is visited once. *)
Lemma sram_fold_split l1 c l2 info info' :
  foldM (sram_visit dev) (l1 ++ c :: l2) info = Ok info' -> c ∉ l2 ->
  grid_conf_bits_lsb info' !! c
    = Some (num_mem_bit info + total_conf_bits dev l1) /\
  grid_conf_bits_msb info' !! c
    = Some (num_mem_bit info + total_conf_bits dev l1 + tile_conf_bits dev c) /\
  grid_reserved_conf_bits info' !! c = Some (tile_reserved_conf_bits dev c).
Proof.
  intros H Hc. rewrite foldM_app in H.
  apply bind_Ok_inv in H. destruct H as (i1 & H1 & H2).
  simpl in H2. apply bind_Ok_inv in H2. destruct H2 as (i2 & H2 & H3).
  apply sram_fold_counter in H1.
  apply sram_visit_Ok in H2. destruct H2 as (_ & _ & _ & Hl & Hm & Hr).
  destruct (sram_fold_untouched _ _ _ _ H3 Hc) as (El & Em & Er).
  rewrite El, Em, Er, Hl, Hm, Hr, !lookup_insert_eq, H1. auto.
Qed.


End SramFold.

(** ** The coordinates of the traversal *)

Section Coordinates.
Variable dev : t_device.

Lemma elem_of_interior_coordinates c :
  c ∈ interior_coordinates dev <->
  1 <= c.1 <= nx dev /\ 1 <= c.2 <= ny dev.
Proof.
  unfold interior_coordinates. rewrite list_elem_of_bind. split.
  - intros (ix & Hc & Hix). apply list_elem_of_bind in Hc.
    destruct Hc as (iy & Hc & Hiy). apply list_elem_of_singleton in Hc.
    subst c. simpl. apply elem_of_seqZ in Hix, Hiy. lia.
  - intros [Hx Hy]. exists c.1. split; [|apply elem_of_seqZ; lia].
    apply list_elem_of_bind. exists c.2. split; [|apply elem_of_seqZ; lia].
    apply list_elem_of_singleton. now destruct c.
Qed.

Lemma elem_of_top_border c :
  c ∈ top_border dev <-> 1 <= c.1 <= nx dev /\ c.2 = ny dev + 1.
Proof.
  unfold top_border. rewrite list_elem_of_fmap. split.
  - intros (ix & -> & Hix). apply elem_of_seqZ in Hix. simpl. lia.
  - intros [Hx Hy]. exists c.1. split; [destruct c; simpl in *; congruence|].
    apply elem_of_seqZ. lia.
Qed.

Lemma elem_of_right_border c :
  c ∈ right_border dev <-> c.1 = nx dev + 1 /\ 1 <= c.2 <= ny dev.
Proof.
  unfold right_border. rewrite list_elem_of_fmap. split.
  - intros (iy & -> & Hiy). apply elem_of_seqZ in Hiy. simpl. lia.
  - intros [Hx Hy]. exists c.2. split; [destruct c; simpl in *; congruence|].
    apply elem_of_seqZ. lia.
Qed.

Lemma elem_of_bottom_border c :
  c ∈ bottom_border dev <-> 1 <= c.1 <= nx dev /\ c.2 = 0.
Proof.
  unfold bottom_border. rewrite list_elem_of_fmap. split.
  - intros (ix & -> & Hix). apply elem_of_seqZ in Hix. simpl. lia.
  - intros [Hx Hy]. exists c.1. split; [destruct c; simpl in *; congruence|].
    apply elem_of_seqZ. lia.
Qed.

Lemma elem_of_left_border c :
  c ∈ left_border dev <-> c.1 = 0 /\ 1 <= c.2 <= ny dev.
Proof.
  unfold left_border. rewrite list_elem_of_fmap. split.
  - intros (iy & -> & Hiy). apply elem_of_seqZ in Hiy. simpl. lia.
  - intros [Hx Hy]. exists c.2. split; [destruct c; simpl in *; congruence|].
    apply elem_of_seqZ. lia.
Qed.

Lemma elem_of_io_ring c :
  c ∈ io_ring dev <->
  (1 <= c.1 <= nx dev /\ c.2 = ny dev + 1) \/
  (c.1 = nx dev + 1 /\ 1 <= c.2 <= ny dev) \/
  (1 <= c.1 <= nx dev /\ c.2 = 0) \/
  (c.1 = 0 /\ 1 <= c.2 <= ny dev).
Proof.
  unfold io_ring. rewrite !elem_of_app, elem_of_top_border,
    elem_of_right_border, elem_of_bottom_border, elem_of_left_border.
  tauto.
Qed.

Lemma NoDup_interior_coordinates : NoDup (interior_coordinates dev).
Proof.
  unfold interior_coordinates. apply NoDup_bind; [| |apply NoDup_seqZ].
  - intros x1 x2 c _ _ H1 H2.
    apply list_elem_of_bind in H1, H2.
    destruct H1 as (y1 & H1 & _), H2 as (y2 & H2 & _).
    apply list_elem_of_singleton in H1, H2. congruence.
  - intros x _. apply NoDup_bind; [| |apply NoDup_seqZ].
    + intros y1 y2 c _ _ H1 H2.
      apply list_elem_of_singleton in H1, H2. congruence.
    + intros y _. apply NoDup_singleton.
Qed.

Lemma NoDup_border {A : Type} (f : Z -> A) m n :
  (forall a b, f a = f b -> a = b) -> NoDup (f <$> seqZ m n).
Proof.
  intros Hinj. apply NoDup_fmap_2_strong; [|apply NoDup_seqZ].
  intros a b _ _. apply Hinj.
Qed.

(** On a device that has tiles no coordinate is visited twice. *)
Lemma NoDup_device_tiles_in_bitstream_order :
  0 < nx dev -> 0 < ny dev -> NoDup (device_tiles_in_bitstream_order dev).
Proof.
  intros Hnx Hny. unfold device_tiles_in_bitstream_order.
  apply NoDup_app. split; [apply NoDup_filter, NoDup_interior_coordinates|].
  split.
  { intros c Hc Hr. apply list_elem_of_filter in Hc. destruct Hc as [_ Hc].
    apply elem_of_interior_coordinates in Hc. apply elem_of_io_ring in Hr. lia. }
  unfold io_ring.
  apply NoDup_app. split; [apply NoDup_border; congruence|]. split.
  { intros c Hc Hr. apply elem_of_top_border in Hc.
    rewrite !elem_of_app, elem_of_right_border, elem_of_bottom_border,
      elem_of_left_border in Hr. lia. }
  apply NoDup_app. split; [apply NoDup_border; congruence|]. split.
  { intros c Hc Hr. apply elem_of_right_border in Hc.
    rewrite !elem_of_app, elem_of_bottom_border, elem_of_left_border in Hr. lia. }
  apply NoDup_app. split; [apply NoDup_border; congruence|]. split.
  { intros c Hc Hr. apply elem_of_bottom_border in Hc.
    rewrite elem_of_left_border in Hr. lia. }
  apply NoDup_border; congruence.
Qed.

End Coordinates.

(** ** The loops of the pass *)

Section PassStructure.
Variable dev : t_device.

Lemma core_grid_body_guarded c st :
  core_grid_body dev c.1 c.2 st
  = (_ ← c_assert (bool_decide (IO_TYPE <> type (grid dev c.1 c.2)));
     if is_visited_interior dev c then grid_visit dev c st else Ok st).
Proof.
  unfold core_grid_body, is_visited_interior, grid_visit.
  apply bind_ext. intros _.
  repeat case_bool_decide; destruct (Z.ltb_spec 0 (offset (grid dev c.1 c.2)));
    simpl; try reflexivity; congruence.
Qed.

Lemma core_loops st :
  (forall c, c ∈ interior_coordinates dev -> type (grid dev c.1 c.2) <> IO_TYPE) ->
  for_range 1 (nx dev + 1)
    (fun ix => for_range 1 (ny dev + 1) (fun iy => core_grid_body dev ix iy)) st
  = foldM (grid_visit dev)
      (filter (fun c => is_visited_interior dev c = true) (interior_coordinates dev))
      st.
Proof.
  intros Hio. unfold for_range.
  replace (nx dev + 1 - 1) with (nx dev) by lia.
  replace (ny dev + 1 - 1) with (ny dev) by lia.
  rewrite (foldM_nested (fun ix iy => core_grid_body dev ix iy)).
  fold (interior_coordinates dev).
  rewrite <- (foldM_guarded
                (fun c => bool_decide (IO_TYPE <> type (grid dev c.1 c.2)))).
  - apply foldM_ext. intros c s Hc. apply core_grid_body_guarded.
  - intros c Hc. apply bool_decide_eq_true. intros E. now apply (Hio c Hc).
Qed.

Lemma io_loop_x iy st :
  (forall ix, 1 <= ix <= nx dev -> type (grid dev ix iy) = IO_TYPE) ->
  for_range 1 (nx dev + 1) (fun ix => io_grid_body dev ix iy) st
  = foldM (grid_visit dev) ((fun ix => (ix, iy)) <$> seqZ 1 (nx dev)) st.
Proof.
  intros Hio. unfold for_range.
  replace (nx dev + 1 - 1) with (nx dev) by lia.
  rewrite foldM_fmap. apply foldM_ext. intros ix s Hix.
  apply elem_of_seqZ in Hix. unfold io_grid_body, grid_visit. simpl.
  rewrite bool_decide_eq_true_2 by (symmetry; apply Hio; lia). reflexivity.
Qed.

Lemma io_loop_y ix st :
  (forall iy, 1 <= iy <= ny dev -> type (grid dev ix iy) = IO_TYPE) ->
  for_range 1 (ny dev + 1) (fun iy => io_grid_body dev ix iy) st
  = foldM (grid_visit dev) ((fun iy => (ix, iy)) <$> seqZ 1 (ny dev)) st.
Proof.
  intros Hio. unfold for_range.
  replace (ny dev + 1 - 1) with (ny dev) by lia.
  rewrite foldM_fmap. apply foldM_ext. intros iy s Hiy.
  apply elem_of_seqZ in Hiy. unfold io_grid_body, grid_visit. simpl.
  rewrite bool_decide_eq_true_2 by (symmetry; apply Hio; lia). reflexivity.
Qed.

(** The four loops over the I/O grids. *)
Lemma io_loops st :
  (forall c, c ∈ io_ring dev -> type (grid dev c.1 c.2) = IO_TYPE) ->
  (for_range 1 (nx dev + 1) (fun ix => io_grid_body dev ix (ny dev + 1)) st ≫=
     fun st => for_range 1 (ny dev + 1) (fun iy => io_grid_body dev (nx dev + 1) iy) st ≫=
     fun st => for_range 1 (nx dev + 1) (fun ix => io_grid_body dev ix 0) st ≫=
     fun st => for_range 1 (ny dev + 1) (fun iy => io_grid_body dev 0 iy) st)
  = foldM (grid_visit dev) (io_ring dev) st.
Proof.
  intros Hio. unfold io_ring. rewrite foldM_app.
  assert (Ht : forall ix, 1 <= ix <= nx dev -> type (grid dev ix (ny dev + 1)) = IO_TYPE).
  { intros ix Hix. apply (Hio (ix, ny dev + 1)). apply elem_of_io_ring. simpl. lia. }
  assert (Hr : forall iy, 1 <= iy <= ny dev -> type (grid dev (nx dev + 1) iy) = IO_TYPE).
  { intros iy Hiy. apply (Hio (nx dev + 1, iy)). apply elem_of_io_ring. simpl. lia. }
  assert (Hb : forall ix, 1 <= ix <= nx dev -> type (grid dev ix 0) = IO_TYPE).
  { intros ix Hix. apply (Hio (ix, 0)). apply elem_of_io_ring. simpl. lia. }
  assert (Hl : forall iy, 1 <= iy <= ny dev -> type (grid dev 0 iy) = IO_TYPE).
  { intros iy Hiy. apply (Hio (0, iy)). apply elem_of_io_ring. simpl. lia. }
  rewrite (io_loop_x _ _ Ht). fold (top_border dev).
  apply bind_ext. intros s1. rewrite foldM_app.
  rewrite (io_loop_y _ _ Hr). fold (right_border dev).
  apply bind_ext. intros s2. rewrite foldM_app.
  rewrite (io_loop_x _ _ Hb). fold (bottom_border dev).
  apply bind_ext. intros s3.
  rewrite (io_loop_y _ _ Hl). reflexivity.
Qed.

(** On a well-formed grid the pass is the sequence of visits in
    bitstream order, followed by nothing else than its three messages. *)
Lemma grid_well_formed_spec :
  grid_well_formed dev = true <->
  (forall c, c ∈ interior_coordinates dev -> type (grid dev c.1 c.2) <> IO_TYPE) /\
  (forall c, c ∈ io_ring dev -> type (grid dev c.1 c.2) = IO_TYPE).
Proof.
  unfold grid_well_formed. rewrite andb_true_iff, !forallb_forall.
  split; intros [H1 H2]; split; intros c Hc.
  - apply list_elem_of_In, H1, bool_decide_eq_true_1 in Hc. exact Hc.
  - apply list_elem_of_In, H2, bool_decide_eq_true_1 in Hc. exact Hc.
  - apply bool_decide_eq_true_2, H1, list_elem_of_In, Hc.
  - apply bool_decide_eq_true_2, H2, list_elem_of_In, Hc.
Qed.

Lemma pass_in_bitstream_order st :
  nx dev <> 0 -> ny dev <> 0 -> grid_well_formed dev = true ->
  compact_verilog_update_grid_spice_model_and_sram_orgz_info dev st
  = foldM (grid_visit dev) (device_tiles_in_bitstream_order dev) st ≫=
      fun st' => Ok (progress_messages dev st').
Proof.
  intros Hnx Hny Hwf. apply grid_well_formed_spec in Hwf.
  destruct Hwf as [Hint Hring].
  unfold compact_verilog_update_grid_spice_model_and_sram_orgz_info.
  replace ((0 =? nx dev) || (0 =? ny dev)) with false
    by (symmetry; apply orb_false_iff; split; apply Z.eqb_neq; lia).
  cbv zeta. rewrite (core_loops _ Hint).
  unfold device_tiles_in_bitstream_order. rewrite foldM_app.
  rewrite !foldM_grid_visit_vpr_printf.
  destruct (foldM (grid_visit dev)
              (filter (fun c => is_visited_interior dev c = true)
                 (interior_coordinates dev)) st) as [s1| | |];
    try reflexivity.
  cbn [mbind outcome_bind].
  rewrite (io_loops _ Hring).
  rewrite !foldM_grid_visit_vpr_printf.
  destruct (foldM (grid_visit dev) (io_ring dev) s1); reflexivity.
Qed.

(** A pass that returns has found no I/O tile inside the array and I/O
    tiles all along the ring. *)
Lemma pass_Ok_grid st st' :
  nx dev <> 0 -> ny dev <> 0 ->
  compact_verilog_update_grid_spice_model_and_sram_orgz_info dev st = Ok st' ->
  grid_well_formed dev = true.
Proof.
  intros Hnx Hny. rewrite grid_well_formed_spec.
  unfold compact_verilog_update_grid_spice_model_and_sram_orgz_info.
  replace ((0 =? nx dev) || (0 =? ny dev)) with false
    by (symmetry; apply orb_false_iff; split; apply Z.eqb_neq; lia).
  cbv zeta. unfold for_range.
  replace (nx dev + 1 - 1) with (nx dev) by lia.
  replace (ny dev + 1 - 1) with (ny dev) by lia.
  rewrite (foldM_nested (fun ix iy => core_grid_body dev ix iy)).
  fold (interior_coordinates dev).
  intros H.
  apply bind_Ok_inv in H. destruct H as (s1 & Hcore & H).
  apply bind_Ok_inv in H. destruct H as (s2 & Htop & H).
  apply bind_Ok_inv in H. destruct H as (s3 & Hright & H).
  apply bind_Ok_inv in H. destruct H as (s4 & Hbottom & Hleft).
  split.
  - intros c Hc.
    pose proof (foldM_assert_inv
                  (fun c => bool_decide (IO_TYPE <> type (grid dev c.1 c.2)))
                  _ _ _ _ Hcore c Hc) as Ha.
    apply bool_decide_eq_true in Ha. congruence.
  - intros c Hc. apply elem_of_io_ring in Hc.
    destruct c as [x y]. simpl in *.
    destruct Hc as [[Hx ->]|[[-> Hy]|[[Hx ->]|[-> Hy]]]].
    + pose proof (foldM_assert_inv
        (fun ix => bool_decide (IO_TYPE = type (grid dev ix (ny dev + 1))))
        _ _ _ _ Htop x) as Ha.
      assert (Hin : elem_of (A:=Z) x (seqZ 1 (nx dev))) by (apply elem_of_seqZ; lia).
      apply Ha, bool_decide_eq_true_1 in Hin. congruence.
    + pose proof (foldM_assert_inv
        (fun iy => bool_decide (IO_TYPE = type (grid dev (nx dev + 1) iy)))
        _ _ _ _ Hright y) as Ha.
      assert (Hin : elem_of (A:=Z) y (seqZ 1 (ny dev))) by (apply elem_of_seqZ; lia).
      apply Ha, bool_decide_eq_true_1 in Hin. congruence.
    + pose proof (foldM_assert_inv
        (fun ix => bool_decide (IO_TYPE = type (grid dev ix 0)))
        _ _ _ _ Hbottom x) as Ha.
      assert (Hin : elem_of (A:=Z) x (seqZ 1 (nx dev))) by (apply elem_of_seqZ; lia).
      apply Ha, bool_decide_eq_true_1 in Hin. congruence.
    + pose proof (foldM_assert_inv
        (fun iy => bool_decide (IO_TYPE = type (grid dev 0 iy)))
        _ _ _ _ Hleft y) as Ha.
      assert (Hin : elem_of (A:=Z) y (seqZ 1 (ny dev))) by (apply elem_of_seqZ; lia).
      apply Ha, bool_decide_eq_true_1 in Hin. congruence.
Qed.

End PassStructure.

(** ** Claims on the grid pass *)

Section GridPassClaims.


(** A pass that returns has made the visits of the bitstream order. *)
Lemma pass_Ok_visits dev st st' :
  nx dev <> 0 -> ny dev <> 0 ->
  compact_verilog_update_grid_spice_model_and_sram_orgz_info dev st = Ok st' ->
  foldM (sram_visit dev) (device_tiles_in_bitstream_order dev) (sram_orgz_info st)
  = Ok (sram_orgz_info st').
Proof.
  intros Hnx Hny H.
  pose proof (pass_Ok_grid _ _ _ Hnx Hny H) as Hwf.
  rewrite (pass_in_bitstream_order _ _ Hnx Hny Hwf) in H.
  apply bind_Ok_inv in H. destruct H as (s1 & H1 & H2).
  inversion H2; subst; clear H2. simpl.
  now apply foldM_grid_visit_Ok in H1.
Qed.

Lemma NoDup_split_not_elem {A : Type} (l1 l2 : list A) (c : A) :
  NoDup (l1 ++ c :: l2) -> c ∉ l2.
Proof.
  intros H. apply NoDup_app in H. destruct H as (_ & _ & H).
  now apply NoDup_cons in H.
Qed.




Lemma example_device_offsets : offsets_nonnegative example_device.
Proof.
  intros ix iy. simpl. unfold example_grid.
  repeat case_bool_decide; destruct (Z.eqb_spec ix 1); simpl; lia.
Qed.


(** C4, as the code has it.  With [nx = 0] or [ny = 0] the pass prints
    one error message and returns to its caller: no entry of the
    configuration-bit arrays is written, no counter of the bookkeeping or
    of a SPICE model moves, and nothing stops the run. *)
Theorem empty_device_is_reported_and_skipped (dev : t_device) (st : t_state) :
  nx dev = 0 \/ ny dev = 0 ->
  exists st',
    compact_verilog_update_grid_spice_model_and_sram_orgz_info dev st = Ok st' /\
    sram_orgz_info st' = sram_orgz_info st /\
    spice_models st' = spice_models st /\
    messages st'
    = messages st ++
        [{| message_type := TIO_MESSAGE_ERROR;
            message_text := "(File:%s,[LINE%d])Invalid grid size (nx=%d, ny=%d)!\n";
            message_args := [nx dev; ny dev] |}].
Proof.
  intros H0.
  unfold compact_verilog_update_grid_spice_model_and_sram_orgz_info.
  assert (Hg : (0 =? nx dev) || (0 =? ny dev) = true).
  { apply orb_true_iff. destruct H0 as [H0|H0]; [left|right];
      apply Z.eqb_eq; lia. }
  rewrite Hg. eexists. split; [reflexivity|]. simpl. auto.
Qed.

Lemma empty_device_is_reported_and_skipped_witness :
  (nx example_device_no_column = 0 \/ ny example_device_no_column = 0) /\
  exists st',
    compact_verilog_update_grid_spice_model_and_sram_orgz_info
      example_device_no_column example_state = Ok st' /\
    sram_orgz_info st' = sram_orgz_info example_state /\
    spice_models st' = spice_models example_state /\
    messages st'
    = messages example_state ++
        [{| message_type := TIO_MESSAGE_ERROR;
            message_text := "(File:%s,[LINE%d])Invalid grid size (nx=%d, ny=%d)!\n";
            message_args := [0; 2] |}].
Proof.
  assert (H0 : nx example_device_no_column = 0 \/ ny example_device_no_column = 0)
    by (left; reflexivity).
  split; [exact H0|].
  apply (empty_device_is_reported_and_skipped
           example_device_no_column example_state H0).
Defined.

(** C4, as the specification words it (the construction fails and the
    run stops on a fatal error), does not hold: on a device without
    columns the pass returns normally. *)
Lemma empty_device_pass_returns :
  ~ (forall (dev : t_device) (st : t_state),
        nx dev = 0 \/ ny dev = 0 ->
        forall st',
          compact_verilog_update_grid_spice_model_and_sram_orgz_info dev st
          <> Ok st').
Proof.
  intros H.
  apply (H example_device_no_column example_state (or_introl eq_refl)
           (vpr_printf TIO_MESSAGE_ERROR
              "(File:%s,[LINE%d])Invalid grid size (nx=%d, ny=%d)!\n"
              [0; 2] example_state)).
  reflexivity.
Qed.



End GridPassClaims.

(** ** Reserved and regular configuration ports of a grid module *)

Section PhysicalBlock.
Variable phy : t_type_descriptor.

Let conf : Z := physical_mode_num_conf_bits (pb_type phy).
Let reserved : Z := physical_mode_num_reserved_conf_bits (pb_type phy).

(** What the ports of one quoted sub-block may be, when the local
    counter stands at [base]. *)
Let ports_at (base : Z) (ports : list t_port) : Prop :=
  (forall lo hi, RESERVED_SRAM_PORT lo hi ∈ ports -> lo = 0 /\ hi = reserved - 1) /\
  (forall lo hi, SRAM_PORT lo hi ∈ ports -> lo = base /\ hi = base + conf - 1).

Lemma reserved_ports_Ok (ports : list t_port) :
  (if 0 <? reserved
   then hi ← int_sub reserved 1; Ok [RESERVED_SRAM_PORT 0 hi]
   else Ok []) = Ok ports ->
  ports = [] \/ ports = [RESERVED_SRAM_PORT 0 (reserved - 1)].
Proof.
  destruct (0 <? reserved); intros H.
  - apply bind_Ok_inv in H. destruct H as (hi & Hhi & H).
    apply int_checked_Ok in Hhi. destruct Hhi as [-> _].
    inversion H. now right.
  - inversion H. now left.
Qed.

Lemma quote_sub_block_Ok iz q q' :
  quote_sub_block phy iz q = Ok q' ->
  temp_conf_bits_lsb q' = temp_conf_bits_lsb q + conf /\
  temp_conf_bits_msb q' = temp_conf_bits_lsb q + conf /\
  exists ports, quoted q' = quoted q ++ [ports] /\
                ports_at (temp_conf_bits_lsb q) ports.
Proof.
  unfold quote_sub_block. fold conf reserved. intros H.
  apply bind_Ok_inv in H. destruct H as (conf_msb & Hc & H).
  apply int_checked_Ok in Hc. destruct Hc as [-> _].
  apply bind_Ok_inv in H. destruct H as (iopad_msb & _ & H).
  apply bind_Ok_inv in H. destruct H as (iopad_hi & _ & H).
  apply bind_Ok_inv in H. destruct H as (rp & Hrp & H).
  apply reserved_ports_Ok in Hrp.
  apply bind_Ok_inv in H. destruct H as (width & Hw & H).
  apply int_checked_Ok in Hw. destruct Hw as [-> _].
  apply bind_Ok_inv in H. destruct H as (gp & Hgp & H).
  assert (Hgp' : gp = [] \/
            gp = [SRAM_PORT (temp_conf_bits_lsb q) (temp_conf_bits_lsb q + conf - 1)]).
  { destruct (0 <? _) in Hgp.
    - apply bind_Ok_inv in Hgp. destruct Hgp as (hi & Hhi & Hgp).
      apply int_checked_Ok in Hhi. destruct Hhi as [-> _].
      inversion Hgp. now right.
    - inversion Hgp. now left. }
  inversion H; subst q'; clear H. simpl.
  split; [reflexivity|]. split; [reflexivity|].
  eexists. split; [reflexivity|]. split; intros lo hi Hin.
  - apply elem_of_cons in Hin. destruct Hin as [Hin|Hin]; [discriminate|].
    apply elem_of_app in Hin.
    destruct Hin as [Hin|Hin], Hrp as [-> | ->], Hgp' as [-> | ->];
      try (now apply elem_of_nil in Hin);
      apply list_elem_of_singleton in Hin; try discriminate;
      inversion Hin; auto.
  - apply elem_of_cons in Hin. destruct Hin as [Hin|Hin]; [discriminate|].
    apply elem_of_app in Hin.
    destruct Hin as [Hin|Hin], Hrp as [-> | ->], Hgp' as [-> | ->];
      try (now apply elem_of_nil in Hin);
      apply list_elem_of_singleton in Hin; try discriminate;
      inversion Hin; auto.
Qed.

(** Invariant of the loop that quotes the sub-blocks. *)
Lemma quote_sub_blocks_Ok l q q' :
  foldM (quote_sub_block phy) l q = Ok q' ->
  temp_conf_bits_lsb q' = temp_conf_bits_lsb q + Z.of_nat (length l) * conf /\
  exists new, quoted q' = quoted q ++ new /\
    forall (k : nat) ports, new !! k = Some ports ->
      ports_at (temp_conf_bits_lsb q + Z.of_nat k * conf) ports.
Proof.
  revert q. induction l as [|iz l IH]; intros q H; simpl in H.
  - inversion H; subst. split; [simpl; lia|].
    exists []. split; [now rewrite app_nil_r|]. intros k ports Hk.
    now rewrite lookup_nil in Hk.
  - apply bind_Ok_inv in H. destruct H as (q1 & H1 & H2).
    apply quote_sub_block_Ok in H1.
    destruct H1 as (Hl1 & _ & ports1 & Hq1 & Hp1).
    apply IH in H2. destruct H2 as (Hl2 & new & Hq2 & Hnew).
    split; [rewrite Hl2, Hl1; simpl length; lia|].
    exists (ports1 :: new).
    split; [rewrite Hq2, Hq1, <- app_assoc; reflexivity|].
    intros [|k] ports Hk; simpl in Hk.
    + inversion Hk; subst.
      replace (temp_conf_bits_lsb q + Z.of_nat 0 * conf)
        with (temp_conf_bits_lsb q) by lia.
      exact Hp1.
    + apply Hnew in Hk.
      replace (temp_conf_bits_lsb q + Z.of_nat (Datatypes.S k) * conf)
        with (temp_conf_bits_lsb q1 + Z.of_nat k * conf) by lia.
      exact Hk.
Qed.

End PhysicalBlock.

Ltac inv_bind H x Hx :=
  apply bind_Ok_inv in H; destruct H as (x & Hx & H).

Section ReservedRangeClaims.

(** C5, as the code has it.  Only the regular range of a visited tile is
    allocated from the global counter: the visit stamps [lsb] with the
    counter, [msb] with the counter plus capacity times the regular bits,
    and moves the counter by that amount alone; of the reserved bits it
    records their number.  In the grid module the reserved ports are
    always [0 .. reserved - 1], for the module and for each of its
    sub-blocks, and the regular ports of sub-block [k] are drawn from a
    local counter that the reserved bits do not move. *)
Theorem reserved_range_is_not_allocated_from_counter
  (info info' : t_sram_orgz_info) (phy : t_type_descriptor) (x y : Z)
  (prefix : string) (side_name : Z -> string) (dev : t_device)
  (fopen_ok : bool) (ty : t_type_ptr) (side : Z) (m : t_block_module) :
  compact_verilog_update_sram_orgz_info_grid_index info phy x y = Ok info' ->
  dump_compact_verilog_one_physical_block prefix side_name dev fopen_ok ty side
  = Ok m ->
  let conf := physical_mode_num_conf_bits (pb_type (type_descriptors dev ty)) in
  let reserved :=
    physical_mode_num_reserved_conf_bits (pb_type (type_descriptors dev ty)) in
  (grid_reserved_conf_bits info' !! (x, y)
   = Some (physical_mode_num_reserved_conf_bits (pb_type phy)) /\
   grid_conf_bits_lsb info' !! (x, y) = Some (num_mem_bit info) /\
   grid_conf_bits_msb info' !! (x, y)
   = Some (num_mem_bit info
           + capacity phy * physical_mode_num_conf_bits (pb_type phy)) /\
   num_mem_bit info'
   = num_mem_bit info
     + capacity phy * physical_mode_num_conf_bits (pb_type phy)) /\
  (forall lo hi, RESERVED_SRAM_PORT lo hi ∈ block_module_ports m ->
                 lo = 0 /\ hi = reserved - 1) /\
  (forall (k : nat) ports, block_sub_blocks m !! k = Some ports ->
     (forall lo hi, RESERVED_SRAM_PORT lo hi ∈ ports ->
                    lo = 0 /\ hi = reserved - 1) /\
     (forall lo hi, SRAM_PORT lo hi ∈ ports ->
                    lo = Z.of_nat k * conf /\ hi = Z.of_nat k * conf + conf - 1)).
Proof.
  intros Hvisit Hdump conf reserved. split.
  { apply update_sram_orgz_info_Ok in Hvisit.
    destruct Hvisit as (_ & _ & Hc & Hl & Hm & Hr).
    rewrite Hr, Hl, Hm, Hc, !lookup_insert_eq. auto. }
  unfold dump_compact_verilog_one_physical_block in Hdump.
  inv_bind Hdump u1 Hside. inv_bind Hdump u2 Hopen.
  inv_bind Hdump name_prefix Hprefix. inv_bind Hdump subckt_name Hname.
  inv_bind Hdump num_iopads Hpads. inv_bind Hdump iopad_hi Hhi.
  inv_bind Hdump rp Hrp. inv_bind Hdump conf_msb Hconf.
  inv_bind Hdump gp Hgp. inv_bind Hdump q Hq.
  inv_bind Hdump expected Hexp. inv_bind Hdump u3 Hassert.
  inversion Hdump; subst m; clear Hdump. simpl.
  apply reserved_ports_Ok in Hrp. split.
  - intros lo hi Hin.
    apply elem_of_cons in Hin. destruct Hin as [Hin|Hin]; [discriminate|].
    apply elem_of_app in Hin. destruct Hin as [Hin|Hin].
    + destruct Hrp as [-> | ->]; [now apply elem_of_nil in Hin|].
      apply list_elem_of_singleton in Hin. inversion Hin. auto.
    + destruct (0 <? conf_msb) in Hgp.
      * inv_bind Hgp hi' Hhi'. inversion Hgp; subst gp.
        apply list_elem_of_singleton in Hin. discriminate.
      * inversion Hgp; subst gp. now apply elem_of_nil in Hin.
  - unfold for_range in Hq. apply quote_sub_blocks_Ok in Hq.
    destruct Hq as (_ & new & Hquoted & Hnew). simpl in Hquoted, Hnew.
    rewrite Hquoted. intros k ports Hk.
    specialize (Hnew k ports Hk). destruct Hnew as [Hr Hs].
    split; [exact Hr|]. intros lo hi Hin.
    specialize (Hs lo hi Hin). fold conf in Hs. lia.
Qed.

Lemma reserved_range_is_not_allocated_from_counter_witness :
  compact_verilog_update_sram_orgz_info_grid_index
    example_sram_orgz_info_at_5 (example_type_descriptors FILL_TYPE) 1 1
  = Ok {| num_mem_bit := 105; num_bl := 105; num_wl := 105;
          grid_reserved_conf_bits := {[ (1, 1) := 3 ]};
          grid_conf_bits_lsb := {[ (1, 1) := 5 ]};
          grid_conf_bits_msb := {[ (1, 1) := 105 ]} |} /\
  dump_compact_verilog_one_physical_block
    "grid_" (fun _ => "top") example_device true FILL_TYPE (-1)
  = Ok {| block_module_name := "grid_clb";
          block_module_ports :=
            [IOPAD_PORT 0 (-1); RESERVED_SRAM_PORT 0 2; SRAM_PORT 0 99];
          block_sub_blocks :=
            [[IOPAD_PORT 0 (-1); RESERVED_SRAM_PORT 0 2; SRAM_PORT 0 99]] |} /\
  num_mem_bit {| num_mem_bit := 105; num_bl := 105; num_wl := 105;
                 grid_reserved_conf_bits := {[ (1, 1) := 3 ]};
                 grid_conf_bits_lsb := {[ (1, 1) := 5 ]};
                 grid_conf_bits_msb := {[ (1, 1) := 105 ]} |}
  = num_mem_bit example_sram_orgz_info_at_5
    + capacity (example_type_descriptors FILL_TYPE)
      * physical_mode_num_conf_bits (pb_type (example_type_descriptors FILL_TYPE)).
Proof.
  assert (Hv : compact_verilog_update_sram_orgz_info_grid_index
                 example_sram_orgz_info_at_5 (example_type_descriptors FILL_TYPE) 1 1
               = Ok {| num_mem_bit := 105; num_bl := 105; num_wl := 105;
                       grid_reserved_conf_bits := {[ (1, 1) := 3 ]};
                       grid_conf_bits_lsb := {[ (1, 1) := 5 ]};
                       grid_conf_bits_msb := {[ (1, 1) := 105 ]} |})
    by (vm_compute; reflexivity).
  assert (Hd : dump_compact_verilog_one_physical_block
                 "grid_" (fun _ => "top") example_device true FILL_TYPE (-1)
               = Ok {| block_module_name := "grid_clb";
                       block_module_ports :=
                         [IOPAD_PORT 0 (-1); RESERVED_SRAM_PORT 0 2; SRAM_PORT 0 99];
                       block_sub_blocks :=
                         [[IOPAD_PORT 0 (-1); RESERVED_SRAM_PORT 0 2;
                           SRAM_PORT 0 99]] |})
    by (vm_compute; reflexivity).
  split; [exact Hv|]. split; [exact Hd|].
  apply (reserved_range_is_not_allocated_from_counter _ _ _ _ _ _ _ _ _ _ _ _
           Hv Hd).
Defined.

(** C5, as the specification words it (the reserved range too starts at
    the counter and moves it), does not hold: visiting a logic block of 3
    reserved and 100 regular bits with the counter at 5 leaves the counter
    at 105, not at 108. *)
Lemma reserved_bits_do_not_move_the_counter :
  ~ (forall info phy x y info',
        compact_verilog_update_sram_orgz_info_grid_index info phy x y = Ok info' ->
        num_mem_bit info'
        = num_mem_bit info
          + physical_mode_num_reserved_conf_bits (pb_type phy)
          + capacity phy * physical_mode_num_conf_bits (pb_type phy)).
Proof.
  intros H.
  specialize (H example_sram_orgz_info_at_5 (example_type_descriptors FILL_TYPE)
                1 1 _ eq_refl).
  vm_compute in H. discriminate H.
Qed.

End ReservedRangeClaims.

(** ** Switch blocks and connection blocks of the top-level netlist *)

Section TopNetlistFacts.
Context `{D : DeviceRRGSB}.

(** A loop that appends to the stream. *)
Lemma foldM_append {I A : Type} (emit : I -> list A) (l : list I) (out : list A) :
  foldM (fun i out => Ok (out ++ emit i)) l out = Ok (out ++ (l ≫= emit)).
Proof.
  revert out. induction l as [|i l IH]; intros out.
  - simpl. now rewrite app_nil_r.
  - simpl. rewrite IH.
    change ((i :: l) ≫= emit) with (emit i ++ (l ≫= emit)).
    now rewrite app_assoc.
Qed.

Lemma bind_singleton_fmap {I A : Type} (f : I -> A) (l : list I) :
  l ≫= (fun i => [f i]) = f <$> l.
Proof. induction l as [|i l IH]; [reflexivity|]. csimpl. now rewrite IH. Qed.

Lemma elem_of_gsb_coordinates ix iy :
  (ix, iy) ∈ gsb_coordinates <->
  0 <= ix < get_x get_gsb_range /\ 0 <= iy < get_y get_gsb_range.
Proof.
  unfold gsb_coordinates. rewrite list_elem_of_bind. split.
  - intros (x & Hc & Hx). apply list_elem_of_bind in Hc.
    destruct Hc as (y & Hc & Hy). apply list_elem_of_singleton in Hc.
    inversion Hc; subst. apply elem_of_seqZ in Hx, Hy. lia.
  - intros [Hx Hy]. exists ix. split; [|apply elem_of_seqZ; lia].
    apply list_elem_of_bind. exists iy. split; [|apply elem_of_seqZ; lia].
    now apply list_elem_of_singleton.
Qed.

Lemma NoDup_gsb_coordinates : NoDup gsb_coordinates.
Proof.
  unfold gsb_coordinates. apply NoDup_bind; [| |apply NoDup_seqZ].
  - intros x1 x2 c _ _ H1 H2.
    apply list_elem_of_bind in H1, H2.
    destruct H1 as (y1 & H1 & _), H2 as (y2 & H2 & _).
    apply list_elem_of_singleton in H1, H2. congruence.
  - intros x _. apply NoDup_bind; [| |apply NoDup_seqZ].
    + intros y1 y2 c _ _ H1 H2.
      apply list_elem_of_singleton in H1, H2. congruence.
    + intros y _. apply NoDup_singleton.
Qed.

Lemma length_pairs {I J : Type} (l : list I) (k : list J) :
  length (i ← l; j ← k; [(i, j)]) = (length l * length k)%nat.
Proof.
  induction l as [|i l IH]; [reflexivity|].
  change ((i :: l) ≫= (fun i => k ≫= (fun j => [(i, j)])))
    with ((k ≫= (fun j => [(i, j)])) ++ (l ≫= (fun i => k ≫= (fun j => [(i, j)])))).
  rewrite length_app, IH. simpl. f_equal.
  clear. induction k as [|j k IHk]; [reflexivity|]. csimpl. now rewrite IHk.
Qed.

Lemma length_gsb_coordinates :
  length gsb_coordinates
  = (Z.to_nat (get_x get_gsb_range) * Z.to_nat (get_y get_gsb_range))%nat.
Proof. unfold gsb_coordinates. now rewrite length_pairs, !length_seqZ. Qed.

Lemma switch_boxes_emitted (out : list t_instantiation) :
  dump_compact_verilog_defined_switch_boxes (Some out)
  = Ok (out ++ (sb_instantiation <$> gsb_coordinates)).
Proof.
  unfold dump_compact_verilog_defined_switch_boxes, for_range.
  rewrite !Z.sub_0_r.
  rewrite (foldM_nested
             (fun ix iy out =>
                dump_compact_verilog_defined_one_switch_box (Some out)
                  (get_gsb ix iy))).
  fold gsb_coordinates.
  rewrite <- bind_singleton_fmap, <- foldM_append. reflexivity.
Qed.

Lemma connection_boxes_body_emitted ix iy (out : list t_instantiation) :
  connection_boxes_body ix iy out = Ok (out ++ cb_instantiations_at (ix, iy)).
Proof.
  unfold connection_boxes_body, cb_instantiations_at, cb_exists,
    dump_compact_verilog_defined_one_connection_box, cb_instantiation.
  simpl.
  destruct (is_cb_exist CHANX _ _ && rr_gsb_is_cb_exist _ CHANX);
    destruct (is_cb_exist CHANY _ _ && rr_gsb_is_cb_exist _ CHANY);
    simpl; rewrite ?app_nil_r, <- ?app_assoc; reflexivity.
Qed.

Lemma connection_boxes_emitted (out : list t_instantiation) :
  dump_compact_verilog_defined_connection_boxes (Some out)
  = Ok (out ++ (gsb_coordinates ≫= cb_instantiations_at)).
Proof.
  unfold dump_compact_verilog_defined_connection_boxes, for_range.
  rewrite !Z.sub_0_r.
  rewrite (foldM_nested connection_boxes_body).
  fold gsb_coordinates. rewrite <- foldM_append.
  apply foldM_ext. intros [ix iy] s _. apply connection_boxes_body_emitted.
Qed.

End TopNetlistFacts.

Section TopNetlistClaims.

(** C3.  The switch blocks of the top-level netlist are instantiated one
    per GSB coordinate, each coordinate once and in the order of the two
    loops, as many as there are coordinates; the module name of each
    instantiation is the one of the representative that
    [get_sb_unique_module] returns for the coordinate of the switch block,
    its instance name the one of the switch block itself.  An
    instantiated connection block likewise takes its module
    name from the representative returned by [get_cb_unique_module] and its
    instance name from the GSB itself.  (On a null stream nothing is
    written and the run is stopped.) *)
Theorem instances_refer_to_unique_modules
  (D : DeviceRRGSB) (out : list t_instantiation) :
  dump_compact_verilog_defined_switch_boxes (Some out)
  = Ok (out ++ (sb_instantiation <$> gsb_coordinates)) /\
  NoDup gsb_coordinates /\
  (forall ix iy, (ix, iy) ∈ gsb_coordinates <->
                 0 <= ix < get_x get_gsb_range /\ 0 <= iy < get_y get_gsb_range) /\
  length (sb_instantiation <$> gsb_coordinates)
  = (Z.to_nat (get_x get_gsb_range) * Z.to_nat (get_y get_gsb_range))%nat /\
  (forall ix iy,
      sb_instantiation (ix, iy)
      = {| inst_module_name :=
             gen_sb_verilog_module_name
               (get_sb_unique_module (get_sb_coordinator (get_gsb ix iy)));
           inst_instance_name := gen_sb_verilog_instance_name (get_gsb ix iy) |}) /\
  (forall rr_sb,
      dump_compact_verilog_defined_one_switch_box (Some out) rr_sb
      = Ok (out ++
              [{| inst_module_name :=
                    gen_sb_verilog_module_name
                      (get_sb_unique_module (get_sb_coordinator rr_sb));
                  inst_instance_name := gen_sb_verilog_instance_name rr_sb |}])) /\
  (forall rr_gsb cb_type,
      dump_compact_verilog_defined_one_connection_box (Some out) rr_gsb cb_type
      = Ok (out ++
              [{| inst_module_name :=
                    gen_cb_verilog_module_name
                      (get_cb_unique_module cb_type (get_sb_coordinator rr_gsb))
                      cb_type;
                  inst_instance_name :=
                    gen_cb_verilog_instance_name rr_gsb cb_type |}])) /\
  dump_compact_verilog_defined_switch_boxes None = Exit1.
Proof.
  split; [apply switch_boxes_emitted|].
  split; [apply NoDup_gsb_coordinates|].
  split; [apply elem_of_gsb_coordinates|].
  split; [rewrite length_fmap; apply length_gsb_coordinates|].
  repeat split.
Qed.

(** C6.  Walking through the GSBs, the netlist writer instantiates the
    connection block of a channel type (CHANX, then CHANY) at a
    coordinate exactly when the device-level test [is_cb_exist] at the
    coordinate of that connection block and the test [is_cb_exist] of the
    GSB both hold; when one of them fails nothing is written for that
    connection block. *)
Theorem connection_box_emitted_iff_exists
  (D : DeviceRRGSB) (out : list t_instantiation) :
  dump_compact_verilog_defined_connection_boxes (Some out)
  = Ok (out ++ (gsb_coordinates ≫= cb_instantiations_at)) /\
  (forall ix iy out',
      connection_boxes_body ix iy out'
      = Ok (out' ++
              (if is_cb_exist CHANX
                    (get_x (get_cb_coordinator (get_gsb ix iy) CHANX))
                    (get_y (get_cb_coordinator (get_gsb ix iy) CHANX))
                  && rr_gsb_is_cb_exist (get_gsb ix iy) CHANX
               then [cb_instantiation CHANX (ix, iy)] else [])
              ++ (if is_cb_exist CHANY
                       (get_x (get_cb_coordinator (get_gsb ix iy) CHANY))
                       (get_y (get_cb_coordinator (get_gsb ix iy) CHANY))
                     && rr_gsb_is_cb_exist (get_gsb ix iy) CHANY
                  then [cb_instantiation CHANY (ix, iy)] else []))) /\
  (forall c,
      length (cb_instantiations_at c)
      = ((if cb_exists CHANX c then 1 else 0)
         + (if cb_exists CHANY c then 1 else 0))%nat) /\
  (forall c, cb_exists CHANX c = false -> cb_exists CHANY c = false ->
             cb_instantiations_at c = []) /\
  (forall c cb_type,
      cb_exists cb_type c = true <->
      is_cb_exist cb_type
        (get_x (get_cb_coordinator (get_gsb c.1 c.2) cb_type))
        (get_y (get_cb_coordinator (get_gsb c.1 c.2) cb_type)) = true /\
      rr_gsb_is_cb_exist (get_gsb c.1 c.2) cb_type = true).
Proof.
  split; [apply connection_boxes_emitted|].
  split.
  { intros ix iy out'. rewrite connection_boxes_body_emitted.
    reflexivity. }
  split.
  { intros c. unfold cb_instantiations_at. rewrite length_app.
    destruct (cb_exists CHANX c), (cb_exists CHANY c); reflexivity. }
  split.
  { intros c HX HY. unfold cb_instantiations_at. now rewrite HX, HY. }
  intros c cb_type. unfold cb_exists. apply andb_true_iff.
Qed.

(** The connection blocks written for the example device: one per GSB of
    the first column, on the X channel. *)
Example connection_boxes_of_example_device :
  dump_compact_verilog_defined_connection_boxes (D := example_device_rr_gsb)
    (Some [])
  = Ok [ {| inst_module_name := "cbx_0__0_"; inst_instance_name := "cbx_inst_0__0_" |};
         {| inst_module_name := "cbx_0__0_"; inst_instance_name := "cbx_inst_0__1_" |};
         {| inst_module_name := "cbx_0__0_"; inst_instance_name := "cbx_inst_0__2_" |} ].
Proof. vm_compute. reflexivity. Qed.

Example switch_boxes_of_example_device :
  dump_compact_verilog_defined_switch_boxes (D := example_device_rr_gsb)
    (Some [])
  = Ok [ {| inst_module_name := "sb_0__0_"; inst_instance_name := "sb_inst_0__0_" |};
         {| inst_module_name := "sb_0__1_"; inst_instance_name := "sb_inst_0__1_" |};
         {| inst_module_name := "sb_0__2_"; inst_instance_name := "sb_inst_0__2_" |};
         {| inst_module_name := "sb_0__0_"; inst_instance_name := "sb_inst_1__0_" |};
         {| inst_module_name := "sb_0__1_"; inst_instance_name := "sb_inst_1__1_" |};
         {| inst_module_name := "sb_0__2_"; inst_instance_name := "sb_inst_1__2_" |} ].
Proof. vm_compute. reflexivity. Qed.

End TopNetlistClaims.

(* ===================================================================== *)
(** * Part III: further properties of the code                             *)
(* ===================================================================== *)

(** ** More on [BasicPort] *)

Section BasicPortMore.
Import BasicPort.

(** X1.  [revert] undoes itself; it turns a port with [lsb < msb] into an
    invalid port of width 0 and an invalid port into a valid one, and
    leaves a one-bit port as it is. *)
Theorem revert_involutive (p : t) :
  revert (revert p) = p /\
  (lsb_ p < msb_ p ->
   is_valid (revert p) = false /\ get_width (revert p) = 0) /\
  (msb_ p < lsb_ p -> is_valid (revert p) = true) /\
  (lsb_ p = msb_ p -> revert p = p).
Proof.
  destruct p as [m l]. unfold revert. simpl.
  split; [reflexivity|]. split; [|split].
  - intros Hlt.
    assert (Hv : is_valid {| msb_ := l; lsb_ := m |} = false)
      by (apply is_valid_false; simpl; lia).
    split; [exact Hv|]. unfold get_width. now rewrite Hv.
  - intros Hlt. apply is_valid_spec. simpl. lia.
  - intros ->. reflexivity.
Qed.

Lemma wrap_range z : 0 <= wrap z <= SIZE_MAX.
Proof.
  unfold wrap. pose proof (Z.mod_pos_bound z SIZE_MOD) as H.
  rewrite SIZE_MOD_eq in *. rewrite SIZE_MAX_eq. lia.
Qed.

(** X2.  [expand(0)] changes nothing.  On a port of width 0, [expand(w)]
    with [w > 0] makes the port [0 .. w], which is one bit wider than [w].
    On a port of nonzero width whose [msb] can grow by [w], it keeps [lsb],
    adds [w] to [msb], and the width grows by [w] (in [size_t]). *)
Theorem expand_widens (p : t) (w : Z) :
  wf p -> 0 < w <= SIZE_MAX ->
  expand 0 p = p /\
  (get_width p = 0 ->
   expand w p = {| msb_ := w; lsb_ := 0 |} /\
   (w < SIZE_MAX -> get_width (expand w p) = w + 1)) /\
  (get_width p <> 0 -> msb_ p + w <= SIZE_MAX ->
   lsb_ (expand w p) = lsb_ p /\
   msb_ (expand w p) = msb_ p + w /\
   get_width (expand w p) = wrap (get_width p + w) /\
   (get_width p + w <= SIZE_MAX -> get_width (expand w p) = get_width p + w)).
Proof.
  intros Hwf Hw. split; [reflexivity|].
  assert (Hw0 : (0 =? w) = false) by (apply Z.eqb_neq; lia).
  split.
  - intros H0. unfold expand. rewrite Hw0, H0. simpl.
    split; [reflexivity|]. intros Hlt.
    rewrite get_width_exact.
    + simpl; lia.
    + split; simpl; size_t_norm; lia.
    + simpl; lia.
    + simpl. intros [_ E]. lia.
  - intros Hne Hfit. unfold expand. rewrite Hw0.
    replace (0 =? get_width p) with false by (symmetry; apply Z.eqb_neq; lia).
    simpl.
    apply get_width_nonzero in Hne; [|assumption]. destruct Hne as [Hle Hfull].
    destruct Hwf as [Hl Hm].
    rewrite wrap_small by (size_t_norm; lia).
    split; [reflexivity|]. split; [reflexivity|].
    assert (Hgw : get_width p = msb_ p - lsb_ p + 1)
      by (apply get_width_exact; [split|..]; assumption).
    assert (Hnew : get_width {| msb_ := msb_ p + w; lsb_ := lsb_ p |}
                   = wrap (get_width p + w)).
    { rewrite get_width_valid.
      - simpl. rewrite Hgw. f_equal. lia.
      - split; simpl; size_t_norm; lia.
      - simpl. lia. }
    split; [exact Hnew|]. intros Hsum. rewrite Hnew.
    apply wrap_small. rewrite Hgw in *. size_t_norm. lia.
Qed.

Lemma expand_widens_witness :
  wf {| msb_ := 7; lsb_ := 4 |} /\ 0 < 3 <= SIZE_MAX /\
  expand 3 {| msb_ := 7; lsb_ := 4 |} = {| msb_ := 10; lsb_ := 4 |} /\
  expand 3 default = {| msb_ := 3; lsb_ := 0 |} /\
  get_width (expand 3 {| msb_ := 7; lsb_ := 4 |})
  = get_width {| msb_ := 7; lsb_ := 4 |} + 3.
Proof.
  assert (Hwf : wf {| msb_ := 7; lsb_ := 4 |}).
  { unfold wf, is_size_t; simpl; rewrite SIZE_MAX_eq; lia. }
  assert (Hw : 0 < 3 <= SIZE_MAX) by (rewrite SIZE_MAX_eq; lia).
  split; [exact Hwf|]. split; [exact Hw|].
  split; [reflexivity|]. split; [reflexivity|].
  apply (expand_widens {| msb_ := 7; lsb_ := 4 |} 3 Hwf Hw).
  - vm_compute. discriminate.
  - simpl. rewrite SIZE_MAX_eq. lia.
  - vm_compute. discriminate.
Defined.

(** X3.  [combine] stops on its assertion exactly when the port given to
    it has width 0.  Otherwise a receiver of width 0 is left as it is (it
    does not take over the argument), and a receiver of nonzero width keeps
    its [lsb] and has the width of the argument added to its [msb]. *)
Theorem combine_adds_width (port p : t) :
  wf port -> wf p ->
  (combine port p = None <-> get_width port = 0) /\
  (get_width port <> 0 -> get_width p = 0 -> combine port p = Some p) /\
  (get_width port <> 0 -> get_width p <> 0 ->
   msb_ p + get_width port <= SIZE_MAX ->
   combine port p
   = Some {| msb_ := msb_ p + get_width port; lsb_ := lsb_ p |}).
Proof.
  intros Hport Hp.
  pose proof (get_width_range port Hport) as Hr.
  unfold combine. split; [|split].
  - destruct (Z.ltb_spec 0 (get_width port)); split; intros H';
      try discriminate; try reflexivity; lia.
  - intros Hne H0.
    replace (0 <? get_width port) with true by (symmetry; apply Z.ltb_lt; lia).
    now rewrite H0.
  - intros Hne Hpne Hfit.
    replace (0 <? get_width port) with true by (symmetry; apply Z.ltb_lt; lia).
    replace (0 =? get_width p) with false by (symmetry; apply Z.eqb_neq; lia).
    destruct Hp as [Hl Hm].
    rewrite wrap_small by (size_t_norm; lia). reflexivity.
Qed.

Lemma combine_adds_width_witness :
  wf {| msb_ := 2; lsb_ := 0 |} /\ wf {| msb_ := 7; lsb_ := 4 |} /\
  combine {| msb_ := 2; lsb_ := 0 |} {| msb_ := 7; lsb_ := 4 |}
  = Some {| msb_ := 10; lsb_ := 4 |} /\
  (combine default {| msb_ := 7; lsb_ := 4 |} = None <-> get_width default = 0).
Proof.
  assert (H1 : wf {| msb_ := 2; lsb_ := 0 |}).
  { unfold wf, is_size_t; simpl; rewrite SIZE_MAX_eq; lia. }
  assert (H2 : wf {| msb_ := 7; lsb_ := 4 |}).
  { unfold wf, is_size_t; simpl; rewrite SIZE_MAX_eq; lia. }
  assert (H3 : wf default).
  { unfold wf, is_size_t; simpl; rewrite SIZE_MAX_eq; lia. }
  split; [exact H1|]. split; [exact H2|]. split; [reflexivity|].
  apply (combine_adds_width default {| msb_ := 7; lsb_ := 4 |} H3 H2).
Defined.

(** X4.  Whether they succeed or not, [rotate] and [counter_rotate] leave
    the width and the validity of the port as they are, and the port they
    leave holds [size_t] values. *)
Theorem rotate_preserves_width (p : t) (offset : Z) :
  wf p -> is_size_t offset ->
  (get_width (snd (rotate offset p)) = get_width p /\
   is_valid (snd (rotate offset p)) = is_valid p /\
   wf (snd (rotate offset p))) /\
  (get_width (snd (counter_rotate offset p)) = get_width p /\
   is_valid (snd (counter_rotate offset p)) = is_valid p /\
   wf (snd (counter_rotate offset p))).
Proof.
  intros Hwf Ho.
  destruct (Z.eq_dec offset 0) as [H0|H0];
    [rewrite rotate_nop, counter_rotate_nop by auto; simpl; auto|].
  destruct (Z.eq_dec (get_width p) 0) as [Hw|Hw];
    [rewrite rotate_nop, counter_rotate_nop by auto; simpl; auto|].
  rewrite rotate_nonzero, counter_rotate_nonzero by assumption.
  pose proof Hw as Hw'. apply get_width_nonzero in Hw'; [|assumption].
  destruct Hw' as [Hle _]. pose proof Hwf as [Hl Hm].
  assert (Hv : is_valid p = true) by (now apply is_valid_spec).
  split.
  - destruct (Z.ltb_spec (SIZE_MAX - msb_ p) offset); simpl; [auto|].
    split; [now apply get_width_shift|].
    split; [rewrite Hv; apply is_valid_spec; simpl; lia|].
    split; simpl; size_t_norm; lia.
  - destruct (Z.ltb_spec (lsb_ p) offset); simpl; [auto|].
    split; [apply (get_width_shift p (- offset)); assumption|].
    split; [rewrite Hv; apply is_valid_spec; simpl; lia|].
    split; simpl; size_t_norm; lia.
Qed.

Lemma rotate_preserves_width_witness :
  wf {| msb_ := 7; lsb_ := 4 |} /\ is_size_t 3 /\
  get_width (snd (rotate 3 {| msb_ := 7; lsb_ := 4 |}))
  = get_width {| msb_ := 7; lsb_ := 4 |} /\
  get_width {| msb_ := 7; lsb_ := 4 |} = 4.
Proof.
  assert (Hwf : wf {| msb_ := 7; lsb_ := 4 |}).
  { unfold wf, is_size_t; simpl; rewrite SIZE_MAX_eq; lia. }
  assert (Ho : is_size_t 3) by (unfold is_size_t; rewrite SIZE_MAX_eq; lia).
  split; [exact Hwf|]. split; [exact Ho|]. split; [|reflexivity].
  apply (rotate_preserves_width {| msb_ := 7; lsb_ := 4 |} 3 Hwf Ho).
Defined.

End BasicPortMore.

(** ** [ConfPorts] *)

Section ConfPortsFacts.

Lemma set_width_of_width (w : Z) (p : BasicPort.t) :
  0 <= w <= SIZE_MAX ->
  BasicPort.set_width w p
  = (if 0 =? w then BasicPort.default
     else {| BasicPort.msb_ := w - 1; BasicPort.lsb_ := 0 |}) /\
  BasicPort.get_width (BasicPort.set_width w p) = w.
Proof.
  intros Hw. unfold BasicPort.set_width.
  destruct (Z.eqb_spec 0 w) as [<-|Hne]; [split; reflexivity|].
  rewrite wrap_small by (size_t_norm; lia). split; [reflexivity|].
  rewrite get_width_exact;
    [simpl; lia | split; simpl; size_t_norm; lia | simpl; lia
    | simpl; intros [_ E]; size_t_norm; lia].
Qed.

Lemma set_width_range_of_port (q p : BasicPort.t) :
  BasicPort.set_width_range (BasicPort.lsb_ q) (BasicPort.msb_ q) p
  = (if BasicPort.is_valid q then q else BasicPort.default).
Proof.
  unfold BasicPort.set_width_range, BasicPort.is_valid.
  destruct (BasicPort.msb_ q <? BasicPort.lsb_ q); [reflexivity|].
  now destruct q.
Qed.

Lemma ConfPorts_set_shape (src e : ConfPorts.t) :
  BasicPort.wf (ConfPorts.reserved_ src) ->
  ConfPorts.set src e
  = {| ConfPorts.reserved_ :=
         (if 0 =? ConfPorts.get_reserved_port_width src then BasicPort.default
          else {| BasicPort.msb_ := ConfPorts.get_reserved_port_width src - 1;
                  BasicPort.lsb_ := 0 |});
       ConfPorts.regular_ :=
         (if BasicPort.is_valid (ConfPorts.regular_ src)
          then ConfPorts.regular_ src else BasicPort.default) |}.
Proof.
  intros Hres. pose proof (get_width_range _ Hres) as Hw.
  unfold ConfPorts.set, ConfPorts.set_regular_port_range,
    ConfPorts.set_reserved_port, ConfPorts.get_regular_port_lsb,
    ConfPorts.get_regular_port_msb, ConfPorts.get_reserved_port_width,
    BasicPort.get_lsb, BasicPort.get_msb.
  cbn [ConfPorts.reserved_ ConfPorts.regular_].
  rewrite set_width_range_of_port.
  destruct (set_width_of_width _ (ConfPorts.reserved_ e) Hw) as [-> _].
  reflexivity.
Qed.

(** X5.  Copying a [ConfPorts] ([ConfPorts::set], the copy constructor)
    does not depend on what the receiver held, keeps the widths of both
    ports and keeps a valid regular port as it is; an invalid regular port
    becomes the default invalid port, and the reserved port is rebuilt from
    its width alone, so it starts at index 0 whatever the reserved port of
    the source was.  Copying the copy gives the copy again. *)
Theorem ConfPorts_copy (src c d : ConfPorts.t) :
  ConfPorts_wf src ->
  ConfPorts.set src c = ConfPorts.set src d /\
  ConfPorts.get_reserved_port_width (ConfPorts.set src c)
  = ConfPorts.get_reserved_port_width src /\
  ConfPorts.get_regular_port_width (ConfPorts.set src c)
  = ConfPorts.get_regular_port_width src /\
  ConfPorts.regular_ (ConfPorts.set src c)
  = (if BasicPort.is_valid (ConfPorts.regular_ src)
     then ConfPorts.regular_ src else BasicPort.default) /\
  ConfPorts.reserved_ (ConfPorts.set src c)
  = (if 0 =? ConfPorts.get_reserved_port_width src then BasicPort.default
     else {| BasicPort.msb_ := ConfPorts.get_reserved_port_width src - 1;
             BasicPort.lsb_ := 0 |}) /\
  ConfPorts.set (ConfPorts.set src c) d = ConfPorts.set src c.
Proof.
  intros [Hres Hreg].
  pose proof (get_width_range _ Hres) as Hw.
  pose proof (ConfPorts_set_shape src c Hres) as Hc.
  pose proof (ConfPorts_set_shape src d Hres) as Hd.
  assert (Hrw : ConfPorts.get_reserved_port_width (ConfPorts.set src c)
                = ConfPorts.get_reserved_port_width src).
  { unfold ConfPorts.set, ConfPorts.set_regular_port_range,
      ConfPorts.set_reserved_port, ConfPorts.get_reserved_port_width.
    cbn [ConfPorts.reserved_ ConfPorts.regular_].
    apply set_width_of_width, Hw. }
  assert (Hgw : ConfPorts.get_regular_port_width (ConfPorts.set src c)
                = ConfPorts.get_regular_port_width src).
  { rewrite Hc. unfold ConfPorts.get_regular_port_width.
    cbn [ConfPorts.reserved_ ConfPorts.regular_].
    destruct (BasicPort.is_valid (ConfPorts.regular_ src)) eqn:Hv; [reflexivity|].
    unfold BasicPort.get_width at 2. now rewrite Hv. }
  split; [now rewrite Hc, Hd|].
  split; [exact Hrw|]. split; [exact Hgw|].
  split; [now rewrite Hc|]. split; [now rewrite Hc|].
  assert (Hres' : BasicPort.wf (ConfPorts.reserved_ (ConfPorts.set src c))).
  { rewrite Hc. cbn [ConfPorts.reserved_].
    unfold ConfPorts.get_reserved_port_width.
    destruct (Z.eqb_spec 0 (BasicPort.get_width (ConfPorts.reserved_ src)));
      split; simpl; size_t_norm; lia. }
  rewrite (ConfPorts_set_shape _ d Hres'), Hrw.
  rewrite Hc at 3. f_equal.
  rewrite Hc. cbn [ConfPorts.regular_].
  destruct (BasicPort.is_valid (ConfPorts.regular_ src)) eqn:Hv;
    [now rewrite Hv | reflexivity].
Qed.

Lemma ConfPorts_copy_witness :
  ConfPorts_wf
    {| ConfPorts.reserved_ := {| BasicPort.msb_ := 5; BasicPort.lsb_ := 3 |};
       ConfPorts.regular_ := {| BasicPort.msb_ := 9; BasicPort.lsb_ := 6 |} |} /\
  ConfPorts.set
    {| ConfPorts.reserved_ := {| BasicPort.msb_ := 5; BasicPort.lsb_ := 3 |};
       ConfPorts.regular_ := {| BasicPort.msb_ := 9; BasicPort.lsb_ := 6 |} |}
    ConfPorts.default
  = {| ConfPorts.reserved_ := {| BasicPort.msb_ := 2; BasicPort.lsb_ := 0 |};
       ConfPorts.regular_ := {| BasicPort.msb_ := 9; BasicPort.lsb_ := 6 |} |} /\
  ConfPorts.get_reserved_port_width
    (ConfPorts.set
       {| ConfPorts.reserved_ := {| BasicPort.msb_ := 5; BasicPort.lsb_ := 3 |};
          ConfPorts.regular_ := {| BasicPort.msb_ := 9; BasicPort.lsb_ := 6 |} |}
       ConfPorts.default)
  = ConfPorts.get_reserved_port_width
      {| ConfPorts.reserved_ := {| BasicPort.msb_ := 5; BasicPort.lsb_ := 3 |};
         ConfPorts.regular_ := {| BasicPort.msb_ := 9; BasicPort.lsb_ := 6 |} |}.
Proof.
  assert (Hwf : ConfPorts_wf
    {| ConfPorts.reserved_ := {| BasicPort.msb_ := 5; BasicPort.lsb_ := 3 |};
       ConfPorts.regular_ := {| BasicPort.msb_ := 9; BasicPort.lsb_ := 6 |} |}).
  { unfold ConfPorts_wf, BasicPort.wf, is_size_t; simpl; rewrite SIZE_MAX_eq; lia. }
  split; [exact Hwf|]. split; [reflexivity|].
  apply (ConfPorts_copy _ ConfPorts.default ConfPorts.default Hwf).
Defined.

(** X6.  Rotating the regular port of a [ConfPorts] never touches the
    reserved port; and when [rotate_regular_port] succeeds on a valid
    regular port, [counter_rotate_regular_port] with the same offset
    succeeds and gives back the [ConfPorts] it started from. *)
Theorem ConfPorts_rotate_round_trip (c : ConfPorts.t) (offset : Z) :
  ConfPorts_wf c -> is_size_t offset ->
  ConfPorts.reserved_ (snd (ConfPorts.rotate_regular_port offset c))
  = ConfPorts.reserved_ c /\
  ConfPorts.reserved_ (snd (ConfPorts.counter_rotate_regular_port offset c))
  = ConfPorts.reserved_ c /\
  (BasicPort.is_valid (ConfPorts.regular_ c) = true ->
   fst (ConfPorts.rotate_regular_port offset c) = true ->
   ConfPorts.counter_rotate_regular_port offset
     (snd (ConfPorts.rotate_regular_port offset c)) = (true, c)).
Proof.
  intros [Hres Hreg] Ho.
  unfold ConfPorts.rotate_regular_port, ConfPorts.counter_rotate_regular_port.
  destruct c as [res reg]. simpl in *.
  split; [destruct (BasicPort.rotate offset reg); reflexivity|].
  split; [destruct (BasicPort.counter_rotate offset reg); reflexivity|].
  intros Hv Hret.
  destruct (Z.eq_dec offset 0) as [H0|H0].
  { rewrite (rotate_nop offset reg) by auto. simpl.
    now rewrite (counter_rotate_nop offset reg) by auto. }
  destruct (Z.eq_dec (BasicPort.get_width reg) 0) as [Hw|Hw].
  { rewrite (rotate_nop offset reg) by auto. simpl.
    now rewrite (counter_rotate_nop offset reg) by auto. }
  rewrite rotate_nonzero in Hret |- * by assumption.
  apply is_valid_spec in Hv. destruct Hreg as [Hl Hm].
  destruct (Z.ltb_spec (SIZE_MAX - BasicPort.msb_ reg) offset);
    [simpl in Hret; discriminate|]. simpl.
  rewrite counter_rotate_nonzero.
  - simpl. destruct (Z.ltb_spec (BasicPort.lsb_ reg + offset) offset);
      [size_t_norm; lia|].
    destruct reg as [m l]. simpl. do 3 f_equal; lia.
  - split; simpl; size_t_norm; lia.
  - assumption.
  - assumption.
  - rewrite get_width_shift by assumption. assumption.
Qed.

Lemma ConfPorts_rotate_round_trip_witness :
  ConfPorts_wf
    {| ConfPorts.reserved_ := {| BasicPort.msb_ := 2; BasicPort.lsb_ := 0 |};
       ConfPorts.regular_ := {| BasicPort.msb_ := 9; BasicPort.lsb_ := 6 |} |} /\
  is_size_t 4 /\
  ConfPorts.rotate_regular_port 4
    {| ConfPorts.reserved_ := {| BasicPort.msb_ := 2; BasicPort.lsb_ := 0 |};
       ConfPorts.regular_ := {| BasicPort.msb_ := 9; BasicPort.lsb_ := 6 |} |}
  = (true,
     {| ConfPorts.reserved_ := {| BasicPort.msb_ := 2; BasicPort.lsb_ := 0 |};
        ConfPorts.regular_ := {| BasicPort.msb_ := 13; BasicPort.lsb_ := 10 |} |}) /\
  ConfPorts.reserved_
    (snd (ConfPorts.rotate_regular_port 4
            {| ConfPorts.reserved_ := {| BasicPort.msb_ := 2; BasicPort.lsb_ := 0 |};
               ConfPorts.regular_ := {| BasicPort.msb_ := 9; BasicPort.lsb_ := 6 |} |}))
  = {| BasicPort.msb_ := 2; BasicPort.lsb_ := 0 |}.
Proof.
  assert (Hwf : ConfPorts_wf
    {| ConfPorts.reserved_ := {| BasicPort.msb_ := 2; BasicPort.lsb_ := 0 |};
       ConfPorts.regular_ := {| BasicPort.msb_ := 9; BasicPort.lsb_ := 6 |} |}).
  { unfold ConfPorts_wf, BasicPort.wf, is_size_t; simpl; rewrite SIZE_MAX_eq; lia. }
  assert (Ho : is_size_t 4) by (unfold is_size_t; rewrite SIZE_MAX_eq; lia).
  split; [exact Hwf|]. split; [exact Ho|]. split; [reflexivity|].
  apply (ConfPorts_rotate_round_trip _ 4 Hwf Ho).
Defined.

End ConfPortsFacts.

(** ** The SPICE models along the pass *)

Section SpiceModels.

Lemma mapM_Ok {A B : Type} (f : A -> outcome B) (l : list A) (k : list B) :
  mapM f l = Ok k <-> Forall2 (fun x y => f x = Ok y) l k.
Proof.
  revert k. induction l as [|x l IH]; intros k.
  - simpl. split.
    + intros H. inversion H. constructor.
    + intros H. inversion H. reflexivity.
  - simpl. split.
    + intros H. inv_bind H y Hy. inv_bind H k' Hk. inversion H; subst.
      constructor; [assumption|]. now apply IH.
    + intros H. inversion H as [|? y ? k' Hy Hk]; subst.
      rewrite Hy. simpl. apply IH in Hk. rewrite Hk. reflexivity.
Qed.

Variable dev : t_device.

Lemma model_visit_Ok c m m' :
  model_visit dev c m = Ok m' ->
  spice_model_type m' = spice_model_type m /\
  (is_stamped (spice_model_type m) = false -> m' = m) /\
  (is_stamped (spice_model_type m) = true ->
   let s := model_tile_size dev (spice_model_type m) c in
   is_int s /\ is_int (cnt m + s) /\
   cnt m' = cnt m + s /\
   grid_index_low m' = <[c := cnt m]> (grid_index_low m) /\
   grid_index_high m' = <[c := cnt m + s]> (grid_index_high m)).
Proof.
  unfold model_visit, update_one_spice_model, model_tile_size, tile_conf_bits,
    tile_iopads.
  destruct c as [x y]. cbn [fst snd].
  destruct (spice_model_type m) eqn:E; cbn [is_stamped]; intros H;
    try (inversion H; subst m'; rewrite E;
         split; [reflexivity|]; split; [reflexivity|discriminate]).
  all: inv_bind H w Hw; inv_bind H h Hh;
    apply int_checked_Ok in Hw; destruct Hw as [-> Hw];
    apply int_checked_Ok in Hh; destruct Hh as [-> Hh];
    inversion H; subst m'; clear H; cbn;
    split; [reflexivity|]; split; [discriminate|]; intros _;
    repeat split; apply Hw || apply Hh.
Qed.

Lemma total_model_size_cons ty c l :
  total_model_size dev ty (c :: l)
  = model_tile_size dev ty c + total_model_size dev ty l.
Proof. reflexivity. Qed.

Lemma total_model_size_sram l :
  total_model_size dev SPICE_MODEL_SRAM l = total_conf_bits dev l /\
  total_model_size dev SPICE_MODEL_SCFF l = total_conf_bits dev l.
Proof.
  induction l as [|c l [IH1 IH2]]; [split; reflexivity|].
  rewrite !total_model_size_cons, total_conf_bits_cons, IH1, IH2.
  split; reflexivity.
Qed.

Lemma total_model_size_unstamped ty l :
  is_stamped ty = false -> total_model_size dev ty l = 0.
Proof.
  intros Hty. induction l as [|c l IH]; [reflexivity|].
  rewrite total_model_size_cons, IH. destruct ty; try discriminate; reflexivity.
Qed.

(** A model along a sequence of visits. *)
Lemma model_fold l m m' :
  foldM (model_visit dev) l m = Ok m' ->
  spice_model_type m' = spice_model_type m /\
  cnt m' = cnt m + total_model_size dev (spice_model_type m) l /\
  (is_stamped (spice_model_type m) = false -> m' = m) /\
  (forall c, c ∉ l ->
     grid_index_low m' !! c = grid_index_low m !! c /\
     grid_index_high m' !! c = grid_index_high m !! c).
Proof.
  revert m. induction l as [|d l IH]; intros m H; simpl in H.
  - inversion H; subst.
    repeat split; auto. unfold total_model_size; simpl; lia.
  - inv_bind H m1 H1. apply model_visit_Ok in H1.
    destruct H1 as (Hty & Hun & Hst).
    apply IH in H. destruct H as (Hty' & Hcnt & Hun' & Hout).
    rewrite Hty in *.
    split; [assumption|].
    destruct (is_stamped (spice_model_type m)) eqn:Es.
    + destruct (Hst eq_refl) as (_ & _ & Hc & Hl & Hh).
      split; [rewrite Hcnt, Hc, total_model_size_cons; lia|].
      split; [discriminate|].
      intros c Hc'. apply not_elem_of_cons in Hc'. destruct Hc' as [Hne Hc'].
      destruct (Hout c Hc') as [El Eh].
      rewrite El, Eh, Hl, Hh, !lookup_insert_ne by congruence. auto.
    + specialize (Hun eq_refl). subst m1.
      split; [rewrite Hcnt, !(total_model_size_unstamped _ _ Es); reflexivity|].
      split; [intros _; now apply Hun'|].
      intros c Hc'. apply not_elem_of_cons in Hc'. destruct Hc' as [_ Hc'].
      now apply Hout.
Qed.

Lemma total_model_size_app ty l1 l2 :
  total_model_size dev ty (l1 ++ l2)
  = total_model_size dev ty l1 + total_model_size dev ty l2.
Proof.
  induction l1 as [|c l1 IH]; [unfold total_model_size; simpl; lia|].
  simpl app. rewrite !total_model_size_cons, IH. lia.
Qed.

(** The entries of a stamped model at a tile that is visited once. *)
Lemma model_fold_split l1 c l2 m m' :
  foldM (model_visit dev) (l1 ++ c :: l2) m = Ok m' -> c ∉ l2 ->
  is_stamped (spice_model_type m) = true ->
  grid_index_low m' !! c
  = Some (cnt m + total_model_size dev (spice_model_type m) l1) /\
  grid_index_high m' !! c
  = Some (cnt m + total_model_size dev (spice_model_type m) l1
          + model_tile_size dev (spice_model_type m) c).
Proof.
  intros H Hc Hst. rewrite foldM_app in H.
  inv_bind H m1 H1. simpl in H. inv_bind H m2 H2.
  apply model_fold in H1. destruct H1 as (Hty1 & Hcnt1 & _ & _).
  apply model_visit_Ok in H2. destruct H2 as (Hty2 & _ & Hst2).
  rewrite Hty1 in Hst2. destruct (Hst2 Hst) as (_ & _ & _ & Hl & Hh).
  apply model_fold in H. destruct H as (_ & _ & _ & Hout).
  destruct (Hout c Hc) as [El Eh].
  rewrite El, Eh, Hl, Hh, !lookup_insert_eq, Hcnt1. auto.
Qed.

(** The models of the state, each along the visits of the state. *)
Lemma foldM_grid_visit_models l st st' :
  foldM (grid_visit dev) l st = Ok st' ->
  Forall2 (fun m m' => foldM (model_visit dev) l m = Ok m')
          (spice_models st) (spice_models st').
Proof.
  revert st. induction l as [|c l IH]; intros st H; simpl in H.
  - inversion H; subst. induction (spice_models st'); constructor; auto.
  - inv_bind H s1 H1. apply IH in H.
    unfold grid_visit, update_grid_index in H1.
    inv_bind H1 ms Hms. inv_bind H1 info Hinfo. inversion H1; subst s1; clear H1.
    simpl in H.
    unfold compact_verilog_update_one_spice_model_grid_index in Hms.
    apply mapM_Ok in Hms. fold (model_visit dev c) in Hms.
    revert H. generalize (spice_models st'). clear -Hms.
    induction Hms as [|m m1 ms ms1 Hm _ IHm]; intros k Hk.
    + inversion Hk. constructor.
    + inversion Hk as [|? m' ? k' Hm' Hk']; subst.
      constructor; [|now apply IHm].
      assert (Hm2 : model_visit dev c m = Ok m1) by exact Hm.
      cbn [foldM]. rewrite Hm2. exact Hm'.
Qed.

End SpiceModels.

(** ** The whole pass: SPICE models, untouched entries, messages *)

Section WholePass.
Variable dev : t_device.

(** A pass that returns is the sequence of visits in bitstream order
    followed by the three progress messages. *)
Lemma pass_Ok_fold st st' :
  nx dev <> 0 -> ny dev <> 0 ->
  compact_verilog_update_grid_spice_model_and_sram_orgz_info dev st = Ok st' ->
  exists s1,
    foldM (grid_visit dev) (device_tiles_in_bitstream_order dev) st = Ok s1 /\
    st' = progress_messages dev s1.
Proof.
  intros Hnx Hny H.
  pose proof (pass_Ok_grid _ _ _ Hnx Hny H) as Hwf.
  rewrite (pass_in_bitstream_order _ _ Hnx Hny Hwf) in H.
  inv_bind H s1 H1. inversion H; subst. eauto.
Qed.

(** X7.  Over a pass that returns, the array of SPICE models keeps its
    length and the type of every model.  A model that is neither
    configuration memory nor an I/O pad is left exactly as it was.  The
    counter of an SRAM or SCFF model moves by the same amount as the global
    configuration-bit counter, the counter of an IOPAD model by the number
    of pads of the visited tiles; and at every visited tile such a model has
    [grid_index_low] equal to its counter plus what the tiles visited before
    added, and [grid_index_high] that much plus the share of the tile.  Its
    entries at the coordinates that are not visited are not written. *)
Theorem spice_model_counters_in_lockstep (st st' : t_state) :
  0 < nx dev -> 0 < ny dev ->
  compact_verilog_update_grid_spice_model_and_sram_orgz_info dev st = Ok st' ->
  let order := device_tiles_in_bitstream_order dev in
  length (spice_models st') = length (spice_models st) /\
  forall (i : nat) m, spice_models st !! i = Some m ->
    exists m', spice_models st' !! i = Some m' /\
      spice_model_type m' = spice_model_type m /\
      cnt m' = cnt m + total_model_size dev (spice_model_type m) order /\
      (is_stamped (spice_model_type m) = false -> m' = m) /\
      (spice_model_type m = SPICE_MODEL_SRAM \/
       spice_model_type m = SPICE_MODEL_SCFF ->
       cnt m' - cnt m
       = num_mem_bit (sram_orgz_info st') - num_mem_bit (sram_orgz_info st)) /\
      (is_stamped (spice_model_type m) = true ->
       forall l1 c l2, order = l1 ++ c :: l2 ->
         grid_index_low m' !! c
         = Some (cnt m + total_model_size dev (spice_model_type m) l1) /\
         grid_index_high m' !! c
         = Some (cnt m + total_model_size dev (spice_model_type m) l1
                 + model_tile_size dev (spice_model_type m) c)) /\
      (forall c, c ∉ order ->
         grid_index_low m' !! c = grid_index_low m !! c /\
         grid_index_high m' !! c = grid_index_high m !! c).
Proof.
  intros Hnx Hny Hpass order.
  assert (Hnx0 : nx dev <> 0) by lia. assert (Hny0 : ny dev <> 0) by lia.
  pose proof (pass_Ok_visits _ _ _ Hnx0 Hny0 Hpass) as Hsram.
  apply sram_fold_counter in Hsram.
  destruct (pass_Ok_fold _ _ Hnx0 Hny0 Hpass) as (s1 & Hfold & ->).
  assert (Hnd := NoDup_device_tiles_in_bitstream_order dev Hnx Hny).
  apply foldM_grid_visit_models in Hfold. simpl in *.
  fold order in Hfold, Hsram, Hnd.
  split; [symmetry; eapply Forall2_length; eassumption|].
  intros i m Hi.
  destruct (Forall2_lookup_l _ _ _ _ _ Hfold Hi) as (m' & Hi' & Hm).
  exists m'. split; [exact Hi'|].
  pose proof (model_fold _ _ _ _ Hm) as (Hty & Hcnt & Hun & Hout).
  split; [exact Hty|]. split; [exact Hcnt|]. split; [exact Hun|].
  split.
  { intros Hs. rewrite Hcnt, Hsram.
    destruct (total_model_size_sram dev order) as [E1 E2].
    destruct Hs as [-> | ->]; [rewrite E1 | rewrite E2]; lia. }
  split; [|exact Hout].
  intros Hst l1 c l2 E. rewrite E in Hm, Hnd.
  apply NoDup_split_not_elem in Hnd.
  exact (model_fold_split _ _ _ _ _ _ Hm Hnd Hst).
Qed.

End WholePass.

Lemma spice_model_counters_in_lockstep_witness :
  0 < nx example_device /\ 0 < ny example_device /\
  compact_verilog_update_grid_spice_model_and_sram_orgz_info
    example_device example_state = Ok example_final_state /\
  length (spice_models example_final_state) = length (spice_models example_state) /\
  (cnt <$> spice_models example_final_state) = [284; 0; 32].
Proof.
  assert (Hnx : 0 < nx example_device) by (simpl; lia).
  assert (Hny : 0 < ny example_device) by (simpl; lia).
  assert (Hp : compact_verilog_update_grid_spice_model_and_sram_orgz_info
                 example_device example_state = Ok example_final_state)
    by (vm_compute; reflexivity).
  split; [exact Hnx|]. split; [exact Hny|]. split; [exact Hp|].
  split; [|vm_compute; reflexivity].
  apply (spice_model_counters_in_lockstep example_device example_state
           example_final_state Hnx Hny Hp).
Defined.

Section PassFrame.
Variable dev : t_device.





End PassFrame.


(** ** When the pass returns *)

Section PassReturns.
Variable dev : t_device.

Lemma INT_MIN_eq : INT_MIN = -2147483648.
Proof. reflexivity. Qed.

Lemma INT_MAX_eq : INT_MAX = 2147483647.
Proof. reflexivity. Qed.

Lemma counters_fit_fits st l : counters_fit dev st l = true -> fits dev st l.
Proof.
  unfold counters_fit, fits. rewrite !andb_true_iff, !forallb_forall.
  intros [[[H1 H2] H3] H4]. apply Z.leb_le in H1, H2.
  split; [exact H1|]. split; [exact H2|]. split; apply Forall_forall.
  - intros m Hm. apply list_elem_of_In, H3, andb_true_iff in Hm.
    destruct Hm as [Ha Hb]. apply Z.leb_le in Ha, Hb. auto.
  - intros c Hc. apply list_elem_of_In, H4, andb_true_iff in Hc.
    destruct Hc as [Ha Hb]. apply Z.leb_le in Ha, Hb. auto.
Qed.

Lemma model_tile_size_nonneg ty c :
  0 <= tile_conf_bits dev c -> 0 <= tile_iopads dev c ->
  0 <= model_tile_size dev ty c.
Proof. intros H1 H2. destruct ty; simpl; lia. Qed.

Lemma total_model_size_nonneg ty l :
  Forall (fun c => 0 <= tile_conf_bits dev c /\ 0 <= tile_iopads dev c) l ->
  0 <= total_model_size dev ty l.
Proof.
  induction 1 as [|c l [H1 H2] _ IH]; [unfold total_model_size; simpl; lia|].
  rewrite total_model_size_cons.
  pose proof (model_tile_size_nonneg ty c H1 H2). lia.
Qed.

Lemma total_conf_bits_nonneg' l :
  Forall (fun c => 0 <= tile_conf_bits dev c /\ 0 <= tile_iopads dev c) l ->
  0 <= total_conf_bits dev l.
Proof.
  intros H. apply total_conf_bits_nonneg.
  eapply Forall_impl; [exact H|]. intros c [Hc _]. exact Hc.
Qed.

(** One model, one visit: the visit returns and the bound is kept. *)
Lemma model_visit_fits c l m :
  0 <= tile_conf_bits dev c -> 0 <= tile_iopads dev c ->
  0 <= total_model_size dev (spice_model_type m) l ->
  0 <= cnt m ->
  cnt m + total_model_size dev (spice_model_type m) (c :: l) <= INT_MAX ->
  exists m', model_visit dev c m = Ok m' /\
    0 <= cnt m' /\
    cnt m' + total_model_size dev (spice_model_type m') l <= INT_MAX.
Proof.
  intros Hconf Hpads Hrest Hcnt Hsum.
  rewrite total_model_size_cons in Hsum.
  pose proof (model_tile_size_nonneg (spice_model_type m) c Hconf Hpads) as Hs.
  unfold model_visit, update_one_spice_model, int_mul, int_add.
  unfold model_tile_size, tile_conf_bits, tile_iopads in *.
  destruct c as [x y]. cbn [fst snd] in *.
  rewrite INT_MAX_eq in *.
  destruct (spice_model_type m) eqn:E;
    try (exists m; rewrite E; split; [reflexivity|]; split; lia).
  all: rewrite int_checked_is_int
         by (unfold is_int; rewrite INT_MIN_eq, INT_MAX_eq; lia);
    cbn [mbind outcome_bind];
    rewrite int_checked_is_int
      by (unfold is_int; rewrite INT_MIN_eq, INT_MAX_eq; lia);
    cbn [mbind outcome_bind];
    eexists; split; [reflexivity|]; cbn; split; lia.
Qed.

Lemma mapM_total {A B : Type} (f : A -> outcome B) (Q : B -> Prop) (l : list A) :
  Forall (fun x => exists y, f x = Ok y /\ Q y) l ->
  exists k, mapM f l = Ok k /\ Forall Q k.
Proof.
  induction 1 as [|x l (y & Hy & HQ) _ (k & Hk & HQk)].
  - exists []. split; [reflexivity | constructor].
  - exists (y :: k). split; [|now constructor].
    simpl. rewrite Hy. simpl. rewrite Hk. reflexivity.
Qed.

(** One visit returns and keeps the bounds for the rest of the sequence. *)
Lemma grid_visit_fits c l st :
  fits dev st (c :: l) -> exists s1, grid_visit dev c st = Ok s1 /\ fits dev s1 l.
Proof.
  intros (Hn & Hsum & Hms & Hl).
  apply Forall_cons in Hl. destruct Hl as [[Hconf Hpads] Hl].
  rewrite total_conf_bits_cons in Hsum.
  pose proof (total_conf_bits_nonneg' l Hl) as Hrest.
  assert (Hmodels : exists k,
    compact_verilog_update_one_spice_model_grid_index
      (type_descriptors dev (type (grid dev c.1 c.2))) c.1 c.2 (spice_models st)
    = Ok k /\
    Forall (fun m => 0 <= cnt m /\
              cnt m + total_model_size dev (spice_model_type m) l <= INT_MAX) k).
  { apply mapM_total. eapply Forall_impl; [exact Hms|].
    intros m [Hc Hs]. apply (model_visit_fits c l m); try assumption.
    now apply total_model_size_nonneg. }
  destruct Hmodels as (k & Hk & HQ).
  destruct (update_sram_orgz_info_total (sram_orgz_info st)
              (type_descriptors dev (type (grid dev c.1 c.2))) c.1 c.2)
    as (info' & Hinfo).
  { fold (tile_conf_bits dev c). unfold is_int.
    rewrite INT_MIN_eq. rewrite INT_MAX_eq in *. lia. }
  { fold (tile_conf_bits dev c). unfold is_int.
    rewrite INT_MIN_eq. rewrite INT_MAX_eq in *. lia. }
  exists {| sram_orgz_info := info'; spice_models := k; messages := messages st |}.
  split.
  - unfold grid_visit, update_grid_index. rewrite Hk. simpl.
    rewrite Hinfo. reflexivity.
  - pose proof Hinfo as Hi. apply update_sram_orgz_info_Ok in Hi.
    destruct Hi as (_ & _ & Hc & _). fold (tile_conf_bits dev c) in Hc.
    unfold fits. simpl. rewrite Hc.
    split; [lia|]. split; [lia|]. split; assumption.
Qed.

Lemma foldM_grid_visit_fits l st :
  fits dev st l -> exists st', foldM (grid_visit dev) l st = Ok st'.
Proof.
  revert st. induction l as [|c l IH]; intros st H; [simpl; eauto|].
  destruct (grid_visit_fits _ _ _ H) as (s1 & H1 & Hfit).
  destruct (IH _ Hfit) as (st' & H2).
  exists st'. simpl. rewrite H1. exact H2.
Qed.

(** X9.  On a device with tiles whose counters start at or above 0 and
    stay within the range of [int] when the sizes of all the tiles of the
    bitstream order (none of them negative) are added, the pass returns
    exactly when the grid satisfies its assertions: no I/O tile inside, I/O
    tiles all along the four borders. *)
Theorem pass_returns_iff_grid_well_formed (st : t_state) :
  nx dev <> 0 -> ny dev <> 0 ->
  counters_fit dev st (device_tiles_in_bitstream_order dev) = true ->
  (exists st',
      compact_verilog_update_grid_spice_model_and_sram_orgz_info dev st = Ok st')
  <-> grid_well_formed dev = true.
Proof.
  intros Hnx Hny Hfit. split.
  - intros (st' & H). exact (pass_Ok_grid _ _ _ Hnx Hny H).
  - intros Hwf. rewrite (pass_in_bitstream_order _ _ Hnx Hny Hwf).
    apply counters_fit_fits in Hfit.
    destruct (foldM_grid_visit_fits _ _ Hfit) as (s1 & H1).
    rewrite H1. simpl. eauto.
Qed.

End PassReturns.

Lemma pass_returns_iff_grid_well_formed_witness :
  nx example_device <> 0 /\ ny example_device <> 0 /\
  counters_fit example_device example_state
    (device_tiles_in_bitstream_order example_device) = true /\
  grid_well_formed example_device = true /\
  exists st',
    compact_verilog_update_grid_spice_model_and_sram_orgz_info
      example_device example_state = Ok st'.
Proof.
  assert (Hnx : nx example_device <> 0) by (simpl; lia).
  assert (Hny : ny example_device <> 0) by (simpl; lia).
  assert (Hfit : counters_fit example_device example_state
                   (device_tiles_in_bitstream_order example_device) = true)
    by (vm_compute; reflexivity).
  assert (Hwf : grid_well_formed example_device = true)
    by (vm_compute; reflexivity).
  split; [exact Hnx|]. split; [exact Hny|]. split; [exact Hfit|].
  split; [exact Hwf|].
  apply (pass_returns_iff_grid_well_formed example_device example_state
           Hnx Hny Hfit), Hwf.
Defined.

(** ** The grid modules in closed form *)

Ltac int_in_range := unfold is_int; rewrite ?INT_MIN_eq, ?INT_MAX_eq in *; lia.

Ltac int_steps :=
  repeat first
    [ rewrite int_checked_is_int by int_in_range
    | progress cbn [mbind outcome_bind] ].

Lemma if_Ok {A : Type} (b : bool) (x y : A) :
  (if b then Ok x else Ok y) = Ok (if b then x else y).
Proof. now destruct b. Qed.

Section PhysicalBlockClosedForm.
Variable phy : t_type_descriptor.

Let conf : Z := physical_mode_num_conf_bits (pb_type phy).
Let reserved : Z := physical_mode_num_reserved_conf_bits (pb_type phy).
Let iopads : Z := physical_mode_num_iopads (pb_type phy).

Hypothesis conf_nonneg : 0 <= conf.
Hypothesis iopads_nonneg : 0 <= iopads.
Hypothesis reserved_range : 0 <= reserved <= INT_MAX.

Lemma quote_sub_block_step iz q :
  0 <= temp_conf_bits_lsb q -> temp_conf_bits_lsb q + conf <= INT_MAX ->
  0 <= temp_iopad_lsb q -> temp_iopad_lsb q + iopads <= INT_MAX ->
  quote_sub_block phy iz q
  = Ok {| temp_conf_bits_lsb := temp_conf_bits_lsb q + conf;
          temp_conf_bits_msb := temp_conf_bits_lsb q + conf;
          temp_iopad_lsb := temp_iopad_lsb q + iopads;
          quoted := quoted q ++
            [IOPAD_PORT (temp_iopad_lsb q) (temp_iopad_lsb q + iopads - 1)
             :: (if 0 <? reserved then [RESERVED_SRAM_PORT 0 (reserved - 1)] else [])
             ++ (if 0 <? conf
                 then [SRAM_PORT (temp_conf_bits_lsb q)
                         (temp_conf_bits_lsb q + conf - 1)]
                 else [])] |}.
Proof.
  intros Hl Hlc Hp Hpc.
  unfold quote_sub_block, int_add, int_sub. fold conf reserved iopads.
  int_steps. rewrite if_Ok. int_steps.
  replace (temp_conf_bits_lsb q + conf - temp_conf_bits_lsb q) with conf by lia.
  rewrite if_Ok. int_steps. reflexivity.
Qed.

(** The loop that quotes the sub-blocks [a], [a + 1], ... *)
Lemma quote_sub_blocks_closed_form (k : nat) (a : Z) q :
  0 <= a ->
  (a + Z.of_nat k) * conf <= INT_MAX -> (a + Z.of_nat k) * iopads <= INT_MAX ->
  temp_conf_bits_lsb q = a * conf -> temp_iopad_lsb q = a * iopads ->
  exists q',
    foldM (quote_sub_block phy) (seqZ a (Z.of_nat k)) q = Ok q' /\
    temp_conf_bits_lsb q' = (a + Z.of_nat k) * conf /\
    (k <> 0%nat -> temp_conf_bits_msb q' = (a + Z.of_nat k) * conf) /\
    (k = 0%nat -> temp_conf_bits_msb q' = temp_conf_bits_msb q) /\
    quoted q' = quoted q ++ (sub_block_ports phy <$> seqZ a (Z.of_nat k)).
Proof.
  revert a q. induction k as [|k IH]; intros a q Ha Hc Hp Hl Hi.
  - exists q. simpl. split; [reflexivity|].
    split; [rewrite Hl; f_equal; lia|]. split; [congruence|].
    split; [reflexivity|]. now rewrite app_nil_r.
  - rewrite seqZ_cons by lia.
    replace (Z.pred (Z.of_nat (Datatypes.S k))) with (Z.of_nat k) by lia.
    assert (Hc1 : a * conf + conf <= INT_MAX) by nia.
    assert (Hp1 : a * iopads + iopads <= INT_MAX) by nia.
    cbn [foldM]. rewrite quote_sub_block_step by (rewrite ?Hl, ?Hi; nia).
    cbn [mbind outcome_bind].
    assert (Hc2 : (Z.succ a + Z.of_nat k) * conf <= INT_MAX)
      by (replace (Z.succ a + Z.of_nat k) with (a + Z.of_nat (Datatypes.S k)) by lia;
          exact Hc).
    assert (Hp2 : (Z.succ a + Z.of_nat k) * iopads <= INT_MAX)
      by (replace (Z.succ a + Z.of_nat k) with (a + Z.of_nat (Datatypes.S k)) by lia;
          exact Hp).
    assert (Ha2 : 0 <= Z.succ a) by lia.
    match goal with
    | |- context [foldM _ _ ?q1] =>
        assert (Hl2 : temp_conf_bits_lsb q1 = Z.succ a * conf)
          by (cbn; rewrite Hl; lia);
        assert (Hi2 : temp_iopad_lsb q1 = Z.succ a * iopads)
          by (cbn; rewrite Hi; lia);
        destruct (IH (Z.succ a) q1 Ha2 Hc2 Hp2 Hl2 Hi2)
          as (q' & Hq' & Hl' & Hm' & Hm0 & Hquoted)
    end.
    exists q'. split; [exact Hq'|].
    split; [rewrite Hl'; f_equal; lia|].
    split.
    { intros _. destruct k as [|k'].
      - rewrite (Hm0 eq_refl). cbn. rewrite Hl. lia.
      - rewrite Hm' by discriminate. f_equal. lia. }
    split; [discriminate|].
    rewrite Hquoted. cbn [quoted]. rewrite <- app_assoc. f_equal.
    cbn [fmap list_fmap app]. f_equal.
    unfold sub_block_ports. fold conf reserved iopads.
    rewrite Hl, Hi. reflexivity.
Qed.

End PhysicalBlockClosedForm.

Section PhysicalBlockOutcome.
Variable grid_verilog_file_name_prefix : string.
Variable convert_side_index_to_string : Z -> string.

Lemma side_check_Ok (ty : t_type_ptr) (side : Z) :
  ty <> IO_TYPE \/ 0 <= side < 4 ->
  (if bool_decide (IO_TYPE = ty)
   then c_assert ((-1 <? side) && (side <? 4)) else Ok tt) = Ok tt.
Proof.
  intros H. case_bool_decide as E; [|reflexivity].
  destruct H as [H|H]; [congruence|].
  replace ((-1 <? side) && (side <? 4)) with true; [reflexivity|].
  symmetry. apply andb_true_iff. split; apply Z.ltb_lt; lia.
Qed.

Lemma side_check_fails (side : Z) :
  ~ 0 <= side < 4 ->
  (if bool_decide (IO_TYPE = IO_TYPE)
   then c_assert ((-1 <? side) && (side <? 4)) else Ok tt) = AssertFail.
Proof.
  intros H. rewrite bool_decide_eq_true_2 by reflexivity.
  replace ((-1 <? side) && (side <? 4)) with false; [reflexivity|].
  symmetry. apply andb_false_iff.
  destruct (Z.ltb_spec (-1) side); [right; apply Z.ltb_ge; lia | now left].
Qed.

Lemma block_type_in_range_spec phy :
  block_type_in_range phy = true ->
  0 <= capacity phy /\
  0 <= physical_mode_num_conf_bits (pb_type phy) /\
  0 <= physical_mode_num_iopads (pb_type phy) /\
  0 <= physical_mode_num_reserved_conf_bits (pb_type phy) <= INT_MAX /\
  capacity phy * physical_mode_num_conf_bits (pb_type phy) <= INT_MAX /\
  capacity phy * physical_mode_num_iopads (pb_type phy) <= INT_MAX.
Proof.
  unfold block_type_in_range. rewrite !andb_true_iff, !Z.leb_le. tauto.
Qed.

(** With a side that passes the first assertion, the outcome follows
    from whether the file opens. *)
Lemma physical_block_outcome (dev : t_device) (fopen_ok : bool)
  (ty : t_type_ptr) (side : Z) :
  block_type_in_range (type_descriptors dev ty) = true ->
  ty <> IO_TYPE \/ 0 <= side < 4 ->
  dump_compact_verilog_one_physical_block
    grid_verilog_file_name_prefix convert_side_index_to_string
    dev fopen_ok ty side
  = if fopen_ok
    then Ok (grid_module grid_verilog_file_name_prefix
               convert_side_index_to_string dev ty side)
    else Exit1.
Proof.
  intros Hrange Hside. apply block_type_in_range_spec in Hrange.
  destruct Hrange as (Hcap & Hconf & Hpads & Hres & Hcc & Hcp).
  unfold dump_compact_verilog_one_physical_block.
  rewrite side_check_Ok by assumption.
  destruct fopen_ok; [|reflexivity].
  cbn [mbind outcome_bind].
  unfold generate_compact_verilog_grid_module_name,
    generate_compact_verilog_grid_module_name_prefix.
  rewrite side_check_Ok by assumption. cbn [mbind outcome_bind].
  unfold int_mul, int_sub, for_range.
  set (phy := type_descriptors dev ty) in *.
  assert (Hcc0 : 0 <= capacity phy * physical_mode_num_conf_bits (pb_type phy))
    by (apply Z.mul_nonneg_nonneg; assumption).
  assert (Hcp0 : 0 <= capacity phy * physical_mode_num_iopads (pb_type phy))
    by (apply Z.mul_nonneg_nonneg; assumption).
  int_steps. rewrite if_Ok. int_steps. rewrite if_Ok. int_steps.
  replace (capacity phy - 0) with (Z.of_nat (Z.to_nat (capacity phy))) by lia.
  match goal with
  | |- context [foldM _ _ ?q0] =>
      destruct (quote_sub_blocks_closed_form phy Hconf Hpads Hres
                  (Z.to_nat (capacity phy)) 0 q0)
        as (q' & Hq' & Hl' & Hm' & Hm0 & Hquoted);
        [lia | rewrite Z2Nat.id by lia; lia | rewrite Z2Nat.id by lia; lia
        | reflexivity | reflexivity | ]
  end.
  rewrite Hq'. int_steps.
  assert (Hmsb : temp_conf_bits_msb q'
                 = capacity phy * physical_mode_num_conf_bits (pb_type phy)).
  { destruct (Z.to_nat (capacity phy)) eqn:E.
    - rewrite (Hm0 eq_refl). reflexivity.
    - rewrite Hm' by discriminate. f_equal. lia. }
  rewrite Hmsb, Z.eqb_refl. cbn [c_assert mbind outcome_bind].
  rewrite Hquoted. cbn [quoted app].
  rewrite Z2Nat.id by lia. reflexivity.
Qed.

(** X10.  For a block type whose numbers are not negative and fit in an
    [int]: [dump_compact_verilog_one_physical_block] stops on its first
    assertion when it is given the I/O type with a side outside [0, 4);
    otherwise it stops with [exit(1)] when the file cannot be opened, and
    else returns, having written the module named after the type (behind
    the side for an I/O block), one sub-block per unit of capacity,
    sub-block [iz] taking the pads [iz * pads .. (iz + 1) * pads - 1] and
    the regular bits [iz * conf .. (iz + 1) * conf - 1]; the assertion that
    ends the function never fails. *)
Theorem physical_block_written (dev : t_device) (fopen_ok : bool)
  (ty : t_type_ptr) (side : Z) :
  block_type_in_range (type_descriptors dev ty) = true ->
  (ty = IO_TYPE -> ~ 0 <= side < 4 ->
   dump_compact_verilog_one_physical_block
     grid_verilog_file_name_prefix convert_side_index_to_string
     dev fopen_ok ty side = AssertFail) /\
  (ty <> IO_TYPE \/ 0 <= side < 4 -> fopen_ok = false ->
   dump_compact_verilog_one_physical_block
     grid_verilog_file_name_prefix convert_side_index_to_string
     dev fopen_ok ty side = Exit1) /\
  (ty <> IO_TYPE \/ 0 <= side < 4 -> fopen_ok = true ->
   dump_compact_verilog_one_physical_block
     grid_verilog_file_name_prefix convert_side_index_to_string
     dev fopen_ok ty side
   = Ok (grid_module grid_verilog_file_name_prefix convert_side_index_to_string
           dev ty side)) /\
  length (block_sub_blocks
            (grid_module grid_verilog_file_name_prefix
               convert_side_index_to_string dev ty side))
  = Z.to_nat (capacity (type_descriptors dev ty)) /\
  (forall (k : nat),
      (k < Z.to_nat (capacity (type_descriptors dev ty)))%nat ->
      block_sub_blocks
        (grid_module grid_verilog_file_name_prefix
           convert_side_index_to_string dev ty side) !! k
      = Some (sub_block_ports (type_descriptors dev ty) (Z.of_nat k))).
Proof.
  intros Hrange. split; [|split; [|split; [|split]]].
  - intros -> Hside. unfold dump_compact_verilog_one_physical_block.
    now rewrite side_check_fails.
  - intros Hside ->. now rewrite physical_block_outcome.
  - intros Hside ->. now rewrite physical_block_outcome.
  - cbn [grid_module block_sub_blocks]. now rewrite length_fmap, length_seqZ.
  - intros k Hk. cbn [grid_module block_sub_blocks].
    rewrite list_lookup_fmap, lookup_seqZ_lt by lia. simpl. reflexivity.
Qed.

(** The modules of one type are appended, unless a file cannot be
    opened. *)
Lemma dump_logic_blocks_of_type_outcome (dev : t_device)
  (fopen_ok : t_type_ptr -> Z -> bool) (ty : t_type_ptr)
  (written : list t_block_module) :
  block_type_in_range (type_descriptors dev ty) = true ->
  let all_open :=
    if bool_decide (IO_TYPE = ty)
    then forallb (fopen_ok ty) [0; 1; 2; 3]
    else bool_decide (EMPTY_TYPE = ty) || fopen_ok ty (-1) in
  dump_logic_blocks_of_type grid_verilog_file_name_prefix
    convert_side_index_to_string dev fopen_ok ty written
  = if all_open
    then Ok (written ++
               grid_modules_of_type grid_verilog_file_name_prefix
                 convert_side_index_to_string dev ty)
    else Exit1.
Proof.
  intros Hrange. unfold dump_logic_blocks_of_type, grid_modules_of_type.
  cbv zeta.
  destruct (bool_decide (EMPTY_TYPE = ty)) eqn:Eempty.
  { apply bool_decide_eq_true in Eempty. subst ty.
    rewrite bool_decide_eq_false_2 by discriminate.
    simpl. now rewrite app_nil_r. }
  destruct (bool_decide (IO_TYPE = ty)) eqn:Eio.
  - apply bool_decide_eq_true in Eio. subst ty.
    unfold for_range. change (seqZ 0 (4 - 0)) with [0; 1; 2; 3].
    cbn [foldM forallb].
    rewrite !physical_block_outcome by (assumption || (right; lia)).
    destruct (fopen_ok IO_TYPE 0); [|reflexivity]. cbn [mbind outcome_bind andb].
    destruct (fopen_ok IO_TYPE 1); [|reflexivity]. cbn [mbind outcome_bind andb].
    destruct (fopen_ok IO_TYPE 2); [|reflexivity]. cbn [mbind outcome_bind andb].
    destruct (fopen_ok IO_TYPE 3); [|reflexivity]. cbn [mbind outcome_bind andb].
    rewrite <- !app_assoc. reflexivity.
  - apply bool_decide_eq_false in Eio.
    assert (Hty : ty <> IO_TYPE \/ 0 <= -1 < 4) by (left; congruence).
    cbn [orb].
    destruct (bool_decide (FILL_TYPE = ty));
      rewrite physical_block_outcome by assumption;
      destruct (fopen_ok ty (-1)); reflexivity.
Qed.

Lemma dump_logic_blocks_fold (dev : t_device)
  (fopen_ok : t_type_ptr -> Z -> bool) (types : list t_type_ptr)
  (written : list t_block_module) :
  forallb (fun ty => block_type_in_range (type_descriptors dev ty)) types = true ->
  (foldM (dump_logic_blocks_of_type grid_verilog_file_name_prefix
            convert_side_index_to_string dev fopen_ok) types written
   = Ok (written ++
           (types ≫= grid_modules_of_type grid_verilog_file_name_prefix
                       convert_side_index_to_string dev)) \/
   foldM (dump_logic_blocks_of_type grid_verilog_file_name_prefix
            convert_side_index_to_string dev fopen_ok) types written
   = Exit1) /\
  ((forall ty side, fopen_ok ty side = true) ->
   foldM (dump_logic_blocks_of_type grid_verilog_file_name_prefix
            convert_side_index_to_string dev fopen_ok) types written
   = Ok (written ++
           (types ≫= grid_modules_of_type grid_verilog_file_name_prefix
                       convert_side_index_to_string dev))).
Proof.
  revert written. induction types as [|ty types IH]; intros written Hrange.
  - simpl. rewrite app_nil_r. auto.
  - cbn [forallb] in Hrange. apply andb_true_iff in Hrange.
    destruct Hrange as [Hty Hrest].
    cbn [foldM].
    rewrite (dump_logic_blocks_of_type_outcome dev fopen_ok ty written Hty).
    change ((ty :: types) ≫= grid_modules_of_type grid_verilog_file_name_prefix
                               convert_side_index_to_string dev)
      with (grid_modules_of_type grid_verilog_file_name_prefix
              convert_side_index_to_string dev ty
            ++ (types ≫= grid_modules_of_type grid_verilog_file_name_prefix
                           convert_side_index_to_string dev)).
    rewrite app_assoc. split.
    + match goal with |- context [if ?b then _ else _] => destruct b end;
        [|right; reflexivity].
      cbn [mbind outcome_bind]. apply IH, Hrest.
    + intros Hopen.
      replace (if bool_decide (IO_TYPE = ty)
               then forallb (fopen_ok ty) [0; 1; 2; 3]
               else bool_decide (EMPTY_TYPE = ty) || fopen_ok ty (-1))
        with true.
      * cbn [mbind outcome_bind]. now apply IH.
      * symmetry. destruct (bool_decide (IO_TYPE = ty)).
        -- cbn [forallb]. now rewrite !Hopen.
        -- rewrite Hopen. apply orb_true_r.
Qed.

(** X11.  For block types whose numbers are in range, the loop of
    [dump_compact_verilog_logic_blocks] over the types never stops on an
    assertion: it gives an I/O block only the sides 0, 1, 2 and 3.  It
    either stops with [exit(1)] because a file cannot be opened, or returns
    having written, in the order of the types, no module for the EMPTY
    type, four modules (top, right, bottom, left) for the I/O type and one
    module for any other type. *)
Theorem logic_blocks_written (dev : t_device)
  (fopen_ok : t_type_ptr -> Z -> bool) (types : list t_type_ptr) :
  forallb (fun ty => block_type_in_range (type_descriptors dev ty)) types = true ->
  (dump_compact_verilog_logic_blocks grid_verilog_file_name_prefix
     convert_side_index_to_string dev fopen_ok types
   = Ok (types ≫= grid_modules_of_type grid_verilog_file_name_prefix
                    convert_side_index_to_string dev) \/
   dump_compact_verilog_logic_blocks grid_verilog_file_name_prefix
     convert_side_index_to_string dev fopen_ok types = Exit1) /\
  ((forall ty side, fopen_ok ty side = true) ->
   dump_compact_verilog_logic_blocks grid_verilog_file_name_prefix
     convert_side_index_to_string dev fopen_ok types
   = Ok (types ≫= grid_modules_of_type grid_verilog_file_name_prefix
                    convert_side_index_to_string dev)) /\
  (forall ty,
      length (grid_modules_of_type grid_verilog_file_name_prefix
                convert_side_index_to_string dev ty)
      = if bool_decide (EMPTY_TYPE = ty) then 0%nat
        else if bool_decide (IO_TYPE = ty) then 4%nat else 1%nat).
Proof.
  intros Hrange. unfold dump_compact_verilog_logic_blocks.
  destruct (dump_logic_blocks_fold dev fopen_ok types [] Hrange) as [H1 H2].
  split; [exact H1|]. split; [exact H2|].
  intros ty. unfold grid_modules_of_type.
  repeat case_bool_decide; reflexivity.
Qed.

End PhysicalBlockOutcome.

Lemma example_types_in_range ty :
  block_type_in_range (type_descriptors example_device ty) = true.
Proof. destruct ty; reflexivity. Qed.

Lemma physical_block_written_witness :
  block_type_in_range (type_descriptors example_device IO_TYPE) = true /\
  dump_compact_verilog_one_physical_block
    "grid_" (fun _ => "top") example_device true IO_TYPE 0
  = Ok {| block_module_name := "grid_top_io";
          block_module_ports := [IOPAD_PORT 0 3; SRAM_PORT 0 7];
          block_sub_blocks :=
            [[IOPAD_PORT 0 0; SRAM_PORT 0 1]; [IOPAD_PORT 1 1; SRAM_PORT 2 3];
             [IOPAD_PORT 2 2; SRAM_PORT 4 5]; [IOPAD_PORT 3 3; SRAM_PORT 6 7]] |} /\
  dump_compact_verilog_one_physical_block
    "grid_" (fun _ => "top") example_device true IO_TYPE (-1) = AssertFail.
Proof.
  pose proof (physical_block_written "grid_" (fun _ => "top") example_device
                true IO_TYPE (-1) (example_types_in_range IO_TYPE))
    as (Hfail & _).
  split; [reflexivity|]. split; [vm_compute; reflexivity|].
  apply Hfail; [reflexivity | lia].
Defined.

Lemma logic_blocks_written_witness :
  forallb (fun ty => block_type_in_range (type_descriptors example_device ty))
          [EMPTY_TYPE; IO_TYPE; FILL_TYPE; HETERO_TYPE 0] = true /\
  (block_module_name <$>
     match dump_compact_verilog_logic_blocks "grid_"
             (fun side => match side with
                          | 0 => "top" | 1 => "right" | 2 => "bottom" | _ => "left"
                          end)
             example_device (fun _ _ => true)
             [EMPTY_TYPE; IO_TYPE; FILL_TYPE; HETERO_TYPE 0] with
     | Ok ms => ms
     | _ => []
     end)
  = ["grid_top_io"; "grid_right_io"; "grid_bottom_io"; "grid_left_io";
     "grid_clb"; "grid_mult"].
Proof.
  assert (Hr : forallb (fun ty => block_type_in_range
                                   (type_descriptors example_device ty))
                 [EMPTY_TYPE; IO_TYPE; FILL_TYPE; HETERO_TYPE 0] = true)
    by reflexivity.
  split; [exact Hr|].
  pose proof (logic_blocks_written "grid_"
                (fun side => match side with
                             | 0 => "top" | 1 => "right" | 2 => "bottom" | _ => "left"
                             end)
                example_device (fun _ _ => true)
                [EMPTY_TYPE; IO_TYPE; FILL_TYPE; HETERO_TYPE 0] Hr)
    as (_ & Hall & _).
  rewrite (Hall (fun _ _ => eq_refl)). vm_compute. reflexivity.
Defined.

(** ** The grids of the top-level netlist *)

Lemma foldM_filter {S I : Type} (visited : I -> bool)
  (visit : I -> S -> outcome S) (l : list I) (s : S) :
  foldM (fun i s => if visited i then visit i s else Ok s) l s
  = foldM visit (filter (fun i => visited i = true) l) s.
Proof.
  revert s. induction l as [|i l IH]; intros s; [reflexivity|].
  cbn [foldM]. destruct (visited i) eqn:Hv.
  - rewrite filter_cons_True by assumption. cbn [foldM].
    apply bind_ext. intros a. apply IH.
  - rewrite filter_cons_False by congruence. cbn [mbind outcome_bind]. apply IH.
Qed.

Section DefinedGridsStructure.
Variable grid_verilog_file_name_prefix : string.
Variable convert_side_index_to_string : Z -> string.
Variable gen_verilog_one_grid_instance_name : Z -> Z -> string.
Variable dev : t_device.
Variable info : t_sram_orgz_info.
Variable iopad : t_spice_model.

Let one_grid (cs : (Z * Z) * Z) (out : list t_grid_instance)
  : outcome (list t_grid_instance) :=
  dump_compact_verilog_defined_one_grid grid_verilog_file_name_prefix
    convert_side_index_to_string gen_verilog_one_grid_instance_name
    dev info iopad (Some out) cs.1.1 cs.1.2 cs.2.

Hypothesis grid_ok : grid_well_formed dev = true.
Hypothesis offsets_ok : offsets_nonnegative dev.

Lemma defined_core_loops out :
  for_range 1 (nx dev + 1)
    (fun ix => for_range 1 (ny dev + 1)
       (fun iy => defined_core_grid_body grid_verilog_file_name_prefix
                    convert_side_index_to_string
                    gen_verilog_one_grid_instance_name dev info iopad ix iy)) out
  = foldM one_grid
      ((fun c => (c, -1)) <$>
         filter (fun c => is_visited_interior dev c = true)
                (interior_coordinates dev)) out.
Proof.
  apply grid_well_formed_spec in grid_ok. destruct grid_ok as [Hint _].
  unfold for_range.
  replace (nx dev + 1 - 1) with (nx dev) by lia.
  replace (ny dev + 1 - 1) with (ny dev) by lia.
  rewrite (foldM_nested
             (fun ix iy => defined_core_grid_body grid_verilog_file_name_prefix
                             convert_side_index_to_string
                             gen_verilog_one_grid_instance_name dev info iopad
                             ix iy)).
  fold (interior_coordinates dev).
  rewrite foldM_fmap, <- foldM_filter.
  apply foldM_ext. intros c s Hc.
  unfold defined_core_grid_body, one_grid,
    dump_compact_verilog_defined_one_grid, is_visited_interior.
  cbn [fst snd].
  specialize (Hint c Hc). specialize (offsets_ok c.1 c.2).
  repeat case_bool_decide; try congruence;
    cbn [orb andb negb c_assert mbind outcome_bind]; try reflexivity.
  destruct (Z.eqb_spec 0 (offset (grid dev c.1 c.2))),
    (Z.ltb_spec 0 (offset (grid dev c.1 c.2)));
    cbn [negb]; try reflexivity; lia.
Qed.

Lemma defined_io_loop (side : Z) (f : Z -> Z * Z) (n : Z) out :
  (forall i, 1 <= i <= n -> type (grid dev (f i).1 (f i).2) = IO_TYPE) ->
  foldM (fun i => defined_io_grid_body grid_verilog_file_name_prefix
                    convert_side_index_to_string
                    gen_verilog_one_grid_instance_name dev info iopad side
                    (f i).1 (f i).2)
        (seqZ 1 n) out
  = foldM one_grid ((fun c => (c, side)) <$> (f <$> seqZ 1 n)) out.
Proof.
  intros Hio. rewrite !foldM_fmap. apply foldM_ext. intros i s Hi.
  apply elem_of_seqZ in Hi. unfold defined_io_grid_body, one_grid. cbn [fst snd].
  rewrite (Hio i) by lia.
  rewrite bool_decide_eq_false_2 by discriminate.
  rewrite bool_decide_eq_true_2 by reflexivity. reflexivity.
Qed.

(** On a grid that passes the assertions, the grids are instantiated in
    bitstream order, each with its border side. *)
Lemma defined_grids_in_bitstream_order out :
  dump_compact_verilog_defined_grids grid_verilog_file_name_prefix
    convert_side_index_to_string gen_verilog_one_grid_instance_name
    dev info iopad (Some out)
  = foldM one_grid (bitstream_order_with_sides dev) out.
Proof.
  unfold dump_compact_verilog_defined_grids, bitstream_order_with_sides.
  cbv zeta. rewrite defined_core_loops, foldM_app.
  pose proof grid_ok as Hwf. apply grid_well_formed_spec in Hwf.
  destruct Hwf as [_ Hring].
  assert (Ht : forall ix, 1 <= ix <= nx dev -> type (grid dev ix (ny dev + 1)) = IO_TYPE).
  { intros ix Hix. apply (Hring (ix, ny dev + 1)). apply elem_of_io_ring. simpl. lia. }
  assert (Hr : forall iy, 1 <= iy <= ny dev -> type (grid dev (nx dev + 1) iy) = IO_TYPE).
  { intros iy Hiy. apply (Hring (nx dev + 1, iy)). apply elem_of_io_ring. simpl. lia. }
  assert (Hb : forall ix, 1 <= ix <= nx dev -> type (grid dev ix 0) = IO_TYPE).
  { intros ix Hix. apply (Hring (ix, 0)). apply elem_of_io_ring. simpl. lia. }
  assert (Hl : forall iy, 1 <= iy <= ny dev -> type (grid dev 0 iy) = IO_TYPE).
  { intros iy Hiy. apply (Hring (0, iy)). apply elem_of_io_ring. simpl. lia. }
  unfold for_range.
  replace (nx dev + 1 - 1) with (nx dev) by lia.
  replace (ny dev + 1 - 1) with (ny dev) by lia.
  unfold top_border, right_border, bottom_border, left_border.
  apply bind_ext. intros s0. rewrite foldM_app.
  rewrite <- (defined_io_loop 0 (fun ix => (ix, ny dev + 1)) (nx dev) s0 Ht).
  apply bind_ext. intros s1. rewrite foldM_app.
  rewrite <- (defined_io_loop 1 (fun iy => (nx dev + 1, iy)) (ny dev) s1 Hr).
  apply bind_ext. intros s2. rewrite foldM_app.
  rewrite <- (defined_io_loop 2 (fun ix => (ix, 0)) (nx dev) s2 Hb).
  apply bind_ext. intros s3.
  rewrite <- (defined_io_loop 3 (fun iy => (0, iy)) (ny dev) s3 Hl).
  reflexivity.
Qed.

End DefinedGridsStructure.

Section DefinedGridsAfterPass.
Variable grid_verilog_file_name_prefix : string.
Variable convert_side_index_to_string : Z -> string.
Variable gen_verilog_one_grid_instance_name : Z -> Z -> string.
Variable dev : t_device.

Lemma read_entry_Some (a : gmap (Z * Z) Z) (c : Z * Z) (v : Z) :
  a !! c = Some v -> read_entry a c.1 c.2 = Ok v.
Proof. destruct c as [x y]. unfold read_entry. cbn [fst snd]. now intros ->. Qed.

(** The instantiation of a tile whose entries are stamped. *)
Lemma defined_one_grid_stamped info iopad out c side lsb pad :
  type (grid dev c.1 c.2) <> EMPTY_TYPE ->
  offset (grid dev c.1 c.2) = 0 ->
  type (grid dev c.1 c.2) <> IO_TYPE \/ 0 <= side < 4 ->
  grid_conf_bits_lsb info !! c = Some lsb ->
  grid_conf_bits_msb info !! c = Some (lsb + tile_conf_bits dev c) ->
  grid_reserved_conf_bits info !! c = Some (tile_reserved_conf_bits dev c) ->
  grid_index_low iopad !! c = Some pad ->
  grid_index_high iopad !! c = Some (pad + tile_iopads dev c) ->
  0 <= lsb -> 0 <= tile_conf_bits dev c -> lsb + tile_conf_bits dev c <= INT_MAX ->
  0 <= pad -> 0 <= tile_iopads dev c -> pad + tile_iopads dev c <= INT_MAX ->
  0 <= tile_reserved_conf_bits dev c <= INT_MAX ->
  dump_compact_verilog_defined_one_grid grid_verilog_file_name_prefix
    convert_side_index_to_string gen_verilog_one_grid_instance_name
    dev info iopad (Some out) c.1 c.2 side
  = Ok (out ++
          [grid_instance grid_verilog_file_name_prefix
             convert_side_index_to_string gen_verilog_one_grid_instance_name
             dev c side lsb pad]).
Proof.
  intros Hne Hoff Hside Hl Hm Hr Hlo Hhi Hl0 Hs0 Hls Hp0 Hq0 Hpq Hres.
  unfold dump_compact_verilog_defined_one_grid.
  rewrite bool_decide_eq_false_2 by congruence. rewrite Hoff.
  cbn [Z.eqb negb orb].
  unfold generate_compact_verilog_grid_module_name,
    generate_compact_verilog_grid_module_name_prefix.
  rewrite side_check_Ok by assumption. cbn [mbind outcome_bind].
  rewrite (read_entry_Some _ _ _ Hlo), (read_entry_Some _ _ _ Hhi),
    (read_entry_Some _ _ _ Hr), (read_entry_Some _ _ _ Hm),
    (read_entry_Some _ _ _ Hl).
  unfold int_sub. int_steps.
  replace (lsb + tile_conf_bits dev c - lsb) with (tile_conf_bits dev c) by lia.
  rewrite if_Ok. int_steps.
  unfold grid_instance. do 3 f_equal.
  replace (lsb + tile_conf_bits dev c - 1 - lsb) with (tile_conf_bits dev c - 1)
    by lia.
  replace (0 <? tile_conf_bits dev c - 1) with (1 <? tile_conf_bits dev c);
    [reflexivity|].
  destruct (Z.ltb_spec 1 (tile_conf_bits dev c)),
    (Z.ltb_spec 0 (tile_conf_bits dev c - 1)); try reflexivity; lia.
Qed.

Lemma fst_bitstream_order_with_sides :
  fst <$> bitstream_order_with_sides dev = device_tiles_in_bitstream_order dev.
Proof.
  unfold bitstream_order_with_sides, device_tiles_in_bitstream_order, io_ring.
  rewrite !fmap_app, <- !list_fmap_compose.
  assert (Hid : forall (side : Z) (l : list (Z * Z)),
             (fst ∘ (fun c : Z * Z => (c, side))) <$> l = l).
  { intros side l. induction l as [|c l IH]; [reflexivity|].
    cbn. f_equal. exact IH. }
  now rewrite !Hid.
Qed.

(** Which side goes with which tile. *)
Lemma elem_of_bitstream_order_with_sides c side :
  (c, side) ∈ bitstream_order_with_sides dev ->
  (side = -1 /\ c ∈ interior_coordinates dev /\ is_visited_interior dev c = true) \/
  (0 <= side < 4 /\ c ∈ io_ring dev).
Proof.
  unfold bitstream_order_with_sides, io_ring.
  rewrite !elem_of_app, !list_elem_of_fmap.
  intros [H|[H|[H|[H|H]]]]; destruct H as (d & E & Hd); inversion E; subst.
  - left. apply list_elem_of_filter in Hd. tauto.
  - right. split; [lia|]. tauto.
  - right. split; [lia|]. tauto.
  - right. split; [lia|]. tauto.
  - right. split; [lia|]. tauto.
Qed.

(** The entries of a tile of the bitstream order after a pass that
    returns, with the bounds that keep the arithmetic on them in range. *)
Lemma stamped_entries (st st' : t_state) (i : nat) (m_io iopad : t_spice_model)
  l1 c l2 :
  0 < nx dev -> 0 < ny dev ->
  compact_verilog_update_grid_spice_model_and_sram_orgz_info dev st = Ok st' ->
  counters_fit dev st (device_tiles_in_bitstream_order dev) = true ->
  spice_models st !! i = Some m_io ->
  spice_model_type m_io = SPICE_MODEL_IOPAD ->
  spice_models st' !! i = Some iopad ->
  device_tiles_in_bitstream_order dev = l1 ++ c :: l2 ->
  let lsb := num_mem_bit (sram_orgz_info st) + total_conf_bits dev l1 in
  let pad := cnt m_io + total_model_size dev SPICE_MODEL_IOPAD l1 in
  grid_conf_bits_lsb (sram_orgz_info st') !! c = Some lsb /\
  grid_conf_bits_msb (sram_orgz_info st') !! c = Some (lsb + tile_conf_bits dev c) /\
  grid_reserved_conf_bits (sram_orgz_info st') !! c
    = Some (tile_reserved_conf_bits dev c) /\
  grid_index_low iopad !! c = Some pad /\
  grid_index_high iopad !! c = Some (pad + tile_iopads dev c) /\
  0 <= lsb /\ 0 <= tile_conf_bits dev c /\ lsb + tile_conf_bits dev c <= INT_MAX /\
  0 <= pad /\ 0 <= tile_iopads dev c /\ pad + tile_iopads dev c <= INT_MAX.
Proof.
  intros Hnx Hny Hpass Hfit Hi Hty Hi' E lsb pad.
  assert (Hnx0 : nx dev <> 0) by lia. assert (Hny0 : ny dev <> 0) by lia.
  pose proof (pass_Ok_visits _ _ _ Hnx0 Hny0 Hpass) as Hsram.
  destruct (pass_Ok_fold _ _ _ Hnx0 Hny0 Hpass) as (s1 & Hfold & ->).
  pose proof (NoDup_device_tiles_in_bitstream_order dev Hnx Hny) as Hnd.
  apply foldM_grid_visit_models in Hfold.
  apply counters_fit_fits in Hfit.
  destruct Hfit as (Hn0 & Hnmax & Hmodels & Hsizes).
  pose proof (Forall_lookup_1 _ _ _ _ Hmodels Hi) as [Hc0 Hcmax].
  simpl in Hi'.
  pose proof (Forall2_lookup_lr _ _ _ _ _ _ Hfold Hi Hi') as Hm.
  rewrite E in Hsram, Hm, Hnd, Hnmax, Hcmax, Hsizes.
  apply NoDup_split_not_elem in Hnd.
  destruct (sram_fold_split _ _ _ _ _ _ Hsram Hnd) as (El & Em & Er).
  assert (Hst : is_stamped (spice_model_type m_io) = true) by now rewrite Hty.
  destruct (model_fold_split _ _ _ _ _ _ Hm Hnd Hst) as [Elo Ehi].
  rewrite Hty in Elo, Ehi, Hcmax. cbn [model_tile_size] in Ehi.
  apply Forall_app in Hsizes. destruct Hsizes as [Hs1 Hs2].
  apply Forall_cons in Hs2. destruct Hs2 as [[Hsc Hpc] Hs2].
  pose proof (total_conf_bits_nonneg' dev _ Hs1) as Ht1.
  pose proof (total_conf_bits_nonneg' dev _ Hs2) as Ht2.
  pose proof (total_model_size_nonneg dev SPICE_MODEL_IOPAD _ Hs1) as Hp1.
  pose proof (total_model_size_nonneg dev SPICE_MODEL_IOPAD _ Hs2) as Hp2.
  rewrite total_conf_bits_app, total_conf_bits_cons in Hnmax.
  rewrite total_model_size_app, total_model_size_cons in Hcmax.
  cbn [model_tile_size] in Hcmax.
  subst lsb pad.
  repeat split; try assumption; lia.
Qed.

(** What every tile of the bitstream order satisfies of the tests of the
    instantiation. *)
Lemma sided_tile_is_instantiated c side :
  grid_well_formed dev = true -> offsets_nonnegative dev ->
  ring_offsets_zero dev = true ->
  (c, side) ∈ bitstream_order_with_sides dev ->
  type (grid dev c.1 c.2) <> EMPTY_TYPE /\
  offset (grid dev c.1 c.2) = 0 /\
  (type (grid dev c.1 c.2) <> IO_TYPE \/ 0 <= side < 4).
Proof.
  intros Hwf Hoff Hring Hc.
  apply grid_well_formed_spec in Hwf. destruct Hwf as [Hcore Hio].
  apply elem_of_bitstream_order_with_sides in Hc.
  destruct Hc as [(-> & Hc & Hv) | (Hs & Hc)].
  - unfold is_visited_interior in Hv. apply andb_true_iff in Hv.
    destruct Hv as [Hne Ho]. apply bool_decide_eq_true_1 in Hne.
    apply negb_true_iff, Z.ltb_ge in Ho.
    pose proof (Hoff c.1 c.2).
    split; [exact Hne|]. split; [lia|]. left. now apply Hcore.
  - unfold ring_offsets_zero in Hring. rewrite forallb_forall in Hring.
    pose proof (Hring c (proj1 (list_elem_of_In _ _) Hc)) as Ho.
    apply Z.eqb_eq in Ho. rewrite (Hio c Hc).
    split; [discriminate|]. split; [exact Ho|]. right. exact Hs.
Qed.

End DefinedGridsAfterPass.

Lemma foldM_emit_each {I A : Type} (body : I -> list A -> outcome (list A))
  (g : I -> A) (l : list I) :
  (forall i, i ∈ l -> forall out, body i out = Ok (out ++ [g i])) ->
  forall out, foldM body l out = Ok (out ++ (g <$> l)).
Proof.
  induction l as [|i l IH]; intros H out.
  - simpl. now rewrite app_nil_r.
  - cbn [foldM]. rewrite (H i) by (apply elem_of_cons; now left).
    cbn [mbind outcome_bind]. rewrite IH.
    + rewrite fmap_cons, <- app_assoc. reflexivity.
    + intros j Hj. apply H. apply elem_of_cons. now right.
Qed.

(** X12.  After a pass that returns, on a device whose counters and
    sizes fit in an [int] and whose I/O tiles have offset 0, the top-level
    netlist instantiates exactly the tiles of the bitstream order, in that
    order and one instance per tile: the tiles inside the array with border
    side -1, then the top, right, bottom and left borders with sides 0, 1,
    2 and 3.  The instance of a tile is connected to the pads and to the
    regular configuration bits that the pass gave to that tile: pads
    [pad .. pad + pads - 1] and bits [lsb .. lsb + size - 1], where [lsb]
    and [pad] are the counters before the pass plus what the tiles before
    it in the order take.  The regular ports are printed for a tile with at
    least one bit, the ports for formal verification only for a tile with
    at least two; the reserved ports are [0 .. reserved - 1]. *)
Theorem defined_grids_after_pass
  (grid_verilog_file_name_prefix : string)
  (convert_side_index_to_string : Z -> string)
  (gen_verilog_one_grid_instance_name : Z -> Z -> string)
  (dev : t_device) (st st' : t_state) (i : nat) (m_io iopad : t_spice_model)
  (out : list t_grid_instance) :
  0 < nx dev -> 0 < ny dev ->
  compact_verilog_update_grid_spice_model_and_sram_orgz_info dev st = Ok st' ->
  counters_fit dev st (device_tiles_in_bitstream_order dev) = true ->
  tiles_in_range dev (device_tiles_in_bitstream_order dev) = true ->
  ring_offsets_zero dev = true ->
  offsets_nonnegative dev ->
  spice_models st !! i = Some m_io ->
  spice_model_type m_io = SPICE_MODEL_IOPAD ->
  spice_models st' !! i = Some iopad ->
  let order := device_tiles_in_bitstream_order dev in
  exists insts,
    dump_compact_verilog_defined_grids grid_verilog_file_name_prefix
      convert_side_index_to_string gen_verilog_one_grid_instance_name
      dev (sram_orgz_info st') iopad (Some out) = Ok (out ++ insts) /\
    length insts = length order /\
    forall l1 c l2, order = l1 ++ c :: l2 ->
      exists side,
        bitstream_order_with_sides dev !! length l1 = Some (c, side) /\
        insts !! length l1
        = Some (grid_instance grid_verilog_file_name_prefix
                  convert_side_index_to_string
                  gen_verilog_one_grid_instance_name dev c side
                  (num_mem_bit (sram_orgz_info st) + total_conf_bits dev l1)
                  (cnt m_io + total_model_size dev SPICE_MODEL_IOPAD l1)).
Proof.
  intros Hnx Hny Hpass Hfit Hrange Hring Hoff Hi Hty Hi' order.
  assert (Hnx0 : nx dev <> 0) by lia. assert (Hny0 : ny dev <> 0) by lia.
  pose proof (pass_Ok_grid _ _ _ Hnx0 Hny0 Hpass) as Hwf.
  set (g := fun cs : (Z * Z) * Z =>
         grid_instance grid_verilog_file_name_prefix
           convert_side_index_to_string gen_verilog_one_grid_instance_name
           dev cs.1 cs.2
           (default 0 (grid_conf_bits_lsb (sram_orgz_info st') !! cs.1))
           (default 0 (grid_index_low iopad !! cs.1))).
  exists (g <$> bitstream_order_with_sides dev).
  assert (Hfst := fst_bitstream_order_with_sides dev). fold order in Hfst.
  split; [|split].
  - pose proof (defined_grids_in_bitstream_order grid_verilog_file_name_prefix
                  convert_side_index_to_string gen_verilog_one_grid_instance_name
                  dev (sram_orgz_info st') iopad Hwf Hoff out) as Hstruct.
    cbv zeta in Hstruct. rewrite Hstruct.
    apply (foldM_emit_each _ g). intros [c side] Hcs out0.
    assert (Hc : c ∈ order).
    { rewrite <- Hfst. apply list_elem_of_fmap. exists (c, side). auto. }
    apply list_elem_of_split in Hc. destruct Hc as (l1 & l2 & E).
    destruct (stamped_entries dev st st' i m_io iopad l1 c l2
                Hnx Hny Hpass Hfit Hi Hty Hi' E)
      as (El & Em & Er & Elo & Ehi & B1 & B2 & B3 & B4 & B5 & B6).
    destruct (sided_tile_is_instantiated dev c side Hwf Hoff Hring Hcs)
      as (Hne & Ho & Hside).
    assert (Hres : 0 <= tile_reserved_conf_bits dev c <= INT_MAX).
    { unfold tiles_in_range in Hrange. rewrite forallb_forall in Hrange.
      assert (Hin : c ∈ order) by (rewrite E, elem_of_app, elem_of_cons; auto).
      apply list_elem_of_In, Hrange, block_type_in_range_spec in Hin.
      unfold tile_reserved_conf_bits. tauto. }
    unfold g. cbn [fst snd]. rewrite El, Elo. cbn [default].
    now apply defined_one_grid_stamped.
  - rewrite length_fmap, <- Hfst, length_fmap. reflexivity.
  - intros l1 c l2 E.
    assert (Hk : order !! length l1 = Some c) by (rewrite E; apply list_lookup_middle; reflexivity).
    rewrite <- Hfst, list_lookup_fmap in Hk.
    destruct (bitstream_order_with_sides dev !! length l1) as [[c' side]|] eqn:Ecs;
      [|discriminate].
    cbn in Hk. inversion Hk; subst c'.
    exists side. split; [reflexivity|].
    rewrite list_lookup_fmap, Ecs. cbn [fmap option_fmap option_map].
    destruct (stamped_entries dev st st' i m_io iopad l1 c l2
                Hnx Hny Hpass Hfit Hi Hty Hi' E)
      as (El & _ & _ & Elo & _).
    unfold g. cbn [fst snd]. rewrite El, Elo. reflexivity.
Qed.

Lemma defined_grids_after_pass_witness :
  0 < nx example_device /\ 0 < ny example_device /\
  compact_verilog_update_grid_spice_model_and_sram_orgz_info
    example_device example_state = Ok example_final_state /\
  counters_fit example_device example_state
    (device_tiles_in_bitstream_order example_device) = true /\
  tiles_in_range example_device
    (device_tiles_in_bitstream_order example_device) = true /\
  ring_offsets_zero example_device = true /\
  offsets_nonnegative example_device /\
  exists m_io iopad,
    spice_models example_state !! 2%nat = Some m_io /\
    spice_model_type m_io = SPICE_MODEL_IOPAD /\
    spice_models example_final_state !! 2%nat = Some iopad /\
    exists insts,
      dump_compact_verilog_defined_grids "grid_"
        (fun side => match side with
                     | 0 => "top" | 1 => "right" | 2 => "bottom" | _ => "left"
                     end)
        (fun ix iy => "grid_" +:+ pretty ix +:+ "__" +:+ pretty iy +:+ "_")
        example_device (sram_orgz_info example_final_state) iopad (Some [])
      = Ok ([] ++ insts) /\
      length insts = length (device_tiles_in_bitstream_order example_device).
Proof.
  assert (Hnx : 0 < nx example_device) by (simpl; lia).
  assert (Hny : 0 < ny example_device) by (simpl; lia).
  assert (Hp : compact_verilog_update_grid_spice_model_and_sram_orgz_info
                 example_device example_state = Ok example_final_state)
    by (vm_compute; reflexivity).
  assert (Hfit : counters_fit example_device example_state
                   (device_tiles_in_bitstream_order example_device) = true)
    by (vm_compute; reflexivity).
  assert (Hrange : tiles_in_range example_device
                     (device_tiles_in_bitstream_order example_device) = true)
    by (vm_compute; reflexivity).
  assert (Hring : ring_offsets_zero example_device = true)
    by (vm_compute; reflexivity).
  split; [exact Hnx|]. split; [exact Hny|]. split; [exact Hp|].
  split; [exact Hfit|]. split; [exact Hrange|]. split; [exact Hring|].
  split; [exact example_device_offsets|].
  destruct (spice_models example_state !! 2%nat) as [m_io|] eqn:Ei;
    [|vm_compute in Ei; discriminate].
  destruct (spice_models example_final_state !! 2%nat) as [iopad|] eqn:Ei';
    [|vm_compute in Ei'; discriminate].
  assert (Hty : spice_model_type m_io = SPICE_MODEL_IOPAD).
  { vm_compute in Ei. inversion Ei. reflexivity. }
  exists m_io, iopad.
  split; [reflexivity|]. split; [exact Hty|]. split; [reflexivity|].
  destruct (defined_grids_after_pass "grid_"
              (fun side => match side with
                           | 0 => "top" | 1 => "right" | 2 => "bottom" | _ => "left"
                           end)
              (fun ix iy => "grid_" +:+ pretty ix +:+ "__" +:+ pretty iy +:+ "_")
              example_device example_state example_final_state 2%nat m_io iopad []
              Hnx Hny Hp Hfit Hrange Hring example_device_offsets Ei Hty Ei')
    as (insts & Hd & Hlen & _).
  exists insts. split; [exact Hd | exact Hlen].
Defined.

(** ** The channels of the top-level netlist *)

Lemma foldM_emit_or_exit {I A : Type} (ok : I -> bool) (g : I -> A)
  (l : list I) (s : list A) :
  foldM (fun i s => if ok i then Ok (s ++ [g i]) else Exit1) l s
  = if forallb ok l then Ok (s ++ (g <$> l)) else Exit1.
Proof.
  revert s. induction l as [|i l IH]; intros s.
  - simpl. now rewrite app_nil_r.
  - cbn [foldM forallb]. destruct (ok i); [|reflexivity].
    cbn [mbind outcome_bind andb]. rewrite IH.
    destruct (forallb ok l); [|reflexivity].
    now rewrite fmap_cons, <- app_assoc.
Qed.

Lemma foldM_nested_swap {S I J : Type} (body : I -> J -> S -> outcome S)
  (l : list I) (k : list J) (s : S) :
  foldM (fun i => foldM (body i) k) l s
  = foldM (fun c : J * I => body c.2 c.1) (i ← l; j ← k; [(j, i)]) s.
Proof.
  revert s. induction l as [|i l IH]; intros s; [reflexivity|].
  change ((i :: l) ≫= (fun i => k ≫= (fun j => [(j, i)])))
    with ((k ≫= (fun j => [(j, i)])) ++ (l ≫= (fun i => k ≫= (fun j => [(j, i)])))).
  rewrite foldM_app. cbn [foldM].
  assert (Hin : forall s, foldM (body i) k s
             = foldM (fun c : J * I => body c.2 c.1) (k ≫= (fun j => [(j, i)])) s).
  { clear. induction k as [|j k IHk]; intros s; [reflexivity|].
    simpl. apply bind_ext. intros a. apply IHk. }
  rewrite Hin. apply bind_ext. intros a. apply IH.
Qed.

Lemma length_bind_const {I A : Type} (f : I -> list A) (n : nat) (l : list I) :
  (forall i, length (f i) = n) -> length (l ≫= f) = (length l * n)%nat.
Proof.
  intros H. induction l as [|i l IH]; [reflexivity|].
  change ((i :: l) ≫= f) with (f i ++ (l ≫= f)).
  rewrite length_app, H, IH. simpl. lia.
Qed.

Section DefinedChannelsFacts.
Context `{C : DeviceRRChan}.
Variable is_explicit_mapping : bool.
Variable dev : t_device.

Let track_ok (rr_chan : RRChan) (itrack : Z) : bool :=
  match direction (get_node rr_chan itrack) with
  | INC_DIRECTION | DEC_DIRECTION => true
  | _ => false
  end.

Lemma chan_left_ports_closed_form rr_chan x y :
  for_range 0 (get_chan_width rr_chan)
    (chan_left_port is_explicit_mapping rr_chan x y) []
  = if forallb (track_ok rr_chan) (seqZ 0 (get_chan_width rr_chan))
    then Ok ((fun itrack =>
                chan_connection is_explicit_mapping rr_chan x y
                  (is_inc rr_chan itrack) itrack)
               <$> seqZ 0 (get_chan_width rr_chan))
    else Exit1.
Proof.
  unfold for_range. rewrite Z.sub_0_r.
  rewrite <- (app_nil_l (_ <$> _)), <- foldM_emit_or_exit.
  apply foldM_ext. intros itrack s _.
  unfold chan_left_port, track_ok, chan_connection, is_inc.
  destruct (direction (get_node rr_chan itrack)); reflexivity.
Qed.

Lemma chan_right_ports_closed_form rr_chan x y :
  for_range 0 (get_chan_width rr_chan)
    (chan_right_port is_explicit_mapping rr_chan x y) []
  = if forallb (track_ok rr_chan) (seqZ 0 (get_chan_width rr_chan))
    then Ok ((fun itrack =>
                chan_connection is_explicit_mapping rr_chan x y
                  (negb (is_inc rr_chan itrack)) itrack)
               <$> seqZ 0 (get_chan_width rr_chan))
    else Exit1.
Proof.
  unfold for_range. rewrite Z.sub_0_r.
  rewrite <- (app_nil_l (_ <$> _)), <- foldM_emit_or_exit.
  apply foldM_ext. intros itrack s _.
  unfold chan_right_port, track_ok, chan_connection, is_inc.
  destruct (direction (get_node rr_chan itrack)); reflexivity.
Qed.

Lemma chan_mid_outputs_closed_form rr_chan x y :
  for_range 0 (get_chan_width rr_chan)
    (chan_mid_output is_explicit_mapping rr_chan x y) []
  = Ok (chan_mid_connection is_explicit_mapping rr_chan x y
          <$> seqZ 0 (get_chan_width rr_chan)).
Proof.
  unfold for_range. rewrite Z.sub_0_r.
  rewrite <- (app_nil_l (_ <$> _)), <- bind_singleton_fmap, <- foldM_append.
  reflexivity.
Qed.

(** The three outcomes of the instantiation of one channel. *)
Lemma one_channel_outcome out x y rr_chan subckt_id :
  dump_compact_verilog_defined_one_channel is_explicit_mapping dev
    (Some out) x y rr_chan subckt_id
  = if bool_decide (0 <= x <= nx dev /\ 0 <= y <= ny dev)
    then if chan_is_valid rr_chan
         then Ok (out ++ [chan_instance is_explicit_mapping x y rr_chan subckt_id])
         else Exit1
    else AssertFail.
Proof.
  unfold dump_compact_verilog_defined_one_channel.
  rewrite chan_left_ports_closed_form, chan_right_ports_closed_form,
    chan_mid_outputs_closed_form.
  unfold chan_is_valid. fold (track_ok rr_chan).
  assert (Hb : forall a n, negb (0 >? a) && (a <? n + 1) = bool_decide (0 <= a <= n)).
  { intros a n. rewrite Z.gtb_ltb.
    destruct (Z.ltb_spec a 0), (Z.ltb_spec a (n + 1)); cbn [negb andb];
      symmetry; (apply bool_decide_eq_true_2 || apply bool_decide_eq_false_2); lia. }
  rewrite !Hb.
  destruct (decide (0 <= x <= nx dev)) as [Ex|Ex];
    [rewrite (bool_decide_eq_true_2 _ Ex) | rewrite (bool_decide_eq_false_2 _ Ex)];
    cbn [c_assert mbind outcome_bind].
  - destruct (decide (0 <= y <= ny dev)) as [Ey|Ey];
      [rewrite (bool_decide_eq_true_2 _ Ey) | rewrite (bool_decide_eq_false_2 _ Ey)];
      cbn [c_assert mbind outcome_bind].
    + rewrite bool_decide_eq_true_2 by tauto. unfold chan_instance.
      destruct (get_type rr_chan); cbn [mbind outcome_bind andb]; try reflexivity;
        destruct (forallb (track_ok rr_chan) (seqZ 0 (get_chan_width rr_chan)));
        reflexivity.
    + rewrite bool_decide_eq_false_2 by tauto. reflexivity.
  - rewrite bool_decide_eq_false_2 by tauto. reflexivity.
Qed.

Lemma elem_of_chanx_coordinates ix iy :
  (ix, iy) ∈ chanx_coordinates dev <-> 1 <= ix <= nx dev /\ 0 <= iy <= ny dev.
Proof.
  unfold chanx_coordinates. rewrite list_elem_of_bind. split.
  - intros (y0 & Hc & Hy). apply list_elem_of_bind in Hc.
    destruct Hc as (x0 & Hc & Hx). apply list_elem_of_singleton in Hc.
    inversion Hc; subst. apply elem_of_seqZ in Hx, Hy. lia.
  - intros [Hx Hy]. exists iy. split; [|apply elem_of_seqZ; lia].
    apply list_elem_of_bind. exists ix. split; [|apply elem_of_seqZ; lia].
    now apply list_elem_of_singleton.
Qed.

Lemma elem_of_chany_coordinates ix iy :
  (ix, iy) ∈ chany_coordinates dev <-> 0 <= ix <= nx dev /\ 1 <= iy <= ny dev.
Proof.
  unfold chany_coordinates. rewrite list_elem_of_bind. split.
  - intros (x0 & Hc & Hx). apply list_elem_of_bind in Hc.
    destruct Hc as (y0 & Hc & Hy). apply list_elem_of_singleton in Hc.
    inversion Hc; subst. apply elem_of_seqZ in Hx, Hy. lia.
  - intros [Hx Hy]. exists ix. split; [|apply elem_of_seqZ; lia].
    apply list_elem_of_bind. exists iy. split; [|apply elem_of_seqZ; lia].
    now apply list_elem_of_singleton.
Qed.

Lemma chanx_loops out :
  for_range 0 (ny dev + 1)
    (fun iy => for_range 1 (nx dev + 1)
       (fun ix out =>
          dump_compact_verilog_defined_one_channel is_explicit_mapping dev
            (Some out) ix iy
            (get_module_with_coordinator CHANX ix iy)
            (get_module_id CHANX ix iy)))
    out
  = if forallb (fun c => chan_is_valid (chan_at CHANX c)) (chanx_coordinates dev)
    then Ok (out ++ (chan_instance_at is_explicit_mapping CHANX
                       <$> chanx_coordinates dev))
    else Exit1.
Proof.
  unfold for_range.
  replace (nx dev + 1 - 1) with (nx dev) by lia. rewrite Z.sub_0_r.
  rewrite (foldM_nested_swap
             (fun iy ix out =>
                dump_compact_verilog_defined_one_channel is_explicit_mapping dev
                  (Some out) ix iy
                  (get_module_with_coordinator CHANX ix iy)
                  (get_module_id CHANX ix iy))).
  fold (chanx_coordinates dev).
  rewrite <- foldM_emit_or_exit.
  apply foldM_ext. intros [ix iy] s Hc. cbn [fst snd].
  apply elem_of_chanx_coordinates in Hc.
  rewrite one_channel_outcome, bool_decide_eq_true_2 by lia.
  reflexivity.
Qed.

Lemma chany_loops out :
  for_range 0 (nx dev + 1)
    (fun ix => for_range 1 (ny dev + 1)
       (fun iy out =>
          dump_compact_verilog_defined_one_channel is_explicit_mapping dev
            (Some out) ix iy
            (get_module_with_coordinator CHANY ix iy)
            (get_module_id CHANY ix iy)))
    out
  = if forallb (fun c => chan_is_valid (chan_at CHANY c)) (chany_coordinates dev)
    then Ok (out ++ (chan_instance_at is_explicit_mapping CHANY
                       <$> chany_coordinates dev))
    else Exit1.
Proof.
  unfold for_range.
  replace (ny dev + 1 - 1) with (ny dev) by lia. rewrite Z.sub_0_r.
  rewrite (foldM_nested
             (fun ix iy out =>
                dump_compact_verilog_defined_one_channel is_explicit_mapping dev
                  (Some out) ix iy
                  (get_module_with_coordinator CHANY ix iy)
                  (get_module_id CHANY ix iy))).
  fold (chany_coordinates dev).
  rewrite <- foldM_emit_or_exit.
  apply foldM_ext. intros [ix iy] s Hc. cbn [fst snd].
  apply elem_of_chany_coordinates in Hc.
  rewrite one_channel_outcome, bool_decide_eq_true_2 by lia.
  reflexivity.
Qed.

End DefinedChannelsFacts.

(** X13.  [dump_compact_verilog_defined_one_channel] on an open stream
    stops on an assertion exactly when the coordinate is outside
    [0 .. nx] x [0 .. ny]; inside, it stops with [exit(1)] when the module
    is neither an X nor a Y channel or has a track whose direction is
    neither increasing nor decreasing, and else appends one instantiation
    with one left, one right and one middle connection per track.  The two
    sides of a track are mirrored: a track that goes up has the formal [in]
    with the pin named as an output on its left/bottom side and the formal
    [out] with the pin named as an input on its right/top side; a track
    that goes down has them the other way round. *)
Theorem channel_written (C : DeviceRRChan) (is_explicit_mapping : bool)
  (dev : t_device) (out : list t_chan_instance) (x y : Z) (rr_chan : RRChan)
  (subckt_id : Z) :
  let run := dump_compact_verilog_defined_one_channel is_explicit_mapping dev
               (Some out) x y rr_chan subckt_id in
  let inst := chan_instance is_explicit_mapping x y rr_chan subckt_id in
  let formal f := if is_explicit_mapping then Some f else None in
  let pin itrack port :=
    gen_verilog_routing_channel_one_pin_name (get_node rr_chan itrack)
      x y itrack port in
  (run = AssertFail <-> ~ (0 <= x <= nx dev /\ 0 <= y <= ny dev)) /\
  (run = Exit1 <->
   (0 <= x <= nx dev /\ 0 <= y <= ny dev) /\ chan_is_valid rr_chan = false) /\
  (run = Ok (out ++ [inst]) <->
   (0 <= x <= nx dev /\ 0 <= y <= ny dev) /\ chan_is_valid rr_chan = true) /\
  (chan_is_valid rr_chan = true <->
   (get_type rr_chan = CHANX \/ get_type rr_chan = CHANY) /\
   forall itrack, 0 <= itrack < get_chan_width rr_chan ->
     direction (get_node rr_chan itrack) <> BI_DIRECTION) /\
  length (chan_inst_left_ports inst) = Z.to_nat (get_chan_width rr_chan) /\
  length (chan_inst_right_ports inst) = Z.to_nat (get_chan_width rr_chan) /\
  length (chan_inst_mid_outputs inst) = Z.to_nat (get_chan_width rr_chan) /\
  forall itrack, 0 <= itrack < get_chan_width rr_chan ->
    (direction (get_node rr_chan itrack) = INC_DIRECTION ->
     chan_inst_left_ports inst !! Z.to_nat itrack
     = Some {| conn_formal := formal (FORMAL_IN itrack);
               conn_actual := pin itrack OUT_PORT |} /\
     chan_inst_right_ports inst !! Z.to_nat itrack
     = Some {| conn_formal := formal (FORMAL_OUT itrack);
               conn_actual := pin itrack IN_PORT |}) /\
    (direction (get_node rr_chan itrack) = DEC_DIRECTION ->
     chan_inst_left_ports inst !! Z.to_nat itrack
     = Some {| conn_formal := formal (FORMAL_OUT itrack);
               conn_actual := pin itrack IN_PORT |} /\
     chan_inst_right_ports inst !! Z.to_nat itrack
     = Some {| conn_formal := formal (FORMAL_IN itrack);
               conn_actual := pin itrack OUT_PORT |}).
Proof.
  intros run inst formal pin. subst run.
  rewrite one_channel_outcome. fold inst.
  assert (Hlook : forall itrack, 0 <= itrack < get_chan_width rr_chan ->
            seqZ 0 (get_chan_width rr_chan) !! Z.to_nat itrack = Some itrack).
  { intros itrack Hi. rewrite lookup_seqZ_lt by lia. f_equal. lia. }
  split; [|split; [|split; [|split; [|split; [|split; [|split]]]]]].
  - case_bool_decide; destruct (chan_is_valid rr_chan); split;
      try discriminate; try tauto.
  - case_bool_decide; destruct (chan_is_valid rr_chan); split;
      try discriminate; try tauto; intros [? ?]; try discriminate; tauto.
  - case_bool_decide; destruct (chan_is_valid rr_chan); split;
      try discriminate; try tauto; intros [? ?]; try discriminate; tauto.
  - unfold chan_is_valid. rewrite andb_true_iff, forallb_forall. split.
    + intros [Ht Hd]. split.
      * destruct (get_type rr_chan); try discriminate; auto.
      * intros itrack Hi Hbi.
        assert (Hin : In itrack (seqZ 0 (get_chan_width rr_chan))).
        { apply list_elem_of_In, elem_of_seqZ. lia. }
        apply Hd in Hin. now rewrite Hbi in Hin.
    + intros [Ht Hd]. split.
      * destruct Ht as [-> | ->]; reflexivity.
      * intros itrack Hin. apply list_elem_of_In, elem_of_seqZ in Hin.
        specialize (Hd itrack ltac:(lia)).
        destruct (direction (get_node rr_chan itrack)); congruence.
  - subst inst. cbn [chan_instance chan_inst_left_ports].
    now rewrite length_fmap, length_seqZ.
  - subst inst. cbn [chan_instance chan_inst_right_ports].
    now rewrite length_fmap, length_seqZ.
  - subst inst. cbn [chan_instance chan_inst_mid_outputs].
    now rewrite length_fmap, length_seqZ.
  - intros itrack Hi. subst inst formal pin.
    cbn [chan_instance chan_inst_left_ports chan_inst_right_ports].
    rewrite !list_lookup_fmap, (Hlook itrack Hi).
    cbn [fmap option_fmap option_map]. unfold chan_connection, is_inc.
    split; intros ->; cbn [negb]; split; reflexivity.
Qed.

Lemma channel_written_witness :
  dump_compact_verilog_defined_one_channel true example_device (Some [])
    1 0 (CHANX, (1, 0)) 1
  = Ok ([] ++
        [{| chan_inst_module_name := "chanx_1";
            chan_inst_instance_name := "chanx_1__0";
            chan_inst_left_ports :=
              [{| conn_formal := Some (FORMAL_IN 0); conn_actual := "1_0_out_0" |};
               {| conn_formal := Some (FORMAL_OUT 1); conn_actual := "1_0_in_1" |}];
            chan_inst_right_ports :=
              [{| conn_formal := Some (FORMAL_OUT 0); conn_actual := "1_0_in_0" |};
               {| conn_formal := Some (FORMAL_IN 1); conn_actual := "1_0_out_1" |}];
            chan_inst_mid_outputs :=
              [{| conn_formal := Some (FORMAL_MID_OUT 0);
                  conn_actual := "chanx_1__0__midout_0_ " |};
               {| conn_formal := Some (FORMAL_MID_OUT 1);
                  conn_actual := "chanx_1__0__midout_1_ " |}] |}]) /\
  dump_compact_verilog_defined_one_channel true example_device (Some [])
    3 0 (CHANX, (3, 0)) 1 = AssertFail /\
  dump_compact_verilog_defined_one_channel true example_device (Some [])
    1 0 (OPIN, (1, 0)) 1 = Exit1.
Proof.
  pose proof (channel_written example_device_rr_chan true example_device []
                1 0 (CHANX, (1, 0)) 1) as (_ & _ & Hok & _).
  pose proof (channel_written example_device_rr_chan true example_device []
                3 0 (CHANX, (3, 0)) 1) as (Hfail & _).
  pose proof (channel_written example_device_rr_chan true example_device []
                1 0 (OPIN, (1, 0)) 1) as (_ & Hexit & _).
  split; [|split].
  - apply Hok. split; [simpl; lia | reflexivity].
  - apply Hfail. simpl. lia.
  - apply Hexit. split; [simpl; lia | reflexivity].
Defined.

(** X14.  [dump_compact_verilog_defined_channels] on an open stream never
    stops on an assertion: every coordinate its loops hand to
    [dump_compact_verilog_defined_one_channel] is inside the array.  It
    stops with [exit(1)] when one of the channel modules is not accepted,
    and else appends one instantiation per channel: first the X channels
    of the coordinates [1 .. nx] x [0 .. ny], row by row, then the Y
    channels of [0 .. nx] x [1 .. ny], column by column, each instantiating
    the module that [device_rr_chan] gives for its coordinate under the
    identifier of that module.  On a null stream it stops with
    [exit(1)]. *)
Theorem defined_channels_written (C : DeviceRRChan) (is_explicit_mapping : bool)
  (dev : t_device) (out : list t_chan_instance) :
  dump_compact_verilog_defined_channels is_explicit_mapping dev (Some out)
  = (if forallb (fun c => chan_is_valid (chan_at CHANX c)) (chanx_coordinates dev)
        && forallb (fun c => chan_is_valid (chan_at CHANY c)) (chany_coordinates dev)
     then Ok (out
              ++ (chan_instance_at is_explicit_mapping CHANX <$> chanx_coordinates dev)
              ++ (chan_instance_at is_explicit_mapping CHANY <$> chany_coordinates dev))
     else Exit1) /\
  dump_compact_verilog_defined_channels is_explicit_mapping dev None = Exit1 /\
  (forall ix iy, (ix, iy) ∈ chanx_coordinates dev <->
                 1 <= ix <= nx dev /\ 0 <= iy <= ny dev) /\
  (forall ix iy, (ix, iy) ∈ chany_coordinates dev <->
                 0 <= ix <= nx dev /\ 1 <= iy <= ny dev) /\
  length (chanx_coordinates dev)
  = (Z.to_nat (ny dev + 1) * Z.to_nat (nx dev))%nat /\
  length (chany_coordinates dev)
  = (Z.to_nat (nx dev + 1) * Z.to_nat (ny dev))%nat /\
  (forall ix iy,
      chan_instance_at is_explicit_mapping CHANX (ix, iy)
      = chan_instance is_explicit_mapping ix iy
          (get_module_with_coordinator CHANX ix iy) (get_module_id CHANX ix iy)) /\
  (forall ix iy,
      chan_instance_at is_explicit_mapping CHANY (ix, iy)
      = chan_instance is_explicit_mapping ix iy
          (get_module_with_coordinator CHANY ix iy) (get_module_id CHANY ix iy)).
Proof.
  split; [|split; [reflexivity|split; [|split; [|split; [|split; [|split]]]]]].
  - unfold dump_compact_verilog_defined_channels.
    rewrite chanx_loops.
    destruct (forallb _ (chanx_coordinates dev)); [|reflexivity].
    cbn [mbind outcome_bind andb]. rewrite chany_loops.
    destruct (forallb _ (chany_coordinates dev)); [|reflexivity].
    now rewrite app_assoc.
  - apply elem_of_chanx_coordinates.
  - apply elem_of_chany_coordinates.
  - unfold chanx_coordinates.
    rewrite (length_bind_const _ (Z.to_nat (nx dev))), length_seqZ; [reflexivity|].
    intros iy. rewrite (length_bind_const _ 1%nat), length_seqZ; [lia|].
    reflexivity.
  - unfold chany_coordinates.
    rewrite (length_bind_const _ (Z.to_nat (ny dev))), length_seqZ; [reflexivity|].
    intros ix. rewrite (length_bind_const _ 1%nat), length_seqZ; [lia|].
    reflexivity.
  - reflexivity.
  - reflexivity.
Qed.

(** ** [ConfPorts]: growing both ports from scratch *)

Lemma expand_from_invalid (p : BasicPort.t) (w : Z) :
  0 < w < SIZE_MAX -> BasicPort.get_width p = 0 ->
  BasicPort.expand w p = {| BasicPort.msb_ := w; BasicPort.lsb_ := 0 |} /\
  BasicPort.get_width (BasicPort.expand w p) = w + 1.
Proof.
  intros Hw H0. unfold BasicPort.expand.
  assert (Hw0 : (0 =? w) = false) by (apply Z.eqb_neq; lia).
  rewrite Hw0, H0. simpl. split; [reflexivity|].
  rewrite get_width_exact;
    [simpl; lia | split; simpl; size_t_norm; lia | simpl; lia
    | simpl; intros [_ E]; lia].
Qed.

Lemma expand_from_zero_based (m v : Z) :
  0 <= m -> 0 < v -> m + v < SIZE_MAX ->
  BasicPort.expand v {| BasicPort.msb_ := m; BasicPort.lsb_ := 0 |}
  = {| BasicPort.msb_ := m + v; BasicPort.lsb_ := 0 |} /\
  BasicPort.get_width
    (BasicPort.expand v {| BasicPort.msb_ := m; BasicPort.lsb_ := 0 |})
  = m + v + 1.
Proof.
  intros Hm Hv Hfit. unfold BasicPort.expand.
  assert (Hv0 : (0 =? v) = false) by (apply Z.eqb_neq; lia).
  assert (Hwd : BasicPort.get_width
                  {| BasicPort.msb_ := m; BasicPort.lsb_ := 0 |} = m + 1).
  { rewrite get_width_exact;
      [simpl; lia | split; simpl; size_t_norm; lia | simpl; lia
      | simpl; intros [_ E]; lia]. }
  rewrite Hv0, Hwd.
  assert (Hne : (0 =? m + 1) = false) by (apply Z.eqb_neq; lia).
  rewrite Hne. cbn [BasicPort.msb_ BasicPort.lsb_].
  rewrite wrap_small by (size_t_norm; lia). split; [reflexivity|].
  rewrite get_width_exact;
    [simpl; lia | split; simpl; size_t_norm; lia | simpl; lia
    | simpl; intros [_ E]; lia].
Qed.

(** X15.  [ConfPorts::reset] gives the freshly constructed object
    whatever it held, with both widths 0.  Growing it with
    [ConfPorts::expand] treats the first call differently from the
    following ones: [expand(w)] on the reset object makes both ports
    [0 .. w], of width [w + 1]; a further [expand(v)] adds exactly [v], so
    that both ports are [0 .. w + v], of width [w + v + 1], and the two
    ports stay equal.  Starting instead from [set_regular_port(w)], the
    regular port is [0 .. w - 1] and [expand(v)] brings its width to
    [w + v]. *)
Theorem ConfPorts_expand_after_reset (c : ConfPorts.t) (w v : Z) :
  0 < w -> 0 < v -> w + v < SIZE_MAX ->
  let e1 := ConfPorts.expand w (ConfPorts.reset c) in
  let e2 := ConfPorts.expand v e1 in
  ConfPorts.reset c = ConfPorts.default /\
  ConfPorts.get_reserved_port_width (ConfPorts.reset c) = 0 /\
  ConfPorts.get_regular_port_width (ConfPorts.reset c) = 0 /\
  ConfPorts.reserved_ e1 = {| BasicPort.msb_ := w; BasicPort.lsb_ := 0 |} /\
  ConfPorts.regular_ e1 = {| BasicPort.msb_ := w; BasicPort.lsb_ := 0 |} /\
  ConfPorts.get_reserved_port_width e1 = w + 1 /\
  ConfPorts.get_regular_port_width e1 = w + 1 /\
  ConfPorts.reserved_ e2 = {| BasicPort.msb_ := w + v; BasicPort.lsb_ := 0 |} /\
  ConfPorts.regular_ e2 = {| BasicPort.msb_ := w + v; BasicPort.lsb_ := 0 |} /\
  ConfPorts.get_reserved_port_width e2 = w + v + 1 /\
  ConfPorts.get_regular_port_width e2 = w + v + 1 /\
  ConfPorts.get_regular_port_width
    (ConfPorts.expand_regular_port v (ConfPorts.set_regular_port w c))
  = w + v.
Proof.
  intros Hw Hv Hfit e1 e2.
  assert (H0 : BasicPort.get_width BasicPort.default = 0) by reflexivity.
  destruct (expand_from_invalid BasicPort.default w ltac:(lia) H0) as [E1 W1].
  destruct (expand_from_zero_based w v ltac:(lia) Hv Hfit) as [E2 W2].
  assert (He1 : e1 = {| ConfPorts.reserved_ := {| BasicPort.msb_ := w; BasicPort.lsb_ := 0 |};
                        ConfPorts.regular_ := {| BasicPort.msb_ := w; BasicPort.lsb_ := 0 |} |}).
  { subst e1. unfold ConfPorts.expand, ConfPorts.expand_regular_port,
      ConfPorts.expand_reserved_port, ConfPorts.reset, BasicPort.reset.
    cbn [ConfPorts.reserved_ ConfPorts.regular_].
    change (BasicPort.make_invalid _) with BasicPort.default.
    now rewrite E1. }
  assert (He2 : e2 = {| ConfPorts.reserved_ := {| BasicPort.msb_ := w + v; BasicPort.lsb_ := 0 |};
                        ConfPorts.regular_ := {| BasicPort.msb_ := w + v; BasicPort.lsb_ := 0 |} |}).
  { subst e2. rewrite He1.
    unfold ConfPorts.expand, ConfPorts.expand_regular_port,
      ConfPorts.expand_reserved_port.
    cbn [ConfPorts.reserved_ ConfPorts.regular_]. now rewrite E2. }
  assert (Wd : forall m, 0 <= m < SIZE_MAX ->
             BasicPort.get_width {| BasicPort.msb_ := m; BasicPort.lsb_ := 0 |}
             = m + 1).
  { intros m Hm. rewrite get_width_exact;
      [simpl; lia | split; simpl; size_t_norm; lia | simpl; lia
      | simpl; intros [_ E]; lia]. }
  split; [reflexivity|]. split; [reflexivity|]. split; [reflexivity|].
  rewrite He2, He1.
  unfold ConfPorts.get_reserved_port_width, ConfPorts.get_regular_port_width.
  cbn [ConfPorts.reserved_ ConfPorts.regular_].
  rewrite !Wd by lia.
  do 8 (split; [reflexivity|]).
  unfold ConfPorts.expand_regular_port, ConfPorts.set_regular_port.
  cbn [ConfPorts.reserved_ ConfPorts.regular_].
  destruct (set_width_of_width w (ConfPorts.regular_ c) ltac:(lia)) as [-> _].
  assert (Hw0 : (0 =? w) = false) by (apply Z.eqb_neq; lia).
  rewrite Hw0.
  destruct (expand_from_zero_based (w - 1) v ltac:(lia) Hv ltac:(lia)) as [_ ->].
  lia.
Qed.

Lemma ConfPorts_expand_after_reset_witness :
  0 < 4 /\ 0 < 3 /\ 4 + 3 < SIZE_MAX /\
  ConfPorts.get_regular_port_width
    (ConfPorts.expand 3 (ConfPorts.expand 4 (ConfPorts.reset ConfPorts.default)))
  = 4 + 3 + 1.
Proof.
  assert (H1 : 0 < 4) by lia. assert (H2 : 0 < 3) by lia.
  assert (H3 : 4 + 3 < SIZE_MAX) by (rewrite SIZE_MAX_eq; lia).
  split; [exact H1|]. split; [exact H2|]. split; [exact H3|].
  apply (ConfPorts_expand_after_reset ConfPorts.default 4 3 H1 H2 H3).
Defined.
